(** * plotter-magnetic-textures: classification of spin lattices

    A shallow embedding of the phase-diagram core of the repository:

    - [Lattice] (src/plot_spins/lattice.py): loading of a lattice and the
      breadth-first sublattice labelling;
    - [PathManager] (src/plot_spins/path_manager.py): file names of a sweep;
    - [Criteria] (src/source/criteria.py): the order-parameter predicates and
      the two colour rule tables;
    - [DataManager] (src/source/data_manager.py): the sweep over the grid;
    - [Plotter] (src/plot_spins/plotter.py): the figure of the phase diagram;
    - [GraphMaker] (src/plot_spins/graph_maker.py): the drawing of a lattice.

    Conventions of the embedding.

    - A Python exception is a value [Raise e] of the result type [res]; a
      function that cannot raise returns its value directly.
    - numpy arrays are lists, indexed by a [Z] the way numpy does it: an index
      [i] with [-len <= i < 0] denotes [len + i], anything else out of
      [0 .. len-1] raises [IndexError].
    - Spin and position components are exact rationals [Q]: float64 rounding
      is not modelled.  What numpy's float arithmetic adds to the finite
      numbers (inf and nan, from a division by zero or the root of a negative
      number) is modelled by [npfloat].  The square root is a parameter
      [sqrt : Q -> Q] of the definitions that call [np.sqrt].
    - The variables of a sweep are binary64 floats ([PrimFloat]): their exact
      value is what Python's [format] prints.
    - The text of the input files is not modelled: a file is its sequence of
      parsed records. *)

From Stdlib Require Import String Ascii DecimalString Floats.
From Stdlib Require Import ZArith QArith Qabs Lqa Lia List Bool Permutation.
Import ListNotations.

(** ** Python results and numpy indexing *)

Inductive exn : Set := IndexError | ZeroDivisionError | ValueError.

(** [OutOfFuel] is not a Python outcome: it is the answer of a loop of the
    model that was given too little fuel (see [bfs_loop_enough_fuel]). *)
Inductive res (A : Type) : Type :=
| Ok (a : A)
| Raise (e : exn)
| OutOfFuel.

Arguments Ok {A} a.
Arguments Raise {A} e.
Arguments OutOfFuel {A}.

Definition bind {A B : Type} (c : res A) (k : A -> res B) : res B :=
  match c with
  | Ok a => k a
  | Raise e => Raise e
  | OutOfFuel => OutOfFuel
  end.

Notation "x <- c ;; k" := (bind c (fun x => k))
  (at level 61, c at next level, right associativity).
Notation "' p <- c ;; k" := (bind c (fun x => let 'p := x in k))
  (at level 61, p pattern, c at next level, right associativity).

(** [for x in xs: s = f(x, s)] *)
Fixpoint for_each {A S : Type} (f : A -> S -> res S) (xs : list A) (s : S)
  : res S :=
  match xs with
  | [] => Ok s
  | x :: xs' => s' <- f x s ;; for_each f xs' s'
  end.

(** [[f(x) for x in xs]] *)
Fixpoint map_res {A B : Type} (f : A -> res B) (xs : list A) : res (list B) :=
  match xs with
  | [] => Ok []
  | x :: xs' => y <- f x ;; ys <- map_res f xs' ;; Ok (y :: ys)
  end.

(** [range(n)]; empty when [n <= 0]. *)
Definition range (n : Z) : list Z := map Z.of_nat (seq 0 (Z.to_nat n)).

(** [enumerate(l)] *)
Definition enumerate {A : Type} (l : list A) : list (Z * A) :=
  combine (map Z.of_nat (seq 0 (length l))) l.

Definition norm_index (len : nat) (i : Z) : option nat :=
  if ((0 <=? i) && (i <? Z.of_nat len))%Z then Some (Z.to_nat i)
  else if ((- Z.of_nat len <=? i) && (i <? 0))%Z
       then Some (Z.to_nat (Z.of_nat len + i))
       else None.

(** [a[i]] *)
Definition np_get {A : Type} (a : list A) (i : Z) : res A :=
  match norm_index (length a) i with
  | Some k => match nth_error a k with
              | Some x => Ok x
              | None => Raise IndexError
              end
  | None => Raise IndexError
  end.

Fixpoint replace_nth {A : Type} (k : nat) (x : A) (a : list A) : list A :=
  match a, k with
  | [], _ => []
  | _ :: a', O => x :: a'
  | y :: a', S k' => y :: replace_nth k' x a'
  end.

(** [a[i] = x] *)
Definition np_set {A : Type} (a : list A) (i : Z) (x : A) : res (list A) :=
  match norm_index (length a) i with
  | Some k => Ok (replace_nth k x a)
  | None => Raise IndexError
  end.

(** ** Vectors *)

Definition vec3 : Type := (Q * Q * Q)%type.

Definition vx (v : vec3) : Q := fst (fst v).
Definition vy (v : vec3) : Q := snd (fst v).
Definition vz (v : vec3) : Q := snd v.

Definition Qltb (x y : Q) : bool :=
  match x ?= y with Lt => true | _ => false end.

Definition Qmin_list (d : Q) (l : list Q) : Q :=
  fold_left (fun m x => if Qltb x m then x else m) l d.
Definition Qmax_list (d : Q) (l : list Q) : Q :=
  fold_left (fun m x => if Qltb m x then x else m) l d.

(** ** Lattice (src/plot_spins/lattice.py) *)

Module Lattice.

Record t : Type := mk {
  spins : list vec3;
  position : list vec3;
  vecinos : list (list Z);
  n_atoms : Z;
  dimensions : vec3;
  size : Q;
  sublattice : list Z
}.

(** [Lattice.__init__] *)
Definition init : t :=
  {| spins := []; position := []; vecinos := []; n_atoms := 0;
     dimensions := (0, 0, 0); size := 0; sublattice := [] |}.

Definition set_labels (lat : t) (l : list Z) : t :=
  {| spins := spins lat; position := position lat; vecinos := vecinos lat;
     n_atoms := n_atoms lat; dimensions := dimensions lat; size := size lat;
     sublattice := l |}.

(** State of the traversal of [set_sublattice]: the label array
    [self.sublattice], the array [checked] and the FIFO [queue_nodes]. *)
Record bfs_state : Type := mk_bfs {
  labels : list Z;
  checked : list bool;
  queue : list Z
}.

(** The body of [for vecino in self.vecinos[node]]. *)
Definition visit (node vecino : Z) (st : bfs_state) : res bfs_state :=
  l <- np_get (labels st) vecino ;;
  if negb (l =? 0)%Z then
    labels' <- np_set (labels st) node (- l)%Z ;;
    Ok (mk_bfs labels' (checked st) (queue st))
  else
    c <- np_get (checked st) vecino ;;
    if negb c then
      checked' <- np_set (checked st) vecino true ;;
      Ok (mk_bfs (labels st) checked' (queue st ++ [vecino]))
    else Ok st.

(** The body of [while not queue_nodes.empty()]. *)
Definition process_node (vec : list (list Z)) (node : Z) (st : bfs_state)
  : res bfs_state :=
  row <- np_get vec node ;;
  for_each (visit node) row st.

Fixpoint bfs_loop (fuel : nat) (vec : list (list Z)) (st : bfs_state)
  : res bfs_state :=
  match queue st with
  | [] => Ok st
  | node :: rest =>
      match fuel with
      | O => OutOfFuel
      | S fuel' =>
          st' <- process_node vec node (mk_bfs (labels st) (checked st) rest) ;;
          bfs_loop fuel' vec st'
      end
  end.

(** [Lattice.set_sublattice].  Every atom enters the queue at most once, so
    [n_atoms] iterations of the [while] loop are enough. *)
Definition set_sublattice (lat : t) : res t :=
  if (n_atoms lat <? 0)%Z then Raise ValueError
  else
    let checked0 := repeat false (Z.to_nat (n_atoms lat)) in
    labels1 <- np_set (sublattice lat) 0 1%Z ;;
    checked1 <- np_set checked0 0 true ;;
    st <- bfs_loop (Z.to_nat (n_atoms lat)) (vecinos lat)
                   (mk_bfs labels1 checked1 [0%Z]) ;;
    Ok (set_labels lat (labels st)).

(** The atom [v] carries a label in [lab]. *)
Definition labelled (lab : list Z) (v : Z) : bool :=
  match np_get lab v with
  | Ok l => negb (l =? 0)%Z
  | _ => false
  end.

(** The first and the last neighbour of a row, in array order, that carry a
    label. *)
Definition first_labelled (lab : list Z) (row : list Z) : option Z :=
  find (labelled lab) row.

Definition last_labelled (lab : list Z) (row : list Z) : option Z :=
  find (labelled lab) (rev row).

(** The atoms that the traversal has not marked yet. *)
Definition unchecked (c : list bool) : nat := length (filter negb c).

(** *** Input files

    A structure file is its header field [N] and its atom lines, each the
    position (fields 1-3) and the three neighbour indices (fields 4-6,
    counted from 1); a spin file is its lines, each the three spin components
    (fields 1-3).  [open_structure] and [open_spins] answer [None] where
    [open] raises [FileNotFoundError]. *)
Record structure_file : Type := mk_structure {
  header_n_atoms : Z;
  atom_lines : list (vec3 * (Z * Z * Z))
}.

Definition spin_file : Type := list vec3.

Record file_system : Type := mk_fs {
  open_structure : string -> option structure_file;
  open_spins : string -> option spin_file
}.

(** What [load_files] prints. *)
Inductive report : Type :=
| Silent
| FileNotFound (path : string).

(** [np.amax(a, axis=0)] and [np.amin(a, axis=0)] of an array of rows. *)
Definition amax0 (a : list vec3) : res vec3 :=
  match a with
  | [] => Raise ValueError
  | v :: a' => Ok (Qmax_list (vx v) (map vx a'),
                   Qmax_list (vy v) (map vy a'),
                   Qmax_list (vz v) (map vz a'))
  end.

Definition amin0 (a : list vec3) : res vec3 :=
  match a with
  | [] => Raise ValueError
  | v :: a' => Ok (Qmin_list (vx v) (map vx a'),
                   Qmin_list (vy v) (map vy a'),
                   Qmin_list (vz v) (map vz a'))
  end.

(** [Lattice.load_files]: the lattice after the call and what was printed. *)
Definition load_files (fs : file_system) (self : t)
  (structure_path spin_path : string) : res (t * report) :=
  match open_structure fs structure_path with
  | None => Ok (self, FileNotFound structure_path)
  | Some lines =>
    match open_spins fs spin_path with
    | None => Ok (self, FileNotFound spin_path)
    | Some spin_lines =>
      let n := header_n_atoms lines in
      if (n <? 0)%Z then Raise ValueError
      else
        let k := Z.to_nat n in
        ' (position1, vecinos1) <-
          for_each
            (fun (il : Z * (vec3 * (Z * Z * Z))) (pv : list vec3 * list (list Z)) =>
               let '(i, (pos, (a, b, c))) := il in
               p <- np_set (fst pv) i pos ;;
               v <- np_set (snd pv) i [a - 1; b - 1; c - 1]%Z ;;
               Ok (p, v))
            (enumerate (firstn k (atom_lines lines)))
            (repeat (0, 0, 0) k, repeat [0; 0; 0]%Z k) ;;
        spins1 <-
          for_each (fun (il : Z * vec3) (sp : list vec3) =>
                      np_set sp (fst il) (snd il))
                   (enumerate (firstn k spin_lines))
                   (repeat (0, 0, 0) k) ;;
        hi <- amax0 position1 ;;
        lo <- amin0 position1 ;;
        let dims := (vx hi - vx lo, vy hi - vy lo, vz hi - vz lo) in
        Ok ({| spins := spins1; position := position1; vecinos := vecinos1;
               n_atoms := n; dimensions := dims;
               size := Qmax_list (vx dims) [vy dims; vz dims];
               sublattice := repeat 0%Z k |},
            Silent)
    end
  end.

End Lattice.

(** ** PathManager (src/plot_spins/path_manager.py) *)

Module PathManager.

Local Open Scope string_scope.

(** The dictionary [names] given to [PathManager.__init__]. *)
Record names : Type := mk_names {
  dir_prefix_key : string;
  file_prefix_key : string;
  variable_1_key : string;
  variable_2_key : string;
  format_key : string;
  structure_key : string;
  output_image_key : string
}.

(** The format strings of the model are the fixed-point replacement fields
    ["{:.Nf}"]: [var_format] keeps the precision [N]. *)
Record t : Type := mk {
  dir_prefix : string;
  name_prefix : string;
  var1_name : string;
  var2_name : string;
  var_format : nat;
  structure : string;
  output_img : string
}.

Definition digit_of (c : ascii) : option nat :=
  let k := nat_of_ascii c in
  if (48 <=? k)%nat && (k <=? 57)%nat then Some (k - 48)%nat else None.

(** The decimal number at the head of [s] and what follows it. *)
Fixpoint read_digits (acc : option nat) (s : string) : option nat * string :=
  match s with
  | EmptyString => (acc, s)
  | String c s' =>
      match digit_of c with
      | Some d => read_digits (Some (10 * match acc with Some a => a | None => 0 end + d)%nat) s'
      | None => (acc, s)
      end
  end.

Definition parse_format (s : string) : option nat :=
  match s with
  | String "{" (String ":" (String "." rest)) =>
      match read_digits None rest with
      | (Some n, String "f" (String "}" EmptyString)) => Some n
      | _ => None
      end
  | _ => None
  end.

(** [PathManager.__init__]; [None] when the format is not of the model. *)
Definition init (n : names) : option t :=
  match parse_format (format_key n) with
  | Some prec =>
      Some {| dir_prefix := dir_prefix_key n; name_prefix := file_prefix_key n;
              var1_name := variable_1_key n; var2_name := variable_2_key n;
              var_format := prec; structure := structure_key n;
              output_img := output_image_key n |}
  | None => None
  end.

(** The integer nearest to [m * 2^e], ties to even. *)
Definition round_half_even (m e : Z) : Z :=
  if (0 <=? e)%Z then (m * 2 ^ e)%Z
  else
    let d := (2 ^ (- e))%Z in
    let q := (m / d)%Z in
    let r := (m mod d)%Z in
    match (2 * r ?= d)%Z with
    | Lt => q
    | Gt => (q + 1)%Z
    | Eq => if Z.even q then q else (q + 1)%Z
    end.

Definition decimal (n : Z) : string :=
  DecimalString.NilZero.string_of_uint (N.to_uint (Z.to_N n)).

Fixpoint zeros (k : nat) : string :=
  match k with
  | O => EmptyString
  | S k' => String "0" (zeros k')
  end.

(** [n / 10^prec] written with [prec] decimals. *)
Definition digits_fixed (prec : nat) (n : Z) : string :=
  let p := (10 ^ Z.of_nat prec)%Z in
  let frac := decimal (n mod p) in
  match prec with
  | O => decimal (n / p)
  | _ => decimal (n / p) ++ "." ++ zeros (prec - String.length frac) ++ frac
  end.

Definition sign (s : bool) : string := if s then "-" else EmptyString.

(** ["{:.Nf}".format(x)] for a binary64 [x]: the exact value of [x] rounded
    to [N] decimals, ties to even. *)
Definition format_fixed (prec : nat) (x : float) : string :=
  match Prim2SF x with
  | S754_nan => "nan"
  | S754_infinity s => sign s ++ "inf"
  | S754_zero s => sign s ++ digits_fixed prec 0
  | S754_finite s m e =>
      sign s ++ digits_fixed prec
                  (round_half_even (Zpos m * 10 ^ Z.of_nat prec) e)
  end.

(** [PathManager.var_to_str] *)
Definition var_to_str (self : t) (var : float) : string :=
  format_fixed (var_format self) var.

(** [PathManager.get_file_path] *)
Definition get_file_path (self : t) (folder : string) (var1 var2 : float)
  : string :=
  let dir_path := dir_prefix self ++ folder ++ "/" in
  let file_name := name_prefix self ++ var1_name self ++ var_to_str self var1 in
  let file_name := file_name ++ var2_name self ++ var_to_str self var2 in
  dir_path ++ file_name.

(** [PathManager.get_folder_path] *)
Definition get_folder_path (self : t) (folder : string) : string :=
  dir_prefix self ++ folder ++ "/".

(** [PathManager.get_min_path] *)
Definition get_min_path (self : t) : string :=
  dir_prefix self ++ "min_files/".

End PathManager.

(** ** numpy floats

    The finite values are exact rationals.  A zero divisor of this program is
    an integer or a square root, hence +0: the sign of [x / 0] is that of
    [x]. *)

Inductive npfloat : Type :=
| Fin (q : Q)
| PInf
| NInf
| NaN.

Definition inf_of_sign (c : comparison) : npfloat :=
  match c with
  | Eq => NaN
  | Gt => PInf
  | Lt => NInf
  end.

Definition np_abs (x : npfloat) : npfloat :=
  match x with
  | Fin a => Fin (Qabs a)
  | PInf | NInf => PInf
  | NaN => NaN
  end.

Definition np_add (x y : npfloat) : npfloat :=
  match x, y with
  | NaN, _ | _, NaN => NaN
  | Fin a, Fin b => Fin (a + b)
  | PInf, NInf | NInf, PInf => NaN
  | PInf, _ | _, PInf => PInf
  | NInf, _ | _, NInf => NInf
  end.

Definition np_mul (x y : npfloat) : npfloat :=
  match x, y with
  | NaN, _ | _, NaN => NaN
  | Fin a, Fin b => Fin (a * b)
  | Fin a, PInf | PInf, Fin a => inf_of_sign (a ?= 0)
  | Fin a, NInf | NInf, Fin a => inf_of_sign (0 ?= a)
  | PInf, PInf | NInf, NInf => PInf
  | PInf, NInf | NInf, PInf => NInf
  end.

Definition np_div (x y : npfloat) : npfloat :=
  match x, y with
  | NaN, _ | _, NaN => NaN
  | Fin a, Fin b => if Qeq_bool b 0 then inf_of_sign (a ?= 0) else Fin (a / b)
  | Fin _, _ => Fin 0
  | PInf, Fin b => if Qltb b 0 then NInf else PInf
  | NInf, Fin b => if Qltb b 0 then PInf else NInf
  | _, _ => NaN
  end.

Definition np_ltb (x y : npfloat) : bool :=
  match x, y with
  | NaN, _ | _, NaN => false
  | Fin a, Fin b => Qltb a b
  | NInf, NInf | PInf, _ => false
  | NInf, _ => true
  | Fin _, PInf => true
  | Fin _, NInf => false
  end.

(** [np.sum] of a list of floats *)
Definition Qsum (l : list Q) : Q := fold_left Qplus l 0.
Definition np_sum (l : list npfloat) : npfloat := fold_left np_add l (Fin 0).

(** [np.amax] of a list: a nan wins, an empty list is an error. *)
Definition np_max (x y : npfloat) : npfloat :=
  match x, y with
  | NaN, _ | _, NaN => NaN
  | _, _ => if np_ltb x y then y else x
  end.

Definition np_amax (l : list npfloat) : res npfloat :=
  match l with
  | [] => Raise ValueError
  | x :: l' => Ok (fold_left np_max l' x)
  end.

Definition of_int (n : Z) : npfloat := Fin (inject_Z n).

(** [min(a, b)] of Python: [b] when [b < a], else [a]. *)
Definition py_min (a b : Q) : Q := if Qltb b a then b else a.

(** [a / b] on Python integers *)
Definition py_truediv (a b : Z) : res Q :=
  if (b =? 0)%Z then Raise ZeroDivisionError else Ok (inject_Z a / inject_Z b).

Definition dot (u v : vec3) : Q := vx u * vx v + vy u * vy v + vz u * vz v.

Definition cross (u v : vec3) : vec3 :=
  (vy u * vz v - vz u * vy v,
   vz u * vx v - vx u * vz v,
   vx u * vy v - vy u * vx v).

Definition vadd (u v : vec3) : vec3 := (vx u + vx v, vy u + vy v, vz u + vz v).
Definition vsub (u v : vec3) : vec3 := (vx u - vx v, vy u - vy v, vz u - vz v).
Definition vscale (c : Q) (u : vec3) : vec3 := (c * vx u, c * vy u, c * vz u).

(** A square root on the rationals for the examples: the floor of the root
    of [n * d], over [d], for [n / d]; exact on the square of a rational. *)
Definition sqrt_floor (q : Q) : Q :=
  Z.sqrt (Qnum q * Zpos (Qden q)) # Qden q.

Definition color : Type := vec3.

(** [np.array([r, g, b]) / 255] *)
Definition rgb (r g b : Z) : color := (r # 255, g # 255, b # 255).

(** ** Criteria (src/source/criteria.py) *)

Module Criteria.

Record t : Type := mk {
  len : Z;
  vecinos : list (list Z);
  sublattice : list Z;
  positions : list vec3
}.

(** [Criteria.__init__] *)
Definition init : t := mk 0 [] [] [].

(** [Criteria.set_values] *)
Definition set_values (self : t) (n_atoms : Z) (vec : list (list Z))
  (sub : list Z) (pos : list vec3) : t :=
  mk n_atoms vec sub pos.

Section Predicates.

(** [np.sqrt] on the finite values *)
Variable sqrt : Q -> Q.

Definition np_sqrt (x : npfloat) : npfloat :=
  match x with
  | Fin a => if Qltb a 0 then NaN else Fin (sqrt a)
  | PInf => PInf
  | NInf | NaN => NaN
  end.

(** [[f(spins[n]) for n in range(self.len)]] *)
Definition per_atom (self : t) (spins : list vec3) (f : vec3 -> Q)
  : res (list Q) :=
  map_res (fun n => s <- np_get spins n ;; Ok (f s)) (range (len self)).

(** [[f(spins[n]) * self.sublattice[n] for n in range(self.len)]] *)
Definition per_atom_staggered (self : t) (spins : list vec3) (f : vec3 -> Q)
  : res (list Q) :=
  map_res (fun n => s <- np_get spins n ;;
                    l <- np_get (sublattice self) n ;;
                    Ok (f s * inject_Z l))
          (range (len self)).

Definition is_ferro_z_aligned (self : t) (spins : list vec3) : res bool :=
  zs <- per_atom self spins vz ;;
  let mag_z := Qsum zs in
  let value := np_div (Fin (Qabs mag_z)) (of_int (len self)) in
  Ok (np_ltb (Fin 0.99) value).

Definition is_antiferro_z_aligned (self : t) (spins : list vec3) : res bool :=
  zs <- per_atom_staggered self spins vz ;;
  let mag_z := Qsum zs in
  let value := np_div (Fin (Qabs mag_z)) (of_int (len self)) in
  Ok (np_ltb (Fin 0.99) value).

Definition np_square (x : npfloat) : npfloat := np_mul x x.

Definition is_ferro_xy_aligned (self : t) (spins : list vec3) : res bool :=
  xs <- per_atom self spins vx ;;
  ys <- per_atom self spins vy ;;
  zs <- per_atom self spins vz ;;
  let mag_x := Fin (Qsum xs) in
  let mag_y := Fin (Qsum ys) in
  let mag_z := np_div (Fin (Qabs (Qsum zs))) (of_int (len self)) in
  let mag :=
    np_div (np_sqrt (np_add (np_add (np_square mag_x) (np_square mag_y))
                            (np_square mag_z)))
           (of_int (len self)) in
  Ok (np_ltb mag_z (Fin 0.1) && np_ltb (Fin 0.9) mag).

Definition is_antiferro_xy_aligned (self : t) (spins : list vec3) : res bool :=
  xs <- per_atom_staggered self spins vx ;;
  ys <- per_atom_staggered self spins vy ;;
  zs <- per_atom_staggered self spins vz ;;
  let mag_x := Fin (Qsum xs) in
  let mag_y := Fin (Qsum ys) in
  let mag_z := np_div (Fin (Qsum zs)) (of_int (len self)) in
  let mag :=
    np_div (np_sqrt (np_add (np_add (np_square mag_x) (np_square mag_y))
                            (np_square mag_z)))
           (of_int (len self)) in
  Ok (np_ltb (np_abs mag_z) (Fin 0.1) && np_ltb (Fin 0.9) mag).

(** [np.sum([1 for n in range(self.len) if cond(spins[n][2])])] *)
Definition count_z (self : t) (spins : list vec3) (cond : Q -> bool)
  : res Z :=
  zs <- per_atom self spins vz ;;
  Ok (Z.of_nat (length (filter cond zs))).

Definition is_xyz_aligned (self : t) (spins : list vec3)
  : res (bool * bool) :=
  cz <- count_z self spins (fun z => Qltb 0.95 (Qabs z)) ;;
  let counter_z := np_div (of_int cz) (of_int (len self)) in
  cxy <- count_z self spins (fun z => Qltb (Qabs z) 0.05) ;;
  let counter_xy := np_div (of_int cxy) (of_int (len self)) in
  let is_z_aligned := np_ltb (Fin 0.7) counter_z in
  let is_xy_aligned := np_ltb (Fin 0.8) counter_xy in
  Ok (is_z_aligned, is_xy_aligned).

(** [np.sum([spin_n.dot(spins[m]) for m in self.vecinos[n]])
     / len(self.vecinos[n])], where [spin_n] is the expression evaluated for
    each [m]: a variable in [is_local_ferro_antiferro], [spins[n]] in
    [is_random]. *)
Definition neighbour_mean (self : t) (spins : list vec3) (n : Z)
  (spin_n : res vec3) : res npfloat :=
  row <- np_get (vecinos self) n ;;
  ds <- map_res (fun m => u <- spin_n ;; s <- np_get spins m ;; Ok (dot u s))
                row ;;
  row' <- np_get (vecinos self) n ;;
  Ok (np_div (Fin (Qsum ds)) (of_int (Z.of_nat (length row')))).

Definition is_local_ferro_antiferro (self : t) (spins : list vec3)
  : res (bool * bool) :=
  ' (counter_ferro, counter_antiferro) <-
    for_each
      (fun n (c : Z * Z) =>
         spin_n <- np_get spins n ;;
         m_value <- neighbour_mean self spins n (Ok spin_n) ;;
         if np_ltb (Fin 0.99) m_value then Ok (fst c + 1, snd c)%Z
         else if np_ltb m_value (Fin (-0.99)) then Ok (fst c, snd c + 1)%Z
         else Ok c)
      (range (len self)) (0, 0)%Z ;;
  f <- py_truediv counter_ferro (len self) ;;
  let is_ferro := Qltb 0.65 f in
  a <- py_truediv counter_antiferro (len self) ;;
  let is_antiferro := Qltb 0.65 a in
  Ok (is_ferro, is_antiferro).

Definition spin_up : vec3 := (0, 0, 1).
Definition spin_down : vec3 := (0, 0, -1).

(** The [for] loop of [domain_wall_ferro_z_align] over the remaining
    indices, with its [return True] inside. *)
Fixpoint domain_wall_scan (self : t) (spins : list vec3) (idx : list Z)
  (min_up min_down : Q) : res bool :=
  match idx with
  | [] => Ok false
  | i :: rest =>
      l <- np_get (sublattice self) i ;;
      if (l =? 1)%Z then
        spin_i <- np_get spins i ;;
        let min_up' := py_min min_up (dot spin_up spin_i) in
        let min_down' := py_min min_down (dot spin_down spin_i) in
        if Qltb min_up' (-0.9) && Qltb min_down' (-0.9) then Ok true
        else domain_wall_scan self spins rest min_up' min_down'
      else domain_wall_scan self spins rest min_up min_down
  end.

Definition domain_wall_ferro_z_align (self : t) (spins : list vec3)
  : res bool :=
  domain_wall_scan self spins (range (len self)) 1 1.

Definition is_random (self : t) (spins : list vec3) : res bool :=
  ms <- map_res (fun n => neighbour_mean self spins n (np_get spins n))
                (range (len self)) ;;
  let dot_value := np_sum ms in
  Ok (np_ltb (np_abs dot_value) (Fin 0.01)).

(** State of the scan of [is_conical]. *)
Record conical_state : Type := mk_conical {
  rotation_vec : vec3;
  traslation_vec : vec3;
  count : Z
}.

(** The body of [for j in self.vecinos[i]]. *)
Definition conical_pair (self : t) (spins : list vec3)
  (spin_i position_i : vec3) (j : Z) (st : conical_state)
  : res conical_state :=
  spin_j <- np_get spins j ;;
  let cross_vec := cross spin_i spin_j in
  let mag_cross := np_sqrt (Fin (dot cross_vec cross_vec)) in
  let cross_vec :=
    if Qltb (dot cross_vec (rotation_vec st)) 0 then vscale (-1) cross_vec
    else cross_vec in
  if np_ltb (Fin 0.01) mag_cross then
    Ok (mk_conical (vadd (rotation_vec st) cross_vec) (traslation_vec st)
                   (count st + 1))
  else
    position_j <- np_get (positions self) j ;;
    let r_vec := vsub position_i position_j in
    let r_vec := if Qltb (vy r_vec) 0 then vscale (-1) r_vec else r_vec in
    Ok (mk_conical (rotation_vec st) (vadd (traslation_vec st) r_vec)
                   (count st)).

(** The body of [for i, (spin_i, position_i) in enumerate(zip(...))]. *)
Definition conical_atom (self : t) (spins : list vec3)
  (isp : Z * (vec3 * vec3)) (st : conical_state) : res conical_state :=
  let '(i, (spin_i, position_i)) := isp in
  row <- np_get (vecinos self) i ;;
  for_each (conical_pair self spins spin_i position_i) row st.

(** [np.abs(spin_i.dot(rotation_vec))] for a normalised [rotation_vec] *)
Definition abs_dot (r : npfloat * npfloat * npfloat) (spin_i : vec3)
  : npfloat :=
  let '(rx, ry, rz) := r in
  np_abs (np_add (np_add (np_mul (Fin (vx spin_i)) rx)
                         (np_mul (Fin (vy spin_i)) ry))
                 (np_mul (Fin (vz spin_i)) rz)).

(** [rotation_vec /= rotation_mag] *)
Definition normalise (v : vec3) : npfloat * npfloat * npfloat :=
  let rotation_mag := np_sqrt (Fin (dot v v)) in
  (np_div (Fin (vx v)) rotation_mag,
   np_div (Fin (vy v)) rotation_mag,
   np_div (Fin (vz v)) rotation_mag).

Definition is_conical (self : t) (spins : list vec3) : res (bool * bool) :=
  st <- for_each (conical_atom self spins)
                 (enumerate (combine spins (positions self)))
                 (mk_conical (0, 0, 0) (0, 0, 0) 0) ;;
  ' (mean_dot_value, max_dot_value) <-
    (if negb (count st =? 0)%Z then
       let r := normalise (rotation_vec st) in
       let mean := np_div (np_sum (map (abs_dot r) spins))
                          (of_int (count st)) in
       mx <- np_amax (map (abs_dot r) spins) ;;
       Ok (mean, mx)
     else Ok (PInf, PInf)) ;;
  let is_locally_conical := np_ltb mean_dot_value (Fin 0.1) in
  let is_globally_conical := np_ltb max_dot_value (Fin 0.1) in
  Ok (is_locally_conical, is_globally_conical).

(** The reading of the specification, to compare with [is_conical]: the same
    scan and the same normalised axis, but the mean of
    [|S_i . rotation_vec|] is taken over the atoms, that is, the sum is
    divided by the number of atoms. *)
Definition is_conical_mean_over_atoms (self : t) (spins : list vec3)
  : res (bool * bool) :=
  st <- for_each (conical_atom self spins)
                 (enumerate (combine spins (positions self)))
                 (mk_conical (0, 0, 0) (0, 0, 0) 0) ;;
  ' (mean_dot_value, max_dot_value) <-
    (if negb (count st =? 0)%Z then
       let r := normalise (rotation_vec st) in
       let mean := np_div (np_sum (map (abs_dot r) spins))
                          (of_int (Z.of_nat (length spins))) in
       mx <- np_amax (map (abs_dot r) spins) ;;
       Ok (mean, mx)
     else Ok (PInf, PInf)) ;;
  Ok (np_ltb mean_dot_value (Fin 0.1), np_ltb max_dot_value (Fin 0.1)).

(** *** The colour tables *)

Definition cyan : color := rgb 113 255 240.
Definition light_green : color := rgb 194 255 113.
Definition lavender : color := rgb 177 113 255.
Definition light_red : color := rgb 255 113 113.
Definition yellow : color := rgb 255 231 113.
Definition green : color := rgb 113 255 133.
Definition pink : color := rgb 255 113 180.
Definition dark_sky_blue : color := rgb 113 193 255.
Definition wall_ferro : color := rgb 255 150 113.
Definition wall_antiferro : color := rgb 50 194 78.
Definition black : color := (0, 0, 0).
Definition white : color := rgb 255 255 255.

Definition data_ferro_and_align_with_domain_walls (self : t)
  (spins : list vec3) : res color :=
  ' (is_ferro_local, is_antiferro_local) <-
    is_local_ferro_antiferro self spins ;;
  ' (is_z_aligned, is_xy_aligned) <- is_xyz_aligned self spins ;;
  domain_wall <- domain_wall_ferro_z_align self spins ;;
  is_ferro_in_z <- is_ferro_z_aligned self spins ;;
  is_ferro_in_xy <- is_ferro_xy_aligned self spins ;;
  is_antiferro_in_z <- is_antiferro_z_aligned self spins ;;
  is_antiferro_in_xy <- is_antiferro_xy_aligned self spins ;;
  is_random <- is_random self spins ;;
  Ok (if is_antiferro_local && negb is_z_aligned && negb is_xy_aligned
      then cyan
      else if is_z_aligned && negb is_ferro_local && negb is_antiferro_local
      then light_green
      else if is_xy_aligned && negb is_ferro_local && negb is_antiferro_local
      then lavender
      else if is_ferro_local && negb is_z_aligned && negb is_xy_aligned
      then light_red
      else if is_ferro_in_z then yellow
      else if is_antiferro_in_z then green
      else if is_ferro_in_xy then pink
      else if is_antiferro_in_xy then dark_sky_blue
      else if is_ferro_local && is_z_aligned && domain_wall then wall_ferro
      else if is_antiferro_local && is_z_aligned && domain_wall
      then wall_antiferro
      else if is_random then black
      else white).

Definition data_ferro_spiral_skyrmions (self : t) (spins : list vec3)
  : res color :=
  is_ferro_in_z <- is_ferro_z_aligned self spins ;;
  is_ferro_in_xy <- is_ferro_xy_aligned self spins ;;
  is_antiferro_in_z <- is_antiferro_z_aligned self spins ;;
  is_antiferro_in_xy <- is_antiferro_xy_aligned self spins ;;
  ' (is_locally_conical, is_globally_conical) <- is_conical self spins ;;
  Ok (if is_ferro_in_z then yellow
      else if is_antiferro_in_z then green
      else if is_ferro_in_xy then pink
      else if is_antiferro_in_xy then dark_sky_blue
      else if is_globally_conical then lavender
      else if is_locally_conical then light_red
      else white).

End Predicates.

(** The reference reading of [domain_wall_ferro_z_align]: some atom of the
    sublattice +1 has [S.z > 0.9] and some atom of it has [S.z < -0.9]. *)
Definition is_up (p : Z * vec3) : bool :=
  (fst p =? 1)%Z && Qltb 0.9 (vz (snd p)).

Definition is_down (p : Z * vec3) : bool :=
  (fst p =? 1)%Z && Qltb (vz (snd p)) (-0.9).

Definition domain_wall_reference (labels : list Z) (spins : list vec3)
  : bool :=
  existsb is_down (combine labels spins)
  && existsb is_up (combine labels spins).

(** A valid bound context for a spin array: [len > 0] atoms, every array of
    that length, every neighbour index one that numpy accepts. *)
Definition in_range (n : nat) (v : Z) : Prop :=
  (- Z.of_nat n <= v < Z.of_nat n)%Z.

Definition well_formed (self : t) (spins : list vec3) : Prop :=
  (0 < len self)%Z /\
  length spins = Z.to_nat (len self) /\
  length (sublattice self) = Z.to_nat (len self) /\
  length (positions self) = Z.to_nat (len self) /\
  length (vecinos self) = Z.to_nat (len self) /\
  Forall (Forall (in_range (Z.to_nat (len self)))) (vecinos self).

(** An ordered rule table: the colour of the first rule that holds. *)
Fixpoint first_match (rules : list (bool * color)) (fallback : color)
  : color :=
  match rules with
  | [] => fallback
  | (b, c) :: rules' => if b then c else first_match rules' fallback
  end.

Definition domain_wall_colors : list color :=
  [cyan; light_green; lavender; light_red; yellow; green; pink;
   dark_sky_blue; wall_ferro; wall_antiferro; black; white].

Definition spiral_colors : list color :=
  [yellow; green; pink; dark_sky_blue; lavender; light_red; white].

(** The perfect configurations: every spin along +z, and every spin along
    its sublattice label times +z. *)
Definition ferro_configuration (n : nat) : list vec3 := repeat (0, 0, 1) n.

Definition neel_configuration (labels : list Z) : list vec3 :=
  map (fun l => vscale (inject_Z l) (0, 0, 1)) labels.

Definition Zsum (l : list Z) : Z := fold_left Z.add l 0%Z.

End Criteria.

(** ** DataManager (src/source/data_manager.py) *)

Module DataManager.

Record t : Type := mk {
  path_manager : PathManager.t;
  var1_list : list float;
  var2_list : list float;
  data : list (list color);
  criteria : Criteria.t
}.

(** [DataManager.__init__] *)
Definition init (pm : PathManager.t) (first second : list float) : t :=
  {| path_manager := pm; var1_list := first; var2_list := second;
     data := repeat (repeat (0, 0, 0) (length second)) (length first);
     criteria := Criteria.init |}.

Section Sweep.

Variable fs : Lattice.file_system.

(** The callable given to [set_data]: a method bound to [self.criteria], which
    reads the context at the time of the call, or any function of the spins. *)
Variable function : Criteria.t -> list vec3 -> res color.

(** The body of the inner loop of [set_data]. *)
Definition set_cell (j : Z) (var1 : float) (kv : Z * float) (self : t)
  : res t :=
  let '(k, var2) := kv in
  let lattice := Lattice.init in
  let structure := PathManager.structure (path_manager self) in
  let file :=
    (PathManager.get_file_path (path_manager self) EmptyString var1 var2
     ++ "_spin")%string in
  ' (lattice, _) <- Lattice.load_files fs lattice structure file ;;
  ' (lattice, crit) <-
    (if (Criteria.len (criteria self) =? 0)%Z then
       lattice <- Lattice.set_sublattice lattice ;;
       Ok (lattice,
           Criteria.set_values (criteria self) (Lattice.n_atoms lattice)
             (Lattice.vecinos lattice) (Lattice.sublattice lattice)
             (Lattice.position lattice))
     else Ok (lattice, criteria self)) ;;
  c <- function crit (Lattice.spins lattice) ;;
  row <- np_get (data self) j ;;
  row <- np_set row k c ;;
  data' <- np_set (data self) j row ;;
  Ok {| path_manager := path_manager self; var1_list := var1_list self;
        var2_list := var2_list self; data := data'; criteria := crit |}.

(** [DataManager.set_data] *)
Definition set_data (self : t) : res t :=
  for_each (fun (jv : Z * float) (self' : t) =>
              for_each (set_cell (fst jv) (snd jv))
                       (enumerate (var2_list self)) self')
           (enumerate (var1_list self)) self.

(** One cell of the grid, with its two indices and its two variables. *)
Definition step (cell : (Z * float) * (Z * float)) (self : t) : res t :=
  set_cell (fst (fst cell)) (snd (fst cell)) (snd cell) self.

(** The lattice that [set_cell] loads for the variables of a cell. *)
Definition cell_lattice (pm : PathManager.t) (var1 var2 : float)
  : res (Lattice.t * Lattice.report) :=
  Lattice.load_files fs Lattice.init (PathManager.structure pm)
    (PathManager.get_file_path pm EmptyString var1 var2 ++ "_spin")%string.

End Sweep.

(** The context that the sweep binds from a labelled lattice. *)
Definition context_of (lat : Lattice.t) : Criteria.t :=
  Criteria.mk (Lattice.n_atoms lat) (Lattice.vecinos lat)
              (Lattice.sublattice lat) (Lattice.position lat).

(** The cells of the grid in the order of the two loops. *)
Definition cells (self : t) : list ((Z * float) * (Z * float)) :=
  list_prod (enumerate (var1_list self)) (enumerate (var2_list self)).

Definition cell_index (cell : (Z * float) * (Z * float)) : Z * Z :=
  (fst (fst cell), fst (snd cell)).

(** [data[j][k]] *)
Definition data_at (d : list (list color)) (j k : Z) : res color :=
  row <- np_get d j ;; np_get row k.

(** A cell is classified in the context [ctx]: the colour stored for it is the
    answer of the classifier on the spins of its own lattice, in [ctx]. *)
Definition classified (fs : Lattice.file_system)
  (function : Criteria.t -> list vec3 -> res color)
  (ctx : Criteria.t) (pm : PathManager.t) (final : t)
  (cell : (Z * float) * (Z * float)) : Prop :=
  exists lat rep c,
    cell_lattice fs pm (snd (fst cell)) (snd (snd cell)) = Ok (lat, rep) /\
    function ctx (Lattice.spins lat) = Ok c /\
    data_at (data final) (fst (fst cell)) (fst (snd cell)) = Ok c.

Definition nonneg_index (cell : (Z * float) * (Z * float)) : Prop :=
  (0 <= fst (fst cell))%Z /\ (0 <= fst (snd cell))%Z.

End DataManager.

(** ** Plotter (src/plot_spins/plotter.py) *)

(** The binary64 value of a Python integer, as numpy takes it when an array
    of floats is multiplied by it: the nearest float, ties to even.  (Python
    raises OverflowError from 2^1024 on; the steps of the model are below.) *)
Definition float_of_int (z : Z) : float :=
  SF2Prim (binary_normalize prec emax z 0 false).

Module Plotter.

Local Open Scope string_scope.

Record t : Type := mk {
  path_manager : PathManager.t;
  var1_list : list float;
  var2_list : list float;
  yticks_step : Z;
  xticks_step : Z;
  data : list (list color)
}.

(** [Plotter.__init__]: [ticks_first] and [ticks_second] are the entries
    ["first"] and ["second"] of [ticks_steps]. *)
Definition init (pm : PathManager.t) (first second : list float)
  (ticks_first ticks_second : Z) : t :=
  {| path_manager := pm; var1_list := first; var2_list := second;
     yticks_step := ticks_first; xticks_step := ticks_second;
     data := repeat (repeat (0, 0, 0) (length second)) (length first) |}.

(** [plotter.data = d] *)
Definition set_data_attribute (self : t) (d : list (list color)) : t :=
  {| path_manager := path_manager self; var1_list := var1_list self;
     var2_list := var2_list self; yticks_step := yticks_step self;
     xticks_step := xticks_step self; data := d |}.

(** [Plotter.same_color] *)
Definition same_color (a b : color) : bool :=
  if Qeq_bool (vx a) (vx b) && Qeq_bool (vy a) (vy b)
     && Qeq_bool (vz a) (vz b)
  then true else false.

(** The lists [x_lines] and [y_lines]: the two abscissas and the two
    ordinates of each segment. *)
Record lines : Type := mk_lines {
  x_lines : list (float * float);
  y_lines : list (float * float)
}.

(** What the calls to [plt] are given. *)
Record figure : Type := mk_figure {
  figsize : Z * Z;
  image : list (list color);
  extent : float * float * float * float;
  xlabel : string;
  ylabel : string;
  xticks : list float;
  yticks : list float;
  segments : list ((float * float) * (float * float));
  saved_as : string
}.

(** [s[1:]] *)
Definition tail_of (s : string) : string :=
  match s with
  | EmptyString => EmptyString
  | String _ s' => s'
  end.

(** [self.data[j][k]] *)
Definition pixel (self : t) (j k : Z) : res color :=
  row <- np_get (data self) j ;; np_get row k.

(** The body of the inner loop of [plot_phase_diagram]. *)
Definition mark_cell (self : t) (dx dy : float) (j : Z) (var1 : float)
  (kv : Z * float) (ls : lines) : res lines :=
  let '(k, var2) := kv in
  ls <-
    (if negb (j =? Z.of_nat (length (var1_list self)) - 1)%Z then
       a <- pixel self j k ;;
       b <- pixel self (j + 1) k ;;
       if negb (same_color a b) then
         Ok (mk_lines (x_lines ls ++ [((var2 - dx)%float, (var2 + dx)%float)])
                      (y_lines ls ++ [((var1 + dy)%float, (var1 + dy)%float)]))
       else Ok ls
     else Ok ls) ;;
  if negb (k =? Z.of_nat (length (var2_list self)) - 1)%Z then
    a <- pixel self j k ;;
    b <- pixel self j (k + 1) ;;
    if negb (same_color a b) then
      v2 <- np_get (var2_list self) k ;;
      v2' <- np_get (var2_list self) k ;;
      v1 <- np_get (var1_list self) j ;;
      v1' <- np_get (var1_list self) j ;;
      Ok (mk_lines (x_lines ls ++ [((v2 + dx)%float, (v2' + dx)%float)])
                   (y_lines ls ++ [((v1 - dy)%float, (v1' + dy)%float)]))
    else Ok ls
  else Ok ls.

(** The two nested loops over the grid. *)
Definition mark_lines (self : t) (dx dy : float) : res lines :=
  for_each (fun (jv : Z * float) (ls : lines) =>
              for_each (mark_cell self dx dy (fst jv) (snd jv))
                       (enumerate (var2_list self)) ls)
           (enumerate (var1_list self)) (mk_lines [] []).

(** [Plotter.plot_phase_diagram]: the figure that is saved. *)
Definition plot_phase_diagram (self : t) : res figure :=
  b1 <- np_get (var2_list self) 1 ;;
  b0 <- np_get (var2_list self) 0 ;;
  let dx := ((b1 - b0) / 2)%float in
  a1 <- np_get (var1_list self) 1 ;;
  a0 <- np_get (var1_list self) 0 ;;
  let dy := ((a1 - a0) / 2)%float in
  x_lo <- np_get (var2_list self) 0 ;;
  x_hi <- np_get (var2_list self) (-1) ;;
  y_lo <- np_get (var1_list self) 0 ;;
  y_hi <- np_get (var1_list self) (-1) ;;
  let extent := ((x_lo - dx)%float, (x_hi + dx)%float,
                 (y_lo - dy)%float, (y_hi + dy)%float) in
  ls <- mark_lines self dx dy ;;
  let label_x := tail_of (PathManager.var2_name (path_manager self))
                 ++ " [meV]" in
  let label_y := tail_of (PathManager.var1_name (path_manager self))
                 ++ " [meV]" in
  Ok {| figsize := (15, 9)%Z;
        image := rev (data self);
        extent := extent;
        xlabel := label_x;
        ylabel := label_y;
        xticks := map (fun v => (v * float_of_int (xticks_step self))%float)
                      (var2_list self);
        yticks := map (fun v => (v * float_of_int (yticks_step self))%float)
                      (var1_list self);
        segments := combine (x_lines ls) (y_lines ls);
        saved_as := "out.png" |}.

End Plotter.

(** ** GraphMaker (src/plot_spins/graph_maker.py) *)

Module GraphMaker.

(** A [vp.sphere] and a [vp.arrow], with the attributes that the program
    sets. *)
Record sphere : Type := mk_sphere {
  sphere_color : vec3;
  radius : Q;
  sphere_pos : vec3
}.

Record arrow : Type := mk_arrow {
  shaftwidth : Q;
  arrow_color : vec3;
  round : bool;
  arrow_pos : vec3;
  axis : vec3
}.

(** The attributes that [make_canvas] gives to the canvas; [up] is [None]
    while the canvas keeps the one of vpython. *)
Record canvas : Type := mk_canvas {
  width : Z;
  height : Z;
  center : vec3;
  background : vec3;
  autoscale : bool;
  scene_range : Q;
  fov : Q;
  up : option vec3
}.

(** [scene] is [None] for the canvas [vp.canvas()] of [__init__]. *)
Record t : Type := mk {
  lattice : Lattice.t;
  scene : option canvas
}.

Definition color_up : vec3 := (0.9, 0.1, 0.1).
Definition color_down : vec3 := (0.1, 0.9, 0.1).
Definition color_mid : vec3 := (0.9, 0.9, 0.1).

(** [GraphMaker.__init__]: the object and what [load_files] printed. *)
Definition init (fs : Lattice.file_system) (structure_file spin_file : string)
  : res (t * Lattice.report) :=
  ' (lat, rep) <- Lattice.load_files fs Lattice.init structure_file spin_file ;;
  Ok (mk lat None, rep).

(** [GraphMaker.get_vpython_vector] *)
Definition get_vpython_vector (array : vec3) : vec3 :=
  (vx array, vy array, vz array).

(** [GraphMaker.get_spin_color] *)
Definition get_spin_color (spin : vec3) : vec3 :=
  let r := Qabs (vz spin) in
  if Qltb (vz spin) 0
  then vadd (vscale r color_down) (vscale (1 - r) color_mid)
  else vadd (vscale r color_up) (vscale (1 - r) color_mid).

(** [GraphMaker.make_canvas] *)
Definition make_canvas (self : t) (rotate : bool) : t :=
  let center := get_vpython_vector (vscale 0.5 (Lattice.dimensions (lattice self))) in
  mk (lattice self)
     (Some {| width := 2500; height := 1300; center := center;
              background := (1, 1, 0.97);
              autoscale := false;
              scene_range := Lattice.size (lattice self) * 0.38;
              fov := 0.01;
              up := if rotate then Some (1, 0, 0) else None |}).

(** The body of the loop of [plot_spins]. *)
Definition draw_atom (lat : Lattice.t) (sublattice : Z) (i : Z)
  (drawn : list sphere * list arrow) : res (list sphere * list arrow) :=
  l <- np_get (Lattice.sublattice lat) i ;;
  if negb ((sublattice =? 0)%Z || (sublattice =? l)%Z) then Ok drawn
  else
    p <- np_get (Lattice.position lat) i ;;
    let position := get_vpython_vector p in
    s <- np_get (Lattice.spins lat) i ;;
    let direction := get_vpython_vector s in
    let ball := mk_sphere (0.4, 0.2, 0.9) 0.4 position in
    let arrow_size := 7 in
    s' <- np_get (Lattice.spins lat) i ;;
    let color_arrow := get_spin_color s' in
    let arrow := mk_arrow (arrow_size / 10) color_arrow true position
                          (vscale arrow_size direction) in
    Ok (fst drawn ++ [ball], snd drawn ++ [arrow]).

(** [GraphMaker.plot_spins]: the object after the call, and the lists [balls]
    and [arrows]. *)
Definition plot_spins (self : t) (sublattice : Z)
  : res (t * list sphere * list arrow) :=
  lat <- (if negb (sublattice =? 0)%Z
          then Lattice.set_sublattice (lattice self)
          else Ok (lattice self)) ;;
  ' (balls, arrows) <-
    for_each (draw_atom lat sublattice) (range (Lattice.n_atoms lat)) ([], []) ;;
  Ok (mk lat (scene self), balls, arrows).

End GraphMaker.

(** ** Shapes of a lattice *)

Module LatticeShape.

(** The arrays of a lattice are aligned on [n_atoms], which is positive, and
    every atom has three neighbour entries. *)
Definition aligned (lat : Lattice.t) : Prop :=
  (1 <= Lattice.n_atoms lat)%Z /\
  length (Lattice.spins lat) = Z.to_nat (Lattice.n_atoms lat) /\
  length (Lattice.position lat) = Z.to_nat (Lattice.n_atoms lat) /\
  length (Lattice.vecinos lat) = Z.to_nat (Lattice.n_atoms lat) /\
  length (Lattice.sublattice lat) = Z.to_nat (Lattice.n_atoms lat) /\
  Forall (fun row => length row = 3%nat) (Lattice.vecinos lat).

(** Every neighbour entry is an index that numpy accepts. *)
Definition neighbours_in_range (lat : Lattice.t) : Prop :=
  Forall (Forall (Criteria.in_range (Z.to_nat (Lattice.n_atoms lat))))
         (Lattice.vecinos lat).

Definition three_valued (l : Z) : Prop := (l = -1 \/ l = 0 \/ l = 1)%Z.

(** The label arrays that the traversal can reach from [lab]: each write
    gives some atom the opposite of a label that is not 0. *)
Inductive relabel (lab : list Z) : list Z -> Prop :=
| relabel_refl : relabel lab lab
| relabel_step (lab1 lab2 : list Z) (node v l : Z) :
    relabel lab lab1 ->
    np_get lab1 v = Ok l -> l <> 0%Z ->
    np_set lab1 node (- l)%Z = Ok lab2 ->
    relabel lab lab2.

(** The arrays of the traversal have [n] entries and the queue holds valid
    indices. *)
Definition bfs_shape (n : nat) (st : Lattice.bfs_state) : Prop :=
  length (Lattice.labels st) = n /\ length (Lattice.checked st) = n /\
  Forall (Criteria.in_range n) (Lattice.queue st).

(** The neighbour entries of a structure line, once counted from 0. *)
Definition line_neighbours (line : vec3 * (Z * Z * Z)) : list Z :=
  let '(_, (a, b, c)) := line in [a - 1; b - 1; c - 1]%Z.

End LatticeShape.

(** ** Outcomes *)

(** A result that is a value or an [IndexError]. *)
Definition index_only {A : Type} (r : res A) : Prop :=
  (exists a, r = Ok a) \/ r = Raise IndexError.

(** ** Sweeps over one topology *)

Module SweepShape.

(** The context [ctx] is valid for every spin array of [N] atoms. *)
Definition bound_for (N : Z) (ctx : Criteria.t) : Prop :=
  forall spins : list vec3,
    length spins = Z.to_nat N -> Criteria.well_formed ctx spins.

(** The files of every cell of the grid exist, announce [N] atoms and hold
    valid neighbour entries. *)
Definition files_complete (fs : Lattice.file_system) (pm : PathManager.t)
  (first second : list float) (N : Z) : Prop :=
  forall var1 var2, In var1 first -> In var2 second ->
    exists lat,
      DataManager.cell_lattice fs pm var1 var2 = Ok (lat, Lattice.Silent) /\
      Lattice.n_atoms lat = N /\
      LatticeShape.neighbours_in_range lat.

(** The colour grid has one row per first variable and one colour per second
    variable. *)
Definition grid_shape (first second : list float) (d : list (list color))
  : Prop :=
  length d = length first /\
  Forall (fun row : list color => length row = length second) d.

(** The most lines that the cell [i] of a line of [n] cells can add when
    each cell can add [c] lines and each cell but the last one more. *)
Definition inner (n : nat) (c : nat) (i : Z) : nat :=
  (c + if (i =? Z.of_nat n - 1)%Z then 0 else 1)%nat.

(** The number of pairs of adjacent cells of a grid of [n1] lines of [n2]
    cells. *)
Definition adjacent_pairs (n1 n2 : nat) : nat :=
  ((n1 - 1) * n2 + n1 * (n2 - 1))%nat.

(** As many abscissas as ordinates. *)
Definition balanced (ls : Plotter.lines) : Prop :=
  length (Plotter.x_lines ls) = length (Plotter.y_lines ls).

(** What every step of a sweep over complete files keeps. *)
Definition sweep_invariant (pm : PathManager.t) (first second : list float)
  (N : Z) (s : DataManager.t) : Prop :=
  DataManager.path_manager s = pm /\
  grid_shape first second (DataManager.data s) /\
  (Criteria.len (DataManager.criteria s) = 0%Z \/
   bound_for N (DataManager.criteria s)).

End SweepShape.

(** ** What a drawing shows *)

Module Drawing.

(** The atoms of a lattice in the order of the files: position, spin and
    label. *)
Definition atoms (lat : Lattice.t) : list (vec3 * vec3 * Z) :=
  combine (combine (Lattice.position lat) (Lattice.spins lat))
          (Lattice.sublattice lat).

(** The atom is part of the drawing of [sublattice]. *)
Definition shown (sublattice : Z) (a : vec3 * vec3 * Z) : bool :=
  (sublattice =? 0)%Z || (sublattice =? snd a)%Z.

(** The sphere and the arrow of an atom. *)
Definition ball_of (a : vec3 * vec3 * Z) : GraphMaker.sphere :=
  GraphMaker.mk_sphere (0.4, 0.2, 0.9) 0.4 (fst (fst a)).

Definition arrow_of (a : vec3 * vec3 * Z) : GraphMaker.arrow :=
  GraphMaker.mk_arrow (7 / 10) (GraphMaker.get_spin_color (snd (fst a))) true
                      (fst (fst a)) (vscale 7 (snd (fst a))).

End Drawing.

(** ** Example inputs *)

Module Examples.

(** The triangle: three atoms, each a neighbour of the two others. *)
Definition triangle_structure : Lattice.structure_file :=
  Lattice.mk_structure 3 [((0, 0, 0), (2, 3, 3)%Z);
                          ((1, 0, 0), (1, 3, 1)%Z);
                          ((0, 1, 0), (1, 2, 2)%Z)].

Definition triangle_fs : Lattice.file_system :=
  Lattice.mk_fs (fun _ => Some triangle_structure)
                (fun _ => Some [(0, 0, 1); (0, 0, 1); (0, 0, 1)]).

Definition triangle : Lattice.t :=
  match Lattice.load_files triangle_fs Lattice.init "structure" "spins" with
  | Ok (lat, _) => lat
  | _ => Lattice.init
  end.

(** The traversal of the triangle when atom 2 leaves the queue: atoms 0 and 1
    carry +1 and -1; and the traversal after atom 2 is processed. *)
Definition triangle_at_2 : Lattice.bfs_state :=
  Lattice.mk_bfs [1; -1; 0]%Z [true; true; true] [].

Definition triangle_after_2 : Lattice.bfs_state :=
  Lattice.mk_bfs [1; -1; 1]%Z [true; true; true] [].

(** Two atoms, each the only neighbour of the other. *)
Definition pair_structure : Lattice.structure_file :=
  Lattice.mk_structure 2 [((0, 0, 0), (2, 2, 2)%Z); ((1, 0, 0), (1, 1, 1)%Z)].

Definition pair_lattice : Lattice.t :=
  match Lattice.load_files
          (Lattice.mk_fs (fun _ => Some pair_structure)
                         (fun _ => Some [(0, 0, 1); (0, 0, -1)]))
          Lattice.init "structure" "spins" with
  | Ok (lat, _) => lat
  | _ => Lattice.init
  end.

Definition pair_labelled : Lattice.t :=
  Lattice.set_labels pair_lattice [1; -1]%Z.

Definition pair_context : Criteria.t :=
  Criteria.mk 2 [[1; 1; 1]; [0; 0; 0]]%Z [1; -1]%Z [(0, 0, 0); (1, 0, 0)].

(** A lattice of one atom, its own neighbour three times: the labelling
    leaves it with the label -1. *)
Definition single_structure : Lattice.structure_file :=
  Lattice.mk_structure 1 [((0, 0, 0), (1, 1, 1)%Z)].

Definition single_fs : Lattice.file_system :=
  Lattice.mk_fs (fun _ => Some single_structure) (fun _ => Some [(0, 0, 1)]).

Definition single_context : Criteria.t :=
  Criteria.mk 1 [[0; 0; 0]%Z] [(- 1)%Z] [(0, 0, 0)].

(** Four atoms in two pairs of mutual neighbours; on the sublattice +1 one
    spin points up and one down. *)
Definition wall_context : Criteria.t :=
  Criteria.mk 4 [[1; 1; 1]; [0; 0; 0]; [3; 3; 3]; [2; 2; 2]]%Z
              [1; -1; 1; -1]%Z
              [(0, 0, 0); (1, 0, 0); (2, 0, 0); (3, 0, 0)].

Definition wall_spins : list vec3 :=
  [(0, 0, 1); (0, 0, -1); (0, 0, -1); (0, 0, 1)].

(** Four atoms: atoms 0 and 1 are neighbours of each other, with spins along
    x and along y; atoms 2 and 3 are neighbours of each other, with the same
    unit spin (24/25, 0, 7/25). *)
Definition conical_context : Criteria.t :=
  Criteria.mk 4 [[1; 1; 1]; [0; 0; 0]; [3; 3; 3]; [2; 2; 2]]%Z
              [1; -1; 1; -1]%Z
              [(0, 0, 0); (1, 0, 0); (2, 0, 0); (3, 0, 0)].

Definition conical_spins : list vec3 :=
  [(1, 0, 0); (0, 1, 0); (24 # 25, 0, 7 # 25); (24 # 25, 0, 7 # 25)].

(** The dictionary of the example of the specification, and the manager
    built from it. *)
Definition example_names : PathManager.names :=
  PathManager.mk_names "x/" "out" "_DM" "_K" "{:.3f}" "structure" "out.png".

Definition example_manager : PathManager.t :=
  PathManager.mk "x/" "out" "_DM" "_K" 3 "structure" "out.png".

(** The binary64 values nearest to 1.2 and equal to -0.5 *)
Definition v_1_2 : float := 0x1.3333333333333p+0%float.
Definition v_m0_5 : float := (-0x1p-1)%float.

(** The spin files of a sweep over var1 = 0 and var2 = 0, 1. *)
Definition first_spin_path : string := "x//out_DM0.000_K0.000_spin".
Definition second_spin_path : string := "x//out_DM0.000_K1.000_spin".

(** Both spin files of the 1 x 2 grid exist. *)
Definition fs_complete : Lattice.file_system :=
  Lattice.mk_fs
    (fun _ => Some pair_structure)
    (fun p => if String.eqb p first_spin_path
              then Some [(0, 0, 1); (0, 0, 1)]
              else if String.eqb p second_spin_path
                   then Some [(0, 0, 1); (0, 0, -1)]
                   else None).

(** Only the spin file of the first cell exists. *)
Definition fs_first_only : Lattice.file_system :=
  Lattice.mk_fs
    (fun _ => Some pair_structure)
    (fun p => if String.eqb p first_spin_path
              then Some [(0, 0, 1); (0, 0, 1)]
              else None).

(** No spin file exists. *)
Definition fs_no_spins : Lattice.file_system :=
  Lattice.mk_fs (fun _ => Some pair_structure) (fun _ => None).

Definition sweep_1x2 : DataManager.t :=
  DataManager.init example_manager [0%float] [0%float; 1%float].

Definition sweep_1x1 : DataManager.t :=
  DataManager.init example_manager [0%float] [0%float].

Definition sweep_1x2_result : DataManager.t :=
  match DataManager.set_data fs_complete
          (Criteria.data_ferro_spiral_skyrmions sqrt_floor) sweep_1x2 with
  | Ok s => s
  | _ => sweep_1x2
  end.

End Examples.

(** ** Further example inputs *)

Module MoreExamples.

Import Examples.

(** The files of the pair lattice, with one atom line and one spin line more
    than the header announces. *)
Definition pair_fs : Lattice.file_system :=
  Lattice.mk_fs
    (fun _ => Some (Lattice.mk_structure 2
                      [((0, 0, 0), (2, 2, 2)%Z); ((1, 0, 0), (1, 1, 1)%Z);
                       ((5, 5, 5), (9, 9, 9)%Z)]))
    (fun _ => Some [(0, 0, 1); (0, 0, -1); (1, 0, 0)]).

(** A structure file whose header announces no atom. *)
Definition empty_fs : Lattice.file_system :=
  Lattice.mk_fs (fun _ => Some (Lattice.mk_structure 0 []))
                (fun _ => Some []).

(** A plotter over a grid of 2 x 2 values, and a grid of two colours. *)
Definition plotter_2x2 : Plotter.t :=
  Plotter.init example_manager [0%float; 1%float] [0%float; 1%float] 5 5.

Definition two_phases : list (list color) :=
  [[(1, 0, 0); (1, 0, 0)]; [(1, 0, 0); (0, 1, 0)]].

(** The sweep of the 2 x 2 grid over files that all hold the triangle. *)
Definition sweep_2x2_result : DataManager.t :=
  match DataManager.set_data triangle_fs
          (Criteria.data_ferro_spiral_skyrmions sqrt_floor)
          (DataManager.init example_manager [0%float; 1%float]
                            [0%float; 1%float]) with
  | Ok s => s
  | _ => DataManager.init example_manager [] []
  end.

(** The drawing object of the triangle, and the one left by a missing spin
    file. *)
Definition triangle_graph : GraphMaker.t := GraphMaker.mk triangle None.

Definition empty_graph : GraphMaker.t := GraphMaker.mk Lattice.init None.

End MoreExamples.

(** * Properties *)

(** ** The result monad and numpy indexing *)

Lemma bind_Ok {A B : Type} (c : res A) (k : A -> res B) (b : B) :
  bind c k = Ok b -> exists a, c = Ok a /\ k a = Ok b.
Proof.
  destruct c as [a | e | ]; simpl; intros H; try discriminate.
  exists a; split; [reflexivity | exact H].
Qed.

Lemma for_each_app {A S : Type} (f : A -> S -> res S) (xs ys : list A) (s : S) :
  for_each f (xs ++ ys) s = (s' <- for_each f xs s ;; for_each f ys s').
Proof.
  revert s; induction xs as [| x xs IH]; intros s; simpl.
  - reflexivity.
  - destruct (f x s) as [s1 | e | ]; simpl; [apply IH | reflexivity | reflexivity].
Qed.

Lemma norm_index_lt (n : nat) (i : Z) (k : nat) :
  norm_index n i = Some k -> (k < n)%nat.
Proof.
  unfold norm_index.
  destruct ((0 <=? i)%Z && (i <? Z.of_nat n)%Z) eqn:E1.
  - intros H; injection H as <-.
    apply andb_true_iff in E1 as [H1 H2].
    apply Z.leb_le in H1. apply Z.ltb_lt in H2. lia.
  - destruct ((- Z.of_nat n <=? i)%Z && (i <? 0)%Z) eqn:E2; [| discriminate].
    intros H; injection H as <-.
    apply andb_true_iff in E2 as [H1 H2].
    apply Z.leb_le in H1. apply Z.ltb_lt in H2. lia.
Qed.

Lemma norm_index_of_nat (n k : nat) :
  (k < n)%nat -> norm_index n (Z.of_nat k) = Some k.
Proof.
  intros H. unfold norm_index.
  replace ((0 <=? Z.of_nat k)%Z) with true by (symmetry; apply Z.leb_le; lia).
  replace ((Z.of_nat k <? Z.of_nat n)%Z) with true
    by (symmetry; apply Z.ltb_lt; lia).
  simpl. now rewrite Nat2Z.id.
Qed.

Lemma replace_nth_length {A : Type} (k : nat) (x : A) (a : list A) :
  length (replace_nth k x a) = length a.
Proof.
  revert k; induction a as [| y a IH]; intros [| k]; simpl; auto.
Qed.

Lemma nth_error_replace_same {A : Type} (k : nat) (x : A) (a : list A) :
  (k < length a)%nat -> nth_error (replace_nth k x a) k = Some x.
Proof.
  revert k; induction a as [| y a IH]; intros [| k]; simpl; intros H;
    try lia; [reflexivity | apply IH; lia].
Qed.

Lemma nth_error_replace_other {A : Type} (k j : nat) (x : A) (a : list A) :
  j <> k -> nth_error (replace_nth k x a) j = nth_error a j.
Proof.
  revert k j; induction a as [| y a IH]; intros [| k] [| j] H; simpl;
    try reflexivity; try congruence.
  apply IH; congruence.
Qed.

Lemma replace_nth_id {A : Type} (k : nat) (x : A) (a : list A) :
  nth_error a k = Some x -> replace_nth k x a = a.
Proof.
  revert k; induction a as [| y a IH]; intros [| k]; simpl; intros H;
    try discriminate.
  - now injection H as ->.
  - now rewrite IH.
Qed.

Lemma np_set_length {A : Type} (a a' : list A) (i : Z) (x : A) :
  np_set a i x = Ok a' -> length a' = length a.
Proof.
  unfold np_set. destruct (norm_index (length a) i); [| discriminate].
  intros H; injection H as <-. apply replace_nth_length.
Qed.

Lemma np_get_set_same {A : Type} (a a' : list A) (i : Z) (x : A) :
  np_set a i x = Ok a' -> np_get a' i = Ok x.
Proof.
  intros H. pose proof (np_set_length _ _ _ _ H) as L.
  unfold np_set in H. unfold np_get. rewrite L.
  destruct (norm_index (length a) i) as [k |] eqn:E; [| discriminate].
  injection H as <-.
  now rewrite nth_error_replace_same by (eapply norm_index_lt; eassumption).
Qed.

Lemma np_get_set_other {A : Type} (a a' : list A) (i j : Z) (x : A) :
  np_set a i x = Ok a' ->
  norm_index (length a) j <> norm_index (length a) i ->
  np_get a' j = np_get a j.
Proof.
  intros H D. pose proof (np_set_length _ _ _ _ H) as L.
  unfold np_set in H. unfold np_get. rewrite L.
  destruct (norm_index (length a) i) as [k |] eqn:E; [| discriminate].
  injection H as <-.
  destruct (norm_index (length a) j) as [m |]; [| reflexivity].
  rewrite nth_error_replace_other by congruence. reflexivity.
Qed.

Lemma np_set_id {A : Type} (a : list A) (i : Z) (x : A) :
  np_get a i = Ok x -> np_set a i x = Ok a.
Proof.
  unfold np_get, np_set.
  destruct (norm_index (length a) i) as [k |]; [| discriminate].
  destruct (nth_error a k) as [y |] eqn:E; [| discriminate].
  intros H; injection H as ->. now rewrite replace_nth_id.
Qed.

(** ** Sublattice labelling *)

Module LatticeFacts.

Import Lattice Examples.

Lemma visit_labels (node v : Z) (st st' : bfs_state) :
  visit node v st = Ok st' ->
  length (labels st') = length (labels st) /\
  (forall j, norm_index (length (labels st)) j
             <> norm_index (length (labels st)) node ->
             np_get (labels st') j = np_get (labels st) j) /\
  (if labelled (labels st) v
   then np_get (labels st') node = (l <- np_get (labels st) v ;; Ok (- l)%Z)
   else labels st' = labels st).
Proof.
  unfold visit, labelled. intros H.
  apply bind_Ok in H as (l & Hl & H). rewrite Hl. simpl.
  destruct (negb (l =? 0)%Z).
  - apply bind_Ok in H as (lab & Hs & H). injection H as <-. simpl.
    repeat split.
    + eapply np_set_length; eassumption.
    + intros j D. eapply np_get_set_other; eassumption.
    + eapply np_get_set_same; eassumption.
  - apply bind_Ok in H as (c & Hc & H).
    destruct (negb c).
    + apply bind_Ok in H as (chk & Hs & H). injection H as <-. simpl. auto.
    + injection H as <-. auto.
Qed.

Lemma visits_frame (node : Z) (row : list Z) (st st' : bfs_state) :
  for_each (visit node) row st = Ok st' ->
  length (labels st') = length (labels st) /\
  (forall j, norm_index (length (labels st)) j
             <> norm_index (length (labels st)) node ->
             np_get (labels st') j = np_get (labels st) j).
Proof.
  revert st; induction row as [| v row IH]; intros st H; simpl in H.
  - injection H as <-. auto.
  - apply bind_Ok in H as (st1 & H1 & H2).
    apply visit_labels in H1 as (L1 & F1 & _).
    apply IH in H2 as (L2 & F2). rewrite L1 in *. split; [assumption |].
    intros j D. rewrite F2 by assumption. apply F1; assumption.
Qed.

Lemma last_labelled_snoc (lab : list Z) (row : list Z) (v : Z) :
  last_labelled lab (row ++ [v]) =
  if labelled lab v then Some v else last_labelled lab row.
Proof. unfold last_labelled. rewrite rev_unit. reflexivity. Qed.

Lemma visits_last_labelled (node : Z) (row : list Z) (st st' : bfs_state) :
  for_each (visit node) row st = Ok st' ->
  (forall v, In v row ->
             norm_index (length (labels st)) v
             <> norm_index (length (labels st)) node) ->
  np_get (labels st') node =
  match last_labelled (labels st) row with
  | Some v => l <- np_get (labels st) v ;; Ok (- l)%Z
  | None => np_get (labels st) node
  end.
Proof.
  revert st'; induction row as [| v row IH] using rev_ind; intros st' H D.
  - simpl in H. injection H as <-. reflexivity.
  - rewrite for_each_app in H. apply bind_Ok in H as (st1 & H1 & H2).
    simpl in H2. apply bind_Ok in H2 as (st2 & H2 & E). injection E as ->.
    assert (D' : forall w, In w row ->
                 norm_index (length (labels st)) w
                 <> norm_index (length (labels st)) node)
      by (intros w Hw; apply D, in_or_app; auto).
    specialize (IH _ H1 D').
    destruct (visits_frame _ _ _ _ H1) as (L1 & F1).
    assert (Hv : np_get (labels st1) v = np_get (labels st) v)
      by (apply F1, D, in_or_app; simpl; auto).
    apply visit_labels in H2 as (_ & _ & H2).
    rewrite last_labelled_snoc.
    unfold labelled in H2 |- *. rewrite Hv in H2.
    destruct (np_get (labels st) v) as [l | e | ] eqn:Ev; simpl in *.
    + destruct (negb (l =? 0)%Z); [now rewrite Ev | now rewrite H2].
    + now rewrite H2.
    + now rewrite H2.
Qed.

Lemma triangle_vecinos :
  vecinos triangle = [[1; 2; 2]; [0; 2; 0]; [0; 1; 1]]%Z /\
  sublattice triangle = [0; 0; 0]%Z /\ n_atoms triangle = 3%Z.
Proof. vm_compute. auto. Qed.

Lemma triangle_reaches_at_2 :
  (st <- process_node (vecinos triangle) 0
          (mk_bfs [1; 0; 0]%Z [true; false; false] []) ;;
   match queue st with
   | node :: rest =>
       process_node (vecinos triangle) node
         (mk_bfs (labels st) (checked st) rest)
   | [] => Ok st
   end) = Ok (mk_bfs [1; -1; 0]%Z [true; true; true] [2%Z]).
Proof. vm_compute. reflexivity. Qed.

(** C2, as the specification states it, fails: atom 2 of the triangle is
    processed with the labelled neighbours 0, 1, 1 (labels +1, -1, -1); the
    first of them is atom 0, yet atom 2 does not end with the opposite of the
    label of atom 0. *)
Lemma first_labelled_neighbour_does_not_decide :
  exists st',
    process_node (vecinos triangle) 2 triangle_at_2 = Ok st' /\
    np_get (vecinos triangle) 2 = Ok [0; 1; 1]%Z /\
    first_labelled (labels triangle_at_2) [0; 1; 1]%Z = Some 0%Z /\
    np_get (labels triangle_at_2) 0 = Ok 1%Z /\
    np_get (labels st') 2 = Ok 1%Z /\
    np_get (labels st') 2 <> Ok (- 1)%Z.
Proof.
  eexists. vm_compute. repeat split; try reflexivity. discriminate.
Qed.

(** C2 (amended): when atom [node] leaves the queue and is not among its own
    neighbours, its label becomes the opposite of the label of the last
    neighbour, in array order, that carries a label; every labelled
    neighbour overwrites the label in turn.  Without a labelled neighbour the
    label stays as it was. *)
Theorem process_node_last_labelled
  (vec : list (list Z)) (node : Z) (row : list Z) (st st' : bfs_state) :
  np_get vec node = Ok row ->
  process_node vec node st = Ok st' ->
  (forall v, In v row ->
             norm_index (length (labels st)) v
             <> norm_index (length (labels st)) node) ->
  np_get (labels st') node =
  match last_labelled (labels st) row with
  | Some v => l <- np_get (labels st) v ;; Ok (- l)%Z
  | None => np_get (labels st) node
  end.
Proof.
  unfold process_node. intros Hrow H D. rewrite Hrow in H. simpl in H.
  eapply visits_last_labelled; eassumption.
Qed.

Lemma process_node_last_labelled_witness :
  process_node (vecinos triangle) 2 triangle_at_2 = Ok triangle_after_2 /\
  last_labelled (labels triangle_at_2) [0; 1; 1]%Z = Some 1%Z /\
  np_get (labels triangle_after_2) 2 = Ok 1%Z.
Proof.
  split; [vm_compute; reflexivity |]. split; [reflexivity |].
  apply (process_node_last_labelled (vecinos triangle) 2 [0; 1; 1]%Z
           triangle_at_2).
  - vm_compute. reflexivity.
  - vm_compute. reflexivity.
  - intros v [H | [H | [H | []]]]; subst v; vm_compute; discriminate.
Defined.

(** *** Termination of the traversal *)

Lemma unchecked_replace (k : nat) (c : list bool) :
  nth_error c k = Some false ->
  S (unchecked (replace_nth k true c)) = unchecked c.
Proof.
  unfold unchecked. revert k; induction c as [| b c IH]; intros [| k] H;
    simpl in *; try discriminate.
  - injection H as ->. reflexivity.
  - destruct b; simpl; rewrite <- (IH k H); reflexivity.
Qed.

Lemma unchecked_repeat (n : nat) : unchecked (repeat false n) = n.
Proof.
  unfold unchecked. induction n as [| n IH]; simpl; [reflexivity | now rewrite IH].
Qed.

Lemma np_get_no_fuel {A : Type} (a : list A) (i : Z) : np_get a i <> OutOfFuel.
Proof.
  unfold np_get. destruct (norm_index _ _); [| discriminate].
  destruct (nth_error _ _); discriminate.
Qed.

Lemma np_set_no_fuel {A : Type} (a : list A) (i : Z) (x : A) :
  np_set a i x <> OutOfFuel.
Proof. unfold np_set. destruct (norm_index _ _); discriminate. Qed.

Lemma bind_no_fuel {A B : Type} (c : res A) (k : A -> res B) :
  c <> OutOfFuel -> (forall a, k a <> OutOfFuel) -> bind c k <> OutOfFuel.
Proof. destruct c; simpl; auto; discriminate. Qed.

Lemma for_each_no_fuel {A S : Type} (f : A -> S -> res S) (xs : list A) (s : S) :
  (forall x s', f x s' <> OutOfFuel) -> for_each f xs s <> OutOfFuel.
Proof.
  intros F. revert s; induction xs as [| x xs IH]; intros s; simpl.
  - discriminate.
  - apply bind_no_fuel; auto.
Qed.

Lemma visit_no_fuel (node v : Z) (st : bfs_state) : visit node v st <> OutOfFuel.
Proof.
  unfold visit. apply bind_no_fuel; [apply np_get_no_fuel |]. intros l.
  destruct (negb (l =? 0)%Z).
  - apply bind_no_fuel; [apply np_set_no_fuel | discriminate].
  - apply bind_no_fuel; [apply np_get_no_fuel |]. intros c.
    destruct (negb c); [| discriminate].
    apply bind_no_fuel; [apply np_set_no_fuel | discriminate].
Qed.

Lemma process_node_no_fuel (vec : list (list Z)) (node : Z) (st : bfs_state) :
  process_node vec node st <> OutOfFuel.
Proof.
  unfold process_node. apply bind_no_fuel; [apply np_get_no_fuel |].
  intros row. apply for_each_no_fuel. intros; apply visit_no_fuel.
Qed.

Lemma visit_measure (node v : Z) (st st' : bfs_state) :
  visit node v st = Ok st' ->
  (unchecked (checked st') + length (queue st')
   = unchecked (checked st) + length (queue st))%nat.
Proof.
  unfold visit. intros H.
  apply bind_Ok in H as (l & Hl & H).
  destruct (negb (l =? 0)%Z).
  - apply bind_Ok in H as (lab & _ & H). injection H as <-. reflexivity.
  - apply bind_Ok in H as (c & Hc & H).
    destruct c; simpl in H.
    + injection H as <-. reflexivity.
    + apply bind_Ok in H as (chk & Hs & H). injection H as <-. simpl.
      unfold np_get in Hc. unfold np_set in Hs.
      destruct (norm_index (length (checked st)) v) as [k |]; [| discriminate].
      destruct (nth_error (checked st) k) as [b |] eqn:E; [| discriminate].
      injection Hc as ->. injection Hs as <-.
      rewrite length_app. simpl. rewrite <- (unchecked_replace k _ E). lia.
Qed.

Lemma visits_measure (node : Z) (row : list Z) (st st' : bfs_state) :
  for_each (visit node) row st = Ok st' ->
  (unchecked (checked st') + length (queue st')
   = unchecked (checked st) + length (queue st))%nat.
Proof.
  revert st; induction row as [| v row IH]; intros st H; simpl in H.
  - injection H as <-. reflexivity.
  - apply bind_Ok in H as (st1 & H1 & H2).
    rewrite (IH _ H2). eapply visit_measure; eassumption.
Qed.

(** Each iteration of the [while] loop takes one atom out of the queue, and an
    atom enters the queue only when it is marked: the unmarked atoms and the
    queued ones together bound the number of iterations. *)
Lemma bfs_loop_enough_fuel (fuel : nat) (vec : list (list Z)) (st : bfs_state) :
  (unchecked (checked st) + length (queue st) <= fuel)%nat ->
  bfs_loop fuel vec st <> OutOfFuel.
Proof.
  revert st; induction fuel as [| fuel IH]; intros st M;
    destruct st as [lab chk [| node rest]]; simpl in *; try discriminate.
  - lia.
  - destruct (process_node vec node (mk_bfs lab chk rest)) as [st1 | e | ] eqn:E;
      simpl; try discriminate.
    + apply IH. unfold process_node in E.
      apply bind_Ok in E as (row & _ & E).
      apply visits_measure in E. simpl in E. lia.
    + exfalso. eapply process_node_no_fuel; eassumption.
Qed.

(** [set_sublattice] returns or raises: its loop is given enough fuel. *)
Theorem set_sublattice_terminates (lat : t) : set_sublattice lat <> OutOfFuel.
Proof.
  unfold set_sublattice.
  destruct (n_atoms lat <? 0)%Z; [discriminate |].
  apply bind_no_fuel; [apply np_set_no_fuel |]. intros lab.
  destruct (np_set (repeat false (Z.to_nat (n_atoms lat))) 0 true)
    as [chk | e | ] eqn:E; simpl; try discriminate.
  - apply bind_no_fuel; [| discriminate].
    apply bfs_loop_enough_fuel. simpl.
    unfold np_set in E. rewrite repeat_length in E.
    destruct (norm_index (Z.to_nat (n_atoms lat)) 0) as [k |] eqn:N;
      [| discriminate].
    injection E as <-.
    pose proof (norm_index_lt _ _ _ N) as Hk.
    assert (Hn : nth_error (repeat false (Z.to_nat (n_atoms lat))) k = Some false).
    { rewrite nth_error_repeat; [reflexivity | assumption]. }
    pose proof (unchecked_replace k _ Hn) as U.
    rewrite unchecked_repeat in U. lia.
  - exfalso. eapply np_set_no_fuel; eassumption.
Qed.

(** *** A second run *)

(** C8, as the specification states it, fails: on the triangle the first run
    returns the labels +1, -1, +1 and a second run on that lattice returns
    -1, -1, +1. *)
Lemma set_sublattice_twice_differs :
  exists lat1 lat2,
    set_sublattice triangle = Ok lat1 /\
    set_sublattice lat1 = Ok lat2 /\
    sublattice lat1 = [1; -1; 1]%Z /\
    sublattice lat2 = [-1; -1; 1]%Z /\
    sublattice lat2 <> sublattice lat1.
Proof.
  do 2 eexists. vm_compute. repeat split; try reflexivity. discriminate.
Qed.

Lemma visits_all_opposite (row : list Z) (st : bfs_state) :
  np_get (labels st) 0 = Ok 1%Z ->
  (forall v, In v row -> np_get (labels st) v = Ok (- 1)%Z) ->
  for_each (visit 0) row st = Ok st.
Proof.
  intros H0. induction row as [| v row IH]; intros Hrow; simpl.
  - reflexivity.
  - unfold visit at 1. rewrite (Hrow v) by (simpl; auto). simpl.
    rewrite (np_set_id _ _ _ H0). simpl.
    destruct st as [lab chk q]; simpl.
    apply IH. intros w Hw. apply Hrow. simpl; auto.
Qed.

(** C8 (amended): a second run leaves the lattice as the first run produced
    it whenever the first run left atom 0 with the label +1 and every
    neighbour of atom 0 with the label -1. *)
Theorem set_sublattice_idempotent_on_consistent_seed
  (lat0 lat : t) (row : list Z) :
  set_sublattice lat0 = Ok lat ->
  np_get (vecinos lat) 0 = Ok row ->
  np_get (sublattice lat) 0 = Ok 1%Z ->
  (forall v, In v row -> np_get (sublattice lat) v = Ok (- 1)%Z) ->
  set_sublattice lat = Ok lat.
Proof.
  intros First Hrow H0 Hopp.
  assert (N : exists chk, (n_atoms lat <? 0)%Z = false /\
                np_set (repeat false (Z.to_nat (n_atoms lat))) 0 true = Ok chk /\
                exists fuel, Z.to_nat (n_atoms lat) = S fuel).
  { unfold set_sublattice in First.
    destruct (n_atoms lat0 <? 0)%Z eqn:E; [discriminate |].
    apply bind_Ok in First as (lab & _ & First).
    apply bind_Ok in First as (chk & Hc & First).
    apply bind_Ok in First as (st & _ & First).
    injection First as <-. simpl. exists chk. repeat split; try assumption.
    unfold np_set in Hc. rewrite repeat_length in Hc.
    destruct (norm_index (Z.to_nat (n_atoms lat0)) 0) as [k |] eqn:K;
      [| discriminate].
    apply norm_index_lt in K.
    destruct (Z.to_nat (n_atoms lat0)) as [| fuel]; [lia | eauto]. }
  destruct N as (chk & Neg & Hc & fuel & Hf).
  unfold set_sublattice. rewrite Neg, (np_set_id _ _ _ H0). simpl.
  rewrite Hc, Hf. simpl. unfold process_node. rewrite Hrow. simpl.
  rewrite visits_all_opposite by (simpl; assumption). simpl.
  destruct fuel; simpl; destruct lat; reflexivity.
Qed.

Lemma set_sublattice_idempotent_on_consistent_seed_witness :
  set_sublattice pair_lattice = Ok pair_labelled /\
  set_sublattice pair_labelled = Ok pair_labelled.
Proof.
  assert (H : set_sublattice pair_lattice = Ok pair_labelled)
    by (vm_compute; reflexivity).
  split; [exact H |].
  apply (@set_sublattice_idempotent_on_consistent_seed
           pair_lattice pair_labelled [1; 1; 1]%Z H).
  - vm_compute. reflexivity.
  - vm_compute. reflexivity.
  - intros v [E | [E | [E | []]]]; subst v; vm_compute; reflexivity.
Defined.

End LatticeFacts.

(** ** File names *)

Module PathManagerFacts.

Import PathManager Examples.

Local Open Scope string_scope.

Lemma append_assoc (a b c : string) : (a ++ b) ++ c = a ++ b ++ c.
Proof. induction a as [| x a IH]; simpl; [reflexivity | now rewrite IH]. Qed.

Lemma length_append (a b : string) :
  String.length (a ++ b) = (String.length a + String.length b)%nat.
Proof. induction a as [| x a IH]; simpl; [reflexivity | now rewrite IH]. Qed.

Lemma example_formats :
  var_to_str example_manager v_1_2 = "1.200" /\
  var_to_str example_manager v_m0_5 = "-0.500".
Proof. vm_compute. auto. Qed.

(** C5, as the specification states it, fails: with the empty folder that the
    sweep passes, the path has the separator that [get_file_path] puts after
    the folder, and is not ["x/out_DM1.200_K-0.500"]. *)
Lemma example_path_is_not_the_expected_one :
  init example_names = Some example_manager /\
  get_file_path example_manager EmptyString v_1_2 v_m0_5 <> "x/out_DM1.200_K-0.500".
Proof. split; [vm_compute; reflexivity | vm_compute; discriminate]. Qed.

(** No folder gives the path of the specification. *)
Lemma example_path_for_no_folder (folder : string) :
  get_file_path example_manager folder v_1_2 v_m0_5 <> "x/out_DM1.200_K-0.500".
Proof.
  unfold get_file_path. rewrite (proj1 example_formats), (proj2 example_formats).
  simpl. intros H. injection H as H. apply (f_equal String.length) in H.
  rewrite !length_append in H. simpl in H. lia.
Qed.

(** C5 (amended): the path is
    [<dir><folder>/<prefix><tag1><formatted var1><tag2><formatted var2>]; with
    the values of the example and the empty folder of the sweep it is
    ["x//out_DM1.200_K-0.500"]. *)
Theorem get_file_path_composition :
  (forall (self : t) (folder : string) (var1 var2 : float),
      get_file_path self folder var1 var2 =
      dir_prefix self ++ folder ++ "/" ++ name_prefix self ++
      var1_name self ++ format_fixed (var_format self) var1 ++
      var2_name self ++ format_fixed (var_format self) var2) /\
  init example_names = Some example_manager /\
  get_file_path example_manager EmptyString v_1_2 v_m0_5 = "x//out_DM1.200_K-0.500".
Proof.
  split; [| split; vm_compute; reflexivity].
  intros self folder var1 var2. unfold get_file_path, var_to_str.
  rewrite !append_assoc. reflexivity.
Qed.

End PathManagerFacts.

(** ** Arithmetic and list helpers *)

Lemma Qltb_lt (x y : Q) : Qltb x y = true <-> x < y.
Proof.
  unfold Qltb. rewrite Qlt_alt. destruct (x ?= y); split; congruence.
Qed.

Lemma Qltb_ge (x y : Q) : Qltb x y = false <-> y <= x.
Proof.
  rewrite <- not_true_iff_false, Qltb_lt. split.
  - apply Qnot_lt_le.
  - intros H1 H2. apply (Qlt_irrefl x). eapply Qlt_le_trans; eassumption.
Qed.

Lemma Qltb_compat (x x' y y' : Q) :
  x == x' -> y == y' -> Qltb x y = Qltb x' y'.
Proof.
  intros Hx Hy. destruct (Qltb x' y') eqn:E.
  - apply Qltb_lt. apply Qltb_lt in E. now rewrite Hx, Hy.
  - apply Qltb_ge. apply Qltb_ge in E. now rewrite Hx, Hy.
Qed.

Lemma py_min_below (a b c : Q) :
  Qltb (py_min a b) c = Qltb a c || Qltb b c.
Proof.
  unfold py_min. destruct (Qltb b a) eqn:E.
  - apply Qltb_lt in E. destruct (Qltb b c) eqn:Eb.
    + now rewrite orb_true_r.
    + rewrite orb_false_r. symmetry. apply Qltb_ge. apply Qltb_ge in Eb.
      apply Qlt_le_weak. eapply Qle_lt_trans; eassumption.
  - apply Qltb_ge in E. destruct (Qltb a c) eqn:Ea; [reflexivity |].
    simpl. symmetry. apply Qltb_ge. apply Qltb_ge in Ea.
    eapply Qle_trans; eassumption.
Qed.

Lemma fold_left_Qplus (l : list Q) (a : Q) :
  fold_left Qplus l a == a + Qsum l.
Proof.
  unfold Qsum. revert a; induction l as [| x l IH]; intros a; simpl.
  - ring.
  - rewrite (IH (a + x)), (IH (0 + x)). ring.
Qed.

Lemma Qsum_cons (x : Q) (l : list Q) : Qsum (x :: l) == x + Qsum l.
Proof. unfold Qsum at 1. simpl. rewrite fold_left_Qplus. ring. Qed.

Lemma skipn_nth_error {A : Type} (l : list A) (a : nat) (x : A) :
  nth_error l a = Some x -> skipn a l = x :: skipn (S a) l.
Proof.
  revert a; induction l as [| y l IH]; intros [| a] H; simpl in *;
    try discriminate.
  - now injection H as ->.
  - apply IH, H.
Qed.

Lemma np_get_of_nat {A : Type} (l : list A) (a : nat) (x : A) :
  nth_error l a = Some x -> np_get l (Z.of_nat a) = Ok x.
Proof.
  intros H. unfold np_get. rewrite norm_index_of_nat.
  - now rewrite H.
  - apply nth_error_Some. congruence.
Qed.

Lemma nth_error_combine {A B : Type} (l : list A) (m : list B) (a : nat) :
  nth_error (combine l m) a =
  match nth_error l a, nth_error m a with
  | Some x, Some y => Some (x, y)
  | _, _ => None
  end.
Proof.
  revert m a; induction l as [| x l IH]; intros [| y m] [| a]; simpl;
    try reflexivity.
  - destruct (nth_error l a); reflexivity.
  - apply IH.
Qed.

Lemma nth_error_in_range {A : Type} (l : list A) (a : nat) :
  (a < length l)%nat -> exists x, nth_error l a = Some x.
Proof.
  intros H. destruct (nth_error l a) as [x |] eqn:E; [eauto |].
  apply nth_error_None in E. lia.
Qed.

(** A comprehension over [range(len(l))] that reads [l[n]] is a [map]. *)
Lemma map_res_indices {A B : Type} (l : list A) (g : A -> B) (k a : nat) :
  (a + k = length l)%nat ->
  map_res (fun n => s <- np_get l n ;; Ok (g s)) (map Z.of_nat (seq a k))
  = Ok (map g (skipn a l)).
Proof.
  revert a; induction k as [| k IH]; intros a H; simpl.
  - rewrite skipn_all2 by lia. reflexivity.
  - destruct (nth_error_in_range l a) as [x Hx]; [lia |].
    rewrite (np_get_of_nat _ _ _ Hx). simpl.
    rewrite IH by lia. simpl. now rewrite (skipn_nth_error _ _ _ Hx).
Qed.

Lemma map_res_range {A B : Type} (l : list A) (g : A -> B) (n : Z) :
  length l = Z.to_nat n ->
  map_res (fun i => s <- np_get l i ;; Ok (g s)) (range n) = Ok (map g l).
Proof.
  intros H. unfold range. rewrite <- H.
  now rewrite (map_res_indices l g (length l) 0).
Qed.

Lemma map_res_indices2 {A B C : Type} (l : list A) (m : list B)
  (g : A -> B -> C) (k a : nat) :
  (a + k = length l)%nat -> length m = length l ->
  map_res (fun n => s <- np_get l n ;; t <- np_get m n ;; Ok (g s t))
          (map Z.of_nat (seq a k))
  = Ok (map (fun p => g (fst p) (snd p)) (skipn a (combine l m))).
Proof.
  intros H L. revert a H; induction k as [| k IH]; intros a H; simpl.
  - rewrite skipn_all2; [reflexivity |]. rewrite length_combine. lia.
  - destruct (nth_error_in_range l a) as [x Hx]; [lia |].
    destruct (nth_error_in_range m a) as [y Hy]; [lia |].
    rewrite (np_get_of_nat _ _ _ Hx), (np_get_of_nat _ _ _ Hy). simpl.
    rewrite IH by lia. simpl.
    assert (Hc : nth_error (combine l m) a = Some (x, y))
      by (now rewrite nth_error_combine, Hx, Hy).
    now rewrite (skipn_nth_error _ _ _ Hc).
Qed.

Lemma map_res_range2 {A B C : Type} (l : list A) (m : list B)
  (g : A -> B -> C) (n : Z) :
  length l = Z.to_nat n -> length m = Z.to_nat n ->
  map_res (fun i => s <- np_get l i ;; t <- np_get m i ;; Ok (g s t)) (range n)
  = Ok (map (fun p => g (fst p) (snd p)) (combine l m)).
Proof.
  intros H1 H2. unfold range. rewrite <- H1.
  rewrite (map_res_indices2 l m g (length l) 0); [reflexivity | lia | lia].
Qed.

(** ** The order-parameter predicates *)

Module CriteriaFacts.

Import Criteria Examples.

Lemma per_atom_aligned (self : t) (spins : list vec3) (f : vec3 -> Q) :
  length spins = Z.to_nat (len self) ->
  per_atom self spins f = Ok (map f spins).
Proof. intros H. unfold per_atom. now apply map_res_range. Qed.

Lemma per_atom_staggered_aligned (self : t) (spins : list vec3) (f : vec3 -> Q) :
  length spins = Z.to_nat (len self) ->
  length (sublattice self) = Z.to_nat (len self) ->
  per_atom_staggered self spins f
  = Ok (map (fun p => f (fst p) * inject_Z (snd p))
            (combine spins (sublattice self))).
Proof.
  intros H1 H2. unfold per_atom_staggered.
  now apply (map_res_range2 spins (sublattice self)
               (fun s l => f s * inject_Z l)).
Qed.

Lemma map_res_length {A B : Type} (f : A -> res B) (xs : list A) (ys : list B) :
  map_res f xs = Ok ys -> length ys = length xs.
Proof.
  revert ys; induction xs as [| x xs IH]; intros ys H; simpl in H.
  - now injection H as <-.
  - apply bind_Ok in H as (y & _ & H). apply bind_Ok in H as (ys' & H' & H).
    injection H as <-. simpl. now rewrite (IH _ H').
Qed.

Lemma filter_disjoint_length {A : Type} (p q : A -> bool) (l : list A) :
  (forall x, p x = true -> q x = true -> False) ->
  (length (filter p l) + length (filter q l) <= length l)%nat.
Proof.
  intros D. induction l as [| x l IH]; simpl; [lia |].
  destruct (p x) eqn:P, (q x) eqn:Q0; simpl; try lia.
  exfalso. eapply D; eassumption.
Qed.

(** A fraction [c / n] of atoms exceeds a positive threshold only for a
    positive [n], and then [t * n < c]. *)
Lemma fraction_above (c n : Z) (t : Q) :
  0 < t -> (n <= 0 -> c = 0)%Z ->
  np_ltb (Fin t) (np_div (of_int c) (of_int n)) = true ->
  (0 < n)%Z /\ t * inject_Z n < inject_Z c.
Proof.
  intros Ht Hc. unfold np_div, of_int.
  destruct (Qeq_bool (inject_Z n) 0) eqn:E0.
  - apply Qeq_bool_iff in E0. 
    assert (n = 0)%Z.
    { unfold Qeq in E0. simpl in E0. lia. }
    rewrite Hc by lia. simpl. discriminate.
  - simpl. intros H. apply Qltb_lt in H.
    assert (Hn : ~ inject_Z n == 0).
    { intros E. apply Qeq_bool_iff in E. congruence. }
    destruct (Z_lt_le_dec 0 n) as [P | N].
    + split; [assumption |].
      assert (0 < inject_Z n) by (change 0 with (inject_Z 0); now rewrite <- Zlt_Qlt).
      apply (Qmult_lt_r _ _ (inject_Z n)) in H; [| assumption].
      unfold Qdiv in H. rewrite <- Qmult_assoc, (Qmult_comm (/ _)), Qmult_inv_r in H
        by assumption.
      now rewrite Qmult_1_r in H.
    + exfalso. rewrite Hc in H by assumption.
      unfold Qdiv in H. rewrite Qmult_0_l in H.
      apply (Qlt_irrefl 0). eapply Qlt_trans; eassumption.
Qed.

(** C9: [is_xyz_aligned] never answers [(True, True)]: the atoms with
    [|S.z| > 0.95] and those with [|S.z| < 0.05] are disjoint, so the two
    fractions cannot exceed 0.7 and 0.8 together. *)
Theorem is_xyz_aligned_never_both (self : t) (spins : list vec3) :
  is_xyz_aligned self spins <> Ok (true, true).
Proof.
  unfold is_xyz_aligned, count_z.
  destruct (per_atom self spins vz) as [zs | e | ] eqn:E; simpl; try discriminate.
  intros H. injection H as H1 H2.
  assert (L : length zs = Z.to_nat (len self)).
  { unfold per_atom in E. apply map_res_length in E. rewrite E.
    unfold range. now rewrite length_map, length_seq. }
  pose proof (filter_disjoint_length
                (fun z => Qltb 0.95 (Qabs z)) (fun z => Qltb (Qabs z) 0.05) zs) as D.
  assert (D' : (length (filter (fun z => Qltb 0.95 (Qabs z)) zs)
                + length (filter (fun z => Qltb (Qabs z) 0.05) zs)
                <= length zs)%nat).
  { apply D. intros z Hz1 Hz2. apply Qltb_lt in Hz1, Hz2.
    apply (Qlt_irrefl (Qabs z)). eapply Qlt_trans; [exact Hz2 |].
    eapply Qlt_trans; [| exact Hz1]. reflexivity. }
  clear D.
  set (cz := length (filter (fun z => Qltb 0.95 (Qabs z)) zs)) in *.
  set (cxy := length (filter (fun z => Qltb (Qabs z) 0.05) zs)) in *.
  apply fraction_above in H1; [| reflexivity | lia].
  apply fraction_above in H2; [| reflexivity | lia].
  destruct H1 as [P H1]. destruct H2 as [_ H2].
  assert (B : inject_Z (Z.of_nat cz) + inject_Z (Z.of_nat cxy) <= inject_Z (len self)).
  { rewrite <- inject_Z_plus, <- Zle_Qle. lia. }
  assert (0 < inject_Z (len self))
    by (change 0 with (inject_Z 0); now rewrite <- Zlt_Qlt).
  lra.
Qed.

Lemma is_xyz_aligned_examples :
  is_xyz_aligned pair_context [(0, 0, 1); (0, 0, -1)] = Ok (true, false) /\
  is_xyz_aligned pair_context [(1, 0, 0); (0, 1, 0)] = Ok (false, true) /\
  is_xyz_aligned pair_context [(0, 0, 1); (1, 0, 0)] = Ok (false, false) /\
  is_xyz_aligned init [] = Ok (false, false).
Proof. vm_compute. repeat split; reflexivity. Qed.

(** *** Domain walls *)

Lemma dot_spin_up (s : vec3) : dot spin_up s == vz s.
Proof. unfold dot, spin_up, vx, vy, vz. simpl. ring. Qed.

Lemma dot_spin_down (s : vec3) : dot spin_down s == - vz s.
Proof. unfold dot, spin_down, vx, vy, vz. simpl. ring. Qed.

Lemma below_up (s : vec3) :
  Qltb (dot spin_up s) (-0.9) = Qltb (vz s) (-0.9).
Proof. apply Qltb_compat; [apply dot_spin_up | reflexivity]. Qed.

Lemma below_down (s : vec3) :
  Qltb (dot spin_down s) (-0.9) = Qltb 0.9 (vz s).
Proof.
  destruct (Qltb 0.9 (vz s)) eqn:E.
  - apply Qltb_lt. apply Qltb_lt in E. rewrite dot_spin_down. lra.
  - apply Qltb_ge. apply Qltb_ge in E. rewrite dot_spin_down. lra.
Qed.

(** The scan from atom [a] on, with running minima [min_up] and [min_down]
    that are not both below -0.9 yet. *)
Lemma domain_wall_scan_reference (self : t) (spins : list vec3) (k a : nat)
  (min_up min_down : Q) :
  (a + k = length spins)%nat ->
  length (sublattice self) = length spins ->
  Qltb min_up (-0.9) && Qltb min_down (-0.9) = false ->
  domain_wall_scan self spins (map Z.of_nat (seq a k)) min_up min_down
  = Ok ((Qltb min_up (-0.9)
         || existsb is_down (skipn a (combine (sublattice self) spins)))
        && (Qltb min_down (-0.9)
            || existsb is_up (skipn a (combine (sublattice self) spins)))).
Proof.
  intros H L. revert a min_up min_down H.
  induction k as [| k IH]; intros a mu md H I; simpl.
  - rewrite skipn_all2 by (rewrite length_combine; lia).
    simpl. now rewrite !orb_false_r, I.
  - destruct (nth_error_in_range (sublattice self) a) as [l Hl]; [lia |].
    destruct (nth_error_in_range spins a) as [s Hs]; [lia |].
    assert (Hc : nth_error (combine (sublattice self) spins) a = Some (l, s))
      by (now rewrite nth_error_combine, Hl, Hs).
    rewrite (skipn_nth_error _ _ _ Hc).
    rewrite (np_get_of_nat _ _ _ Hl). simpl.
    unfold is_down at 1, is_up at 1. simpl.
    destruct (l =? 1)%Z eqn:E1; simpl.
    + rewrite (np_get_of_nat _ _ _ Hs). simpl.
      rewrite !py_min_below, below_up, below_down.
      destruct ((Qltb mu (-0.9) || Qltb (vz s) (-0.9))
                && (Qltb md (-0.9) || Qltb 0.9 (vz s))) eqn:E.
      * f_equal. revert E.
        destruct (Qltb mu (-0.9)), (Qltb (vz s) (-0.9)), (Qltb md (-0.9)),
          (Qltb 0.9 (vz s)); simpl; intros E; try discriminate;
          rewrite ?orb_true_r; reflexivity.
      * rewrite IH; [| lia |].
        -- now rewrite !py_min_below, below_up, below_down, !orb_assoc.
        -- now rewrite !py_min_below, below_up, below_down.
    + rewrite IH by (assumption || lia). reflexivity.
Qed.

Lemma domain_wall_is_reference (self : t) (spins : list vec3) :
  length spins = Z.to_nat (len self) ->
  length (sublattice self) = Z.to_nat (len self) ->
  domain_wall_ferro_z_align self spins
  = Ok (domain_wall_reference (sublattice self) spins).
Proof.
  intros H1 H2. unfold domain_wall_ferro_z_align, range. rewrite <- H1.
  rewrite (domain_wall_scan_reference self spins (length spins) 0 1 1);
    [reflexivity | lia | lia | reflexivity].
Qed.

Lemma existsb_pairs (p : Z * vec3 -> bool) (labels : list Z) (spins : list vec3) :
  existsb p (combine labels spins) = true <->
  exists i l s, nth_error labels i = Some l /\ nth_error spins i = Some s
                /\ p (l, s) = true.
Proof.
  rewrite existsb_exists. split.
  - intros ([l s] & Hin & Hp). apply In_nth_error in Hin as [i Hi].
    rewrite nth_error_combine in Hi.
    destruct (nth_error labels i) as [l' |] eqn:El; [| discriminate].
    destruct (nth_error spins i) as [s' |] eqn:Es; [| discriminate].
    injection Hi as -> ->. exists i, l, s. auto.
  - intros (i & l & s & Hl & Hs & Hp). exists (l, s). split; [| assumption].
    apply (nth_error_In _ i). now rewrite nth_error_combine, Hl, Hs.
Qed.

Lemma existsb_up (labels : list Z) (spins : list vec3) :
  existsb is_up (combine labels spins) = true <->
  exists i s, nth_error labels i = Some 1%Z /\ nth_error spins i = Some s
              /\ 0.9 < vz s.
Proof.
  rewrite existsb_pairs. unfold is_up. simpl. split.
  - intros (i & l & s & Hl & Hs & Hp). apply andb_true_iff in Hp as [E Hp].
    apply Z.eqb_eq in E. subst l. apply Qltb_lt in Hp. eauto.
  - intros (i & s & Hl & Hs & Hp). exists i, 1%Z, s. repeat split; auto.
    simpl. now apply Qltb_lt.
Qed.

Lemma existsb_down (labels : list Z) (spins : list vec3) :
  existsb is_down (combine labels spins) = true <->
  exists i s, nth_error labels i = Some 1%Z /\ nth_error spins i = Some s
              /\ vz s < -0.9.
Proof.
  rewrite existsb_pairs. unfold is_down. simpl. split.
  - intros (i & l & s & Hl & Hs & Hp). apply andb_true_iff in Hp as [E Hp].
    apply Z.eqb_eq in E. subst l. apply Qltb_lt in Hp. eauto.
  - intros (i & s & Hl & Hs & Hp). exists i, 1%Z, s. repeat split; auto.
    simpl. now apply Qltb_lt.
Qed.

Lemma domain_wall_reference_iff (labels : list Z) (spins : list vec3) :
  domain_wall_reference labels spins = true <->
  exists i j si sj,
    nth_error labels i = Some 1%Z /\ nth_error spins i = Some si /\
    0.9 < vz si /\
    nth_error labels j = Some 1%Z /\ nth_error spins j = Some sj /\
    vz sj < -0.9.
Proof.
  unfold domain_wall_reference. rewrite andb_true_iff, existsb_up, existsb_down.
  split.
  - intros [(j & sj & Hj) (i & si & Hi)]. exists i, j, si, sj. tauto.
  - intros (i & j & si & sj & H). split; [exists j, sj | exists i, si]; tauto.
Qed.

Lemma existsb_permutation {A : Type} (p : A -> bool) (l l' : list A) :
  Permutation l l' -> existsb p l = existsb p l'.
Proof.
  intros P. destruct (existsb p l') eqn:E.
  - apply existsb_exists in E as (x & Hin & Hp). apply existsb_exists.
    exists x. split; [| assumption].
    eapply Permutation_in; [apply Permutation_sym |]; eassumption.
  - apply not_true_iff_false. intros H.
    apply existsb_exists in H as (x & Hin & Hp).
    apply not_true_iff_false in E. apply E, existsb_exists.
    exists x. split; [| assumption]. eapply Permutation_in; eassumption.
Qed.

Lemma domain_wall_reference_other_atoms (labels : list Z)
  (spins spins' : list vec3) :
  (forall i, nth_error labels i = Some 1%Z ->
             nth_error spins' i = nth_error spins i) ->
  domain_wall_reference labels spins' = domain_wall_reference labels spins.
Proof.
  intros H.
  assert (G : forall a b : list vec3,
             (forall i, nth_error labels i = Some 1%Z ->
                        nth_error a i = nth_error b i) ->
             domain_wall_reference labels a = true ->
             domain_wall_reference labels b = true).
  { intros a b Hab Ha. apply domain_wall_reference_iff in Ha.
    destruct Ha as (i & j & si & sj & Hi & Hsi & Hu & Hj & Hsj & Hd).
    apply domain_wall_reference_iff. exists i, j, si, sj.
    rewrite <- (Hab i Hi), <- (Hab j Hj). tauto. }
  destruct (domain_wall_reference labels spins) eqn:E.
  - apply (G spins spins'); [| assumption]. intros i Hi. symmetry. now apply H.
  - apply not_true_iff_false. intros E'. apply (G spins' spins) in E'.
    + congruence.
    + assumption.
Qed.

(** C10: on aligned arrays [domain_wall_ferro_z_align] answers [True] exactly
    when two atoms of the sublattice +1 exist, one with [S.z > 0.9] and one
    with [S.z < -0.9]; the answer is therefore the same for every order of
    the atoms, and the spins of the atoms with another label play no part. *)
Theorem domain_wall_ferro_z_align_existential (self : t) (spins : list vec3) :
  length spins = Z.to_nat (len self) ->
  length (sublattice self) = Z.to_nat (len self) ->
  (exists b,
      domain_wall_ferro_z_align self spins = Ok b /\
      (b = true <->
       exists i j si sj,
         nth_error (sublattice self) i = Some 1%Z /\
         nth_error spins i = Some si /\ 0.9 < vz si /\
         nth_error (sublattice self) j = Some 1%Z /\
         nth_error spins j = Some sj /\ vz sj < -0.9)) /\
  (forall (self' : t) (spins' : list vec3),
      length spins' = Z.to_nat (len self') ->
      length (sublattice self') = Z.to_nat (len self') ->
      Permutation (combine (sublattice self) spins)
                  (combine (sublattice self') spins') ->
      domain_wall_ferro_z_align self' spins'
      = domain_wall_ferro_z_align self spins) /\
  (forall spins' : list vec3,
      length spins' = length spins ->
      (forall i, nth_error (sublattice self) i = Some 1%Z ->
                 nth_error spins' i = nth_error spins i) ->
      domain_wall_ferro_z_align self spins'
      = domain_wall_ferro_z_align self spins).
Proof.
  intros H1 H2. repeat split.
  - exists (domain_wall_reference (sublattice self) spins).
    split; [now apply domain_wall_is_reference |].
    apply domain_wall_reference_iff.
  - intros self' spins' H1' H2' P.
    rewrite !domain_wall_is_reference by assumption. f_equal.
    unfold domain_wall_reference.
    now rewrite (existsb_permutation is_down _ _ P),
                (existsb_permutation is_up _ _ P).
  - intros spins' L H.
    rewrite !domain_wall_is_reference by congruence. f_equal.
    now apply domain_wall_reference_other_atoms.
Qed.

Lemma domain_wall_ferro_z_align_existential_witness :
  exists b, domain_wall_ferro_z_align wall_context wall_spins = Ok b /\
            (b = true <->
             exists i j si sj,
               nth_error (sublattice wall_context) i = Some 1%Z /\
               nth_error wall_spins i = Some si /\ 0.9 < vz si /\
               nth_error (sublattice wall_context) j = Some 1%Z /\
               nth_error wall_spins j = Some sj /\ vz sj < -0.9).
Proof.
  apply (domain_wall_ferro_z_align_existential wall_context wall_spins);
    reflexivity.
Defined.

Lemma domain_wall_examples :
  domain_wall_ferro_z_align wall_context wall_spins = Ok true /\
  domain_wall_ferro_z_align wall_context
    [(0, 0, -1); (0, 0, 1); (0, 0, 1); (0, 0, 1)] = Ok true /\
  domain_wall_ferro_z_align wall_context
    [(0, 0, 1); (0, 0, -1); (0, 0, 1); (0, 0, -1)] = Ok false /\
  domain_wall_ferro_z_align wall_context [(0, 0, 1)] = Raise IndexError.
Proof. vm_compute. repeat split; reflexivity. Qed.

(** *** Perfect configurations *)

Lemma fold_left_Zadd (l : list Z) (a : Z) :
  fold_left Z.add l a = (a + Zsum l)%Z.
Proof.
  unfold Zsum. revert a; induction l as [| x l IH]; intros a; simpl.
  - lia.
  - rewrite (IH (a + x)%Z), (IH x). lia.
Qed.

Lemma Zsum_cons (x : Z) (l : list Z) : Zsum (x :: l) = (x + Zsum l)%Z.
Proof. unfold Zsum at 1. simpl. apply fold_left_Zadd. Qed.

Lemma sum_ferro (n : nat) :
  Qsum (map vz (ferro_configuration n)) == inject_Z (Z.of_nat n).
Proof.
  induction n as [| n IH].
  - reflexivity.
  - change (ferro_configuration (S n)) with ((0, 0, 1) :: ferro_configuration n).
    simpl map. rewrite Qsum_cons, IH, Nat2Z.inj_succ. unfold Z.succ.
    rewrite inject_Z_plus. unfold vz. simpl. ring.
Qed.

Lemma sum_ferro_staggered (labels : list Z) :
  Qsum (map (fun p => vz (fst p) * inject_Z (snd p))
            (combine (ferro_configuration (length labels)) labels))
  == inject_Z (Zsum labels).
Proof.
  induction labels as [| l labels IH].
  - reflexivity.
  - simpl length.
    change (ferro_configuration (S (length labels)))
      with ((0, 0, 1) :: ferro_configuration (length labels)).
    simpl combine. simpl map. rewrite Qsum_cons, IH, Zsum_cons, inject_Z_plus.
    unfold vz. simpl. ring.
Qed.

Lemma sum_neel (labels : list Z) :
  Qsum (map vz (neel_configuration labels)) == inject_Z (Zsum labels).
Proof.
  induction labels as [| l labels IH].
  - reflexivity.
  - simpl. rewrite Qsum_cons, IH, Zsum_cons, inject_Z_plus.
    unfold vz, vscale. simpl. ring.
Qed.

Lemma sum_neel_staggered (labels : list Z) :
  Forall (fun l => l = 1 \/ l = - 1)%Z labels ->
  Qsum (map (fun p => vz (fst p) * inject_Z (snd p))
            (combine (neel_configuration labels) labels))
  == inject_Z (Z.of_nat (length labels)).
Proof.
  induction 1 as [| l labels Hl _ IH].
  - reflexivity.
  - simpl length. simpl. rewrite Qsum_cons, IH.
    rewrite Zpos_P_of_succ_nat. unfold Z.succ. rewrite inject_Z_plus.
    unfold vz, vscale. simpl.
    destruct Hl as [-> | ->]; ring.
Qed.

(** The test [|sum| / len > 0.99] for a positive [len]. *)
Lemma ratio_test (total : Q) (n : Z) :
  (0 < n)%Z ->
  np_ltb (Fin 0.99) (np_div (Fin (Qabs total)) (of_int n))
  = Qltb (0.99 * inject_Z n) (Qabs total).
Proof.
  intros P. unfold np_div, of_int.
  assert (Hp : 0 < inject_Z n)
    by (change 0 with (inject_Z 0); now rewrite <- Zlt_Qlt).
  destruct (Qeq_bool (inject_Z n) 0) eqn:E.
  - apply Qeq_bool_iff in E. rewrite E in Hp. now apply Qlt_irrefl in Hp.
  - simpl. destruct (Qltb (0.99 * inject_Z n) (Qabs total)) eqn:T.
    + apply Qltb_lt. apply Qltb_lt in T. now apply Qlt_shift_div_l.
    + apply Qltb_ge. apply Qltb_ge in T. now apply Qle_shift_div_r.
Qed.

Lemma single_context_bound :
  exists lat lat1,
    Lattice.load_files single_fs Lattice.init "structure" "spins"
    = Ok (lat, Lattice.Silent) /\
    Lattice.set_sublattice lat = Ok lat1 /\
    set_values init (Lattice.n_atoms lat1) (Lattice.vecinos lat1)
               (Lattice.sublattice lat1) (Lattice.position lat1)
    = single_context.
Proof. do 2 eexists. vm_compute. repeat split; reflexivity. Qed.

(** C7, as the specification states it, fails: in the context of the
    one-atom lattice the perfect ferromagnetic configuration is also found
    antiferromagnetic, and the perfect Neel configuration is also found
    ferromagnetic. *)
Lemma perfect_configurations_not_exclusive :
  is_ferro_z_aligned single_context (ferro_configuration 1) = Ok true /\
  is_antiferro_z_aligned single_context (ferro_configuration 1) = Ok true /\
  is_antiferro_z_aligned single_context
    (neel_configuration (sublattice single_context)) = Ok true /\
  is_ferro_z_aligned single_context
    (neel_configuration (sublattice single_context)) = Ok true.
Proof. vm_compute. repeat split; reflexivity. Qed.

(** C7 (amended): in a context of [len > 0] atoms whose labels are all +1 or
    -1 and sum, in absolute value, to at most [0.99 * len] (a balanced
    labelling sums to 0), the perfect ferromagnetic configuration is
    ferromagnetic and not antiferromagnetic along z, and the perfect Neel
    configuration is antiferromagnetic and not ferromagnetic along z. *)
Theorem perfect_configurations (self : t) :
  (0 < len self)%Z ->
  length (sublattice self) = Z.to_nat (len self) ->
  Forall (fun l => l = 1 \/ l = - 1)%Z (sublattice self) ->
  (100 * Z.abs (Zsum (sublattice self)) <= 99 * len self)%Z ->
  is_ferro_z_aligned self (ferro_configuration (Z.to_nat (len self)))
  = Ok true /\
  is_antiferro_z_aligned self (ferro_configuration (Z.to_nat (len self)))
  = Ok false /\
  is_antiferro_z_aligned self (neel_configuration (sublattice self))
  = Ok true /\
  is_ferro_z_aligned self (neel_configuration (sublattice self))
  = Ok false.
Proof.
  intros P L Hl B.
  assert (Hp : 0 < inject_Z (len self))
    by (change 0 with (inject_Z 0); now rewrite <- Zlt_Qlt).
  assert (Hn : inject_Z (Z.of_nat (length (sublattice self))) == inject_Z (len self))
    by (rewrite L, Z2Nat.id by lia; reflexivity).
  assert (Hb : Qabs (inject_Z (Zsum (sublattice self))) <= 0.99 * inject_Z (len self)).
  { change (Qabs (inject_Z (Zsum (sublattice self))))
      with (inject_Z (Z.abs (Zsum (sublattice self)))).
    apply (Qmult_le_l _ _ 100); [reflexivity |].
    setoid_replace (100 * (0.99 * inject_Z (len self)))
      with (inject_Z 99 * inject_Z (len self)) by ring.
    change 100 with (inject_Z 100).
    rewrite <- !inject_Z_mult, <- Zle_Qle. exact B. }
  assert (Lf : length (ferro_configuration (Z.to_nat (len self)))
               = Z.to_nat (len self)) by apply repeat_length.
  assert (Ln : length (neel_configuration (sublattice self))
               = Z.to_nat (len self))
    by (unfold neel_configuration; now rewrite length_map).
  unfold is_ferro_z_aligned, is_antiferro_z_aligned.
  rewrite !per_atom_aligned, !per_atom_staggered_aligned by assumption.
  cbn [bind]. rewrite !ratio_test by assumption.
  repeat split; f_equal.
  - apply Qltb_lt. rewrite sum_ferro, Z2Nat.id by lia.
    rewrite Qabs_pos by (now apply Qlt_le_weak). lra.
  - apply Qltb_ge. rewrite <- L, sum_ferro_staggered. exact Hb.
  - apply Qltb_lt. rewrite (sum_neel_staggered _ Hl), Hn.
    rewrite Qabs_pos by (now apply Qlt_le_weak). lra.
  - apply Qltb_ge. rewrite sum_neel. exact Hb.
Qed.

Lemma perfect_configurations_witness :
  is_ferro_z_aligned pair_context (ferro_configuration 2) = Ok true /\
  is_antiferro_z_aligned pair_context (ferro_configuration 2) = Ok false /\
  is_antiferro_z_aligned pair_context [(0, 0, 1); (0, 0, -1)] = Ok true /\
  is_ferro_z_aligned pair_context [(0, 0, 1); (0, 0, -1)] = Ok false.
Proof.
  apply (perfect_configurations pair_context).
  - reflexivity.
  - reflexivity.
  - constructor; [left; reflexivity |].
    constructor; [right; reflexivity | constructor].
  - vm_compute. discriminate.
Defined.

(** *** The conical test *)

Lemma conical_scan :
  exists st,
    for_each (conical_atom sqrt_floor conical_context conical_spins)
             (enumerate (combine conical_spins (positions conical_context)))
             (mk_conical (0, 0, 0) (0, 0, 0) 0) = Ok st /\
    count st = 6%Z /\
    normalise sqrt_floor (rotation_vec st) = (Fin (0 # 6), Fin (0 # 6), Fin (6 # 6)).
Proof. eexists. vm_compute. repeat split; reflexivity. Qed.

(** C1 does not hold of the code: [is_conical] divides the sum of
    [|S_i . rotation_vec|] by the number of rotating pairs, not by the number
    of atoms.  On this input the scan counts 6 rotating pairs for 4 atoms,
    the normalised axis is z, and the sum is 14/25.
    [is_conical] divides it by the 6 pairs (0.0933) and answers locally
    conical; divided by the 4 atoms the mean is 0.14, which is not below 0.1.
    The three radicands of the run (0, 1 and 36) are squares, where
    [sqrt_floor] is exact. *)
Theorem is_conical_divides_by_pair_count :
  is_conical sqrt_floor conical_context conical_spins = Ok (true, false) /\
  is_conical_mean_over_atoms sqrt_floor conical_context conical_spins
  = Ok (false, false) /\
  exists total,
    np_sum (map (abs_dot (Fin (0 # 6), Fin (0 # 6), Fin (6 # 6))) conical_spins)
    = Fin total /\
    total == 14 # 25 /\ total / 6 < 0.1 /\ 0.1 <= total / 4.
Proof.
  split; [vm_compute; reflexivity |].
  split; [vm_compute; reflexivity |].
  eexists. split; [vm_compute; reflexivity |].
  repeat split; vm_compute; congruence.
Qed.

(** *** The rule tables are total *)

Lemma np_get_in_range {A : Type} (l : list A) (i : Z) :
  in_range (length l) i -> exists x, np_get l i = Ok x.
Proof.
  unfold in_range, np_get, norm_index. intros [H1 H2].
  destruct (0 <=? i)%Z eqn:E0.
  - apply Z.leb_le in E0.
    replace (i <? Z.of_nat (length l))%Z with true
      by (symmetry; apply Z.ltb_lt; lia).
    simpl. destruct (nth_error_in_range l (Z.to_nat i)) as [x Hx]; [lia |].
    rewrite Hx. eauto.
  - apply Z.leb_gt in E0. simpl.
    replace (- Z.of_nat (length l) <=? i)%Z with true
      by (symmetry; apply Z.leb_le; lia).
    replace (i <? 0)%Z with true by (symmetry; apply Z.ltb_lt; lia).
    simpl.
    destruct (nth_error_in_range l (Z.to_nat (Z.of_nat (length l) + i)))
      as [x Hx]; [lia |].
    rewrite Hx. eauto.
Qed.

Lemma map_res_total {A B : Type} (f : A -> res B) (xs : list A) :
  (forall x, In x xs -> exists y, f x = Ok y) ->
  exists ys, map_res f xs = Ok ys.
Proof.
  induction xs as [| x xs IH]; intros H; simpl.
  - eauto.
  - destruct (H x) as [y Hy]; [simpl; auto |]. rewrite Hy. simpl.
    destruct IH as [ys Hys]; [intros; apply H; simpl; auto |].
    rewrite Hys. simpl. eauto.
Qed.

Lemma for_each_total {A S : Type} (f : A -> S -> res S) (xs : list A) (s : S) :
  (forall x s0, In x xs -> exists s', f x s0 = Ok s') ->
  exists s', for_each f xs s = Ok s'.
Proof.
  revert s; induction xs as [| x xs IH]; intros s H; simpl.
  - eauto.
  - destruct (H x s) as [s1 H1]; [simpl; auto |]. rewrite H1. simpl.
    apply IH. intros; apply H; simpl; auto.
Qed.

Lemma range_bounds (n i : Z) : In i (range n) -> (0 <= i < n)%Z.
Proof.
  unfold range. intros H. apply in_map_iff in H as (k & <- & H).
  apply in_seq in H. lia.
Qed.

Lemma enumerate_bounds {A : Type} (l : list A) (i : Z) (x : A) :
  In (i, x) (enumerate l) -> (0 <= i < Z.of_nat (length l))%Z.
Proof.
  unfold enumerate. intros H. apply in_combine_l in H.
  apply in_map_iff in H as (k & <- & H). apply in_seq in H. lia.
Qed.

Section Total.

Variable sqrt : Q -> Q.
Variable self : t.
Variable spins : list vec3.
Hypothesis WF : well_formed self spins.

Lemma wf_index (i : Z) : (0 <= i < len self)%Z -> in_range (Z.to_nat (len self)) i.
Proof. unfold in_range. lia. Qed.

Lemma wf_spin (i : Z) : in_range (Z.to_nat (len self)) i -> exists s, np_get spins i = Ok s.
Proof.
  destruct WF as (_ & L & _). intros H. apply np_get_in_range.
  now rewrite L.
Qed.

Lemma wf_position (i : Z) :
  in_range (Z.to_nat (len self)) i -> exists p, np_get (positions self) i = Ok p.
Proof.
  destruct WF as (_ & _ & _ & L & _). intros H. apply np_get_in_range.
  now rewrite L.
Qed.

Lemma wf_row (i : Z) :
  in_range (Z.to_nat (len self)) i ->
  exists row, np_get (vecinos self) i = Ok row /\ Forall (in_range (Z.to_nat (len self))) row.
Proof.
  destruct WF as (_ & _ & _ & _ & L & F). intros H.
  destruct (np_get_in_range (vecinos self) i) as [row Hrow];
    [now rewrite L |].
  exists row. split; [assumption |].
  unfold np_get in Hrow.
  destruct (norm_index _ i) as [k |]; [| discriminate].
  destruct (nth_error (vecinos self) k) as [r |] eqn:E; [| discriminate].
  injection Hrow as <-. apply nth_error_In in E.
  rewrite Forall_forall in F. now apply F.
Qed.

Lemma neighbour_mean_total (i : Z) (u : vec3) :
  in_range (Z.to_nat (len self)) i -> exists m, neighbour_mean self spins i (Ok u) = Ok m.
Proof.
  intros H. unfold neighbour_mean.
  destruct (wf_row i H) as (row & Hrow & F). rewrite Hrow. simpl.
  match goal with
  | |- context [map_res ?f row] =>
      destruct (map_res_total f row) as [ds Hds]
  end.
  { intros m Hm. simpl. rewrite Forall_forall in F.
    destruct (wf_spin m (F m Hm)) as [s Hs]. rewrite Hs. simpl. eauto. }
  rewrite Hds. simpl. eauto.
Qed.

Lemma is_local_ferro_antiferro_total :
  exists b, is_local_ferro_antiferro self spins = Ok b.
Proof.
  unfold is_local_ferro_antiferro.
  destruct (for_each_total
              (fun i (c : Z * Z) =>
                 spin_n <- np_get spins i ;;
                 m_value <- neighbour_mean self spins i (Ok spin_n) ;;
                 if np_ltb (Fin 0.99) m_value then Ok (fst c + 1, snd c)%Z
                 else if np_ltb m_value (Fin (-0.99))
                      then Ok (fst c, snd c + 1)%Z else Ok c)
              (range (len self)) (0, 0)%Z) as [[cf ca] Hc].
  { intros i c Hi. apply range_bounds, wf_index in Hi.
    destruct (wf_spin i Hi) as [s Hs]. rewrite Hs. cbn [bind].
    destruct (neighbour_mean_total i s Hi) as [m Hm]. rewrite Hm. cbn [bind].
    destruct (np_ltb (Fin 0.99) m); [eauto |].
    destruct (np_ltb m (Fin (-0.99))); eauto. }
  rewrite Hc. simpl. unfold py_truediv.
  destruct WF as (P & _).
  replace (len self =? 0)%Z with false by (symmetry; apply Z.eqb_neq; lia).
  simpl. eauto.
Qed.

Lemma is_random_total : exists b, is_random self spins = Ok b.
Proof.
  unfold is_random.
  destruct (map_res_total
              (fun i => neighbour_mean self spins i (np_get spins i))
              (range (len self))) as [ms Hms].
  { intros i Hi. apply range_bounds, wf_index in Hi.
    destruct (wf_spin i Hi) as [s Hs]. rewrite Hs.
    now apply neighbour_mean_total. }
  rewrite Hms. simpl. eauto.
Qed.

Lemma is_xyz_aligned_total : exists b, is_xyz_aligned self spins = Ok b.
Proof.
  destruct WF as (_ & L & _).
  unfold is_xyz_aligned, count_z. rewrite !per_atom_aligned by assumption.
  simpl. eauto.
Qed.

Lemma is_ferro_z_aligned_total : exists b, is_ferro_z_aligned self spins = Ok b.
Proof.
  destruct WF as (_ & L & _).
  unfold is_ferro_z_aligned. rewrite per_atom_aligned by assumption.
  simpl. eauto.
Qed.

Lemma is_antiferro_z_aligned_total :
  exists b, is_antiferro_z_aligned self spins = Ok b.
Proof.
  destruct WF as (_ & L & L' & _).
  unfold is_antiferro_z_aligned.
  rewrite per_atom_staggered_aligned by assumption. simpl. eauto.
Qed.

Lemma is_ferro_xy_aligned_total :
  exists b, is_ferro_xy_aligned sqrt self spins = Ok b.
Proof.
  destruct WF as (_ & L & _).
  unfold is_ferro_xy_aligned. rewrite !per_atom_aligned by assumption.
  simpl. eauto.
Qed.

Lemma is_antiferro_xy_aligned_total :
  exists b, is_antiferro_xy_aligned sqrt self spins = Ok b.
Proof.
  destruct WF as (_ & L & L' & _).
  unfold is_antiferro_xy_aligned.
  rewrite !per_atom_staggered_aligned by assumption. simpl. eauto.
Qed.

Lemma conical_pair_total (spin_i position_i : vec3) (j : Z)
  (st : conical_state) :
  in_range (Z.to_nat (len self)) j ->
  exists st', conical_pair sqrt self spins spin_i position_i j st = Ok st'.
Proof.
  intros H. unfold conical_pair.
  destruct (wf_spin j H) as [s Hs]. rewrite Hs. cbn [bind].
  match goal with
  | |- context [if np_ltb (Fin 0.01) ?m then _ else _] =>
      destruct (np_ltb (Fin 0.01) m)
  end; [eauto |].
  destruct (wf_position j H) as [p Hp]. rewrite Hp. cbn [bind]. eauto.
Qed.

Lemma is_conical_total : exists b, is_conical sqrt self spins = Ok b.
Proof.
  unfold is_conical.
  destruct (for_each_total (conical_atom sqrt self spins)
              (enumerate (combine spins (positions self)))
              (mk_conical (0, 0, 0) (0, 0, 0) 0)) as [st Hst].
  { intros [i [s p]] st0 Hi. apply enumerate_bounds in Hi.
    rewrite length_combine in Hi. destruct WF as (_ & L & _ & L' & _).
    rewrite L, L', Nat.min_id in Hi. simpl.
    destruct (wf_row i) as (row & Hrow & F); [unfold in_range; lia |].
    rewrite Hrow. simpl. apply for_each_total.
    intros j st1 Hj. apply conical_pair_total.
    rewrite Forall_forall in F. now apply F. }
  rewrite Hst. simpl.
  destruct (negb (count st =? 0)%Z); simpl; [| eauto].
  destruct WF as (P & L & _).
  destruct spins as [| s0 rest]; [simpl in L; lia |]. simpl. eauto.
Qed.

End Total.

Ltac pick_colour :=
  simpl; repeat (first [left; reflexivity | right]).

Ltac walk_rules :=
  repeat match goal with
         | |- In (if ?b then _ else _) _ => destruct b
         end;
  pick_colour.

(** C4: in a valid bound context both rule tables return one of their
    colours and raise nothing; [data_ferro_spiral_skyrmions] returns the
    colour of the first rule that holds in the order ferro-Z, antiferro-Z,
    ferro-XY, antiferro-XY, globally conical, locally conical, and white when
    none holds. *)
Theorem rule_tables_total (sqrt : Q -> Q) (self : t) (spins : list vec3) :
  well_formed self spins ->
  (exists c,
      data_ferro_and_align_with_domain_walls sqrt self spins = Ok c /\
      In c domain_wall_colors) /\
  (exists fz afz fxy afxy lc gc,
      is_ferro_z_aligned self spins = Ok fz /\
      is_antiferro_z_aligned self spins = Ok afz /\
      is_ferro_xy_aligned sqrt self spins = Ok fxy /\
      is_antiferro_xy_aligned sqrt self spins = Ok afxy /\
      is_conical sqrt self spins = Ok (lc, gc) /\
      data_ferro_spiral_skyrmions sqrt self spins
      = Ok (first_match [(fz, yellow); (afz, green); (fxy, pink);
                         (afxy, dark_sky_blue); (gc, lavender);
                         (lc, light_red)] white) /\
      In (first_match [(fz, yellow); (afz, green); (fxy, pink);
                       (afxy, dark_sky_blue); (gc, lavender);
                       (lc, light_red)] white) spiral_colors).
Proof.
  intros WF.
  destruct (is_local_ferro_antiferro_total self spins WF) as [[fl al] Hl].
  destruct (is_xyz_aligned_total self spins WF) as [[za xya] Hx].
  destruct (is_ferro_z_aligned_total self spins WF) as [fz Hfz].
  destruct (is_antiferro_z_aligned_total self spins WF) as [afz Hafz].
  destruct (is_ferro_xy_aligned_total sqrt self spins WF) as [fxy Hfxy].
  destruct (is_antiferro_xy_aligned_total sqrt self spins WF) as [afxy Hafxy].
  destruct (is_random_total self spins WF) as [rnd Hrnd].
  destruct (is_conical_total sqrt self spins WF) as [[lc gc] Hc].
  assert (Hd := domain_wall_is_reference self spins
                  (proj1 (proj2 WF)) (proj1 (proj2 (proj2 WF)))).
  split.
  - unfold data_ferro_and_align_with_domain_walls.
    rewrite Hl, Hx, Hd, Hfz, Hfxy, Hafz, Hafxy, Hrnd. cbn [bind].
    eexists. split; [reflexivity |]. walk_rules.
  - exists fz, afz, fxy, afxy, lc, gc.
    unfold data_ferro_spiral_skyrmions.
    rewrite Hfz, Hfxy, Hafz, Hafxy, Hc. cbn [bind].
    repeat split; try reflexivity.
    destruct fz, afz, fxy, afxy, gc, lc; pick_colour.
Qed.

Lemma rule_tables_total_witness :
  (exists c,
      data_ferro_and_align_with_domain_walls sqrt_floor pair_context
        [(0, 0, 1); (0, 0, -1)] = Ok c /\
      In c domain_wall_colors) /\
  (exists fz afz fxy afxy lc gc,
      is_ferro_z_aligned pair_context [(0, 0, 1); (0, 0, -1)] = Ok fz /\
      is_antiferro_z_aligned pair_context [(0, 0, 1); (0, 0, -1)] = Ok afz /\
      is_ferro_xy_aligned sqrt_floor pair_context [(0, 0, 1); (0, 0, -1)]
      = Ok fxy /\
      is_antiferro_xy_aligned sqrt_floor pair_context [(0, 0, 1); (0, 0, -1)]
      = Ok afxy /\
      is_conical sqrt_floor pair_context [(0, 0, 1); (0, 0, -1)]
      = Ok (lc, gc) /\
      data_ferro_spiral_skyrmions sqrt_floor pair_context
        [(0, 0, 1); (0, 0, -1)]
      = Ok (first_match [(fz, yellow); (afz, green); (fxy, pink);
                         (afxy, dark_sky_blue); (gc, lavender);
                         (lc, light_red)] white) /\
      In (first_match [(fz, yellow); (afz, green); (fxy, pink);
                       (afxy, dark_sky_blue); (gc, lavender);
                       (lc, light_red)] white) spiral_colors).
Proof.
  apply (rule_tables_total sqrt_floor pair_context [(0, 0, 1); (0, 0, -1)]).
  unfold well_formed. simpl. repeat split; try reflexivity.
  repeat constructor; unfold in_range; simpl; lia.
Defined.

(** The two tables on the perfect configurations of the pair, and on a
    configuration that no rule of the second table matches. *)
Lemma rule_tables_examples :
  data_ferro_spiral_skyrmions sqrt_floor pair_context [(0, 0, 1); (0, 0, 1)]
  = Ok yellow /\
  data_ferro_spiral_skyrmions sqrt_floor pair_context [(0, 0, 1); (0, 0, -1)]
  = Ok green /\
  data_ferro_spiral_skyrmions sqrt_floor pair_context [(1, 0, 0); (1, 0, 0)]
  = Ok pink /\
  data_ferro_spiral_skyrmions sqrt_floor conical_context conical_spins
  = Ok light_red /\
  data_ferro_spiral_skyrmions sqrt_floor pair_context [(0, 0, 0); (0, 0, 0)]
  = Ok white /\
  data_ferro_and_align_with_domain_walls sqrt_floor pair_context
    [(0, 0, 1); (0, 0, 1)] = Ok yellow.
Proof. vm_compute. repeat split; reflexivity. Qed.

End CriteriaFacts.

(** ** The sweep *)

Module DataManagerFacts.

Import DataManager Examples.

(** A missing file is reported and leaves the lattice as it was. *)
Lemma load_files_missing (fs : Lattice.file_system) (self : Lattice.t)
  (structure_path spin_path : string) :
  Lattice.open_structure fs structure_path = None \/
  Lattice.open_spins fs spin_path = None ->
  exists path,
    Lattice.load_files fs self structure_path spin_path
    = Ok (self, Lattice.FileNotFound path).
Proof.
  unfold Lattice.load_files. intros [H | H].
  - rewrite H. eauto.
  - destruct (Lattice.open_structure fs structure_path); rewrite ?H; eauto.
Qed.

(** The labelling of the empty lattice fails at [self.sublattice[0] = 1]. *)
Lemma set_sublattice_empty :
  Lattice.set_sublattice Lattice.init = Raise IndexError.
Proof. reflexivity. Qed.

Lemma for_each_Raise_first {A S : Type} (f : A -> S -> res S) (x : A)
  (xs : list A) (s : S) (e : exn) :
  f x s = Raise e -> for_each f (x :: xs) s = Raise e.
Proof. intros H. simpl. now rewrite H. Qed.

(** C3 fails on the code: when the structure file or the spin file of the
    first cell is absent, [set_data] raises [IndexError], whatever the grid
    and the classifier; the sweep does not go on to the other cells. *)
Theorem set_data_missing_first_file (fs : Lattice.file_system)
  (function : Criteria.t -> list vec3 -> res color) (pm : PathManager.t)
  (var1 : float) (first : list float) (var2 : float) (second : list float) :
  Lattice.open_structure fs (PathManager.structure pm) = None \/
  Lattice.open_spins fs
    (PathManager.get_file_path pm EmptyString var1 var2 ++ "_spin")%string = None ->
  set_data fs function (init pm (var1 :: first) (var2 :: second))
  = Raise IndexError.
Proof.
  intros H. unfold set_data.
  apply for_each_Raise_first. apply for_each_Raise_first.
  unfold set_cell.
  destruct (load_files_missing fs Lattice.init _ _ H) as [path Hp].
  cbn [path_manager init criteria fst snd]. rewrite Hp. reflexivity.
Qed.

(** *** One context for the whole sweep *)

Lemma for_each_map {A B S : Type} (f : B -> S -> res S) (g : A -> B)
  (xs : list A) (s : S) :
  for_each f (map g xs) s = for_each (fun x => f (g x)) xs s.
Proof.
  revert s; induction xs as [| x xs IH]; intros s; simpl; [reflexivity |].
  destruct (f (g x) s); simpl; auto.
Qed.

Lemma for_each_list_prod {A B S : Type} (g : A -> B -> S -> res S)
  (xs : list A) (ys : list B) (s : S) :
  for_each (fun x s' => for_each (g x) ys s') xs s
  = for_each (fun p => g (fst p) (snd p)) (list_prod xs ys) s.
Proof.
  revert s; induction xs as [| x xs IH]; intros s; simpl; [reflexivity |].
  rewrite for_each_app, for_each_map. simpl.
  destruct (for_each (g x) ys s); simpl; auto.
Qed.

Section Sweep.

Variable fs : Lattice.file_system.
Variable function : Criteria.t -> list vec3 -> res color.

Lemma set_data_cells (self : t) :
  set_data fs function self = for_each (step fs function) (cells self) self.
Proof.
  unfold set_data, cells, step.
  now rewrite (for_each_list_prod
                 (fun jv kv => set_cell fs function (fst jv) (snd jv) kv)).
Qed.

Lemma set_sublattice_keeps (lat lat' : Lattice.t) :
  Lattice.set_sublattice lat = Ok lat' ->
  Lattice.spins lat' = Lattice.spins lat /\
  Lattice.n_atoms lat' = Lattice.n_atoms lat /\
  Lattice.vecinos lat' = Lattice.vecinos lat /\
  Lattice.position lat' = Lattice.position lat /\
  (1 <= Lattice.n_atoms lat')%Z.
Proof.
  unfold Lattice.set_sublattice. intros H.
  destruct (Lattice.n_atoms lat <? 0)%Z eqn:E; [discriminate |].
  apply bind_Ok in H as (lab & _ & H).
  apply bind_Ok in H as (chk & Hc & H).
  apply bind_Ok in H as (st & _ & H).
  injection H as <-. simpl. repeat split.
  unfold np_set in Hc. rewrite repeat_length in Hc.
  destruct (norm_index (Z.to_nat (Lattice.n_atoms lat)) 0) as [k |] eqn:K;
    [| discriminate].
  apply norm_index_lt in K. lia.
Qed.

(** What a cell does: it loads its lattice; if no context is bound yet it
    labels that lattice and binds the context from it, else it keeps the
    context; it classifies the spins of its lattice in that context and
    stores the colour. *)
Lemma set_cell_inversion (j : Z) (var1 : float) (k : Z) (var2 : float)
  (self self' : t) :
  set_cell fs function j var1 (k, var2) self = Ok self' ->
  exists lat rep c row row',
    cell_lattice fs (path_manager self) var1 var2 = Ok (lat, rep) /\
    (if (Criteria.len (criteria self) =? 0)%Z
     then exists lat', Lattice.set_sublattice lat = Ok lat' /\
                       criteria self' = context_of lat'
     else criteria self' = criteria self) /\
    function (criteria self') (Lattice.spins lat) = Ok c /\
    path_manager self' = path_manager self /\
    np_get (data self) j = Ok row /\
    np_set row k c = Ok row' /\
    np_set (data self) j row' = Ok (data self').
Proof.
  unfold set_cell, cell_lattice. intros H.
  apply bind_Ok in H as ([lat rep] & Hload & H).
  apply bind_Ok in H as ([lat1 crit] & Hb & H).
  apply bind_Ok in H as (c & Hf & H).
  apply bind_Ok in H as (row & Hrow & H).
  apply bind_Ok in H as (row' & Hset & H).
  apply bind_Ok in H as (d' & Hd & H).
  injection H as <-. simpl.
  exists lat, rep, c, row, row'.
  destruct (Criteria.len (criteria self) =? 0)%Z.
  - apply bind_Ok in Hb as (lat' & Hl & Hb). injection Hb as -> <-.
    destruct (set_sublattice_keeps _ _ Hl) as (Hs & _).
    rewrite Hs in Hf. repeat split; try assumption.
    exists lat1. split; [assumption | reflexivity].
  - injection Hb as -> ->. repeat split; assumption.
Qed.

Lemma norm_index_distinct (n : nat) (i i' : Z) :
  (0 <= i)%Z -> (0 <= i')%Z -> i' <> i -> norm_index n i <> None ->
  norm_index n i' <> norm_index n i.
Proof.
  unfold norm_index. intros P P' D.
  replace (0 <=? i)%Z with true by (symmetry; apply Z.leb_le; lia).
  replace (0 <=? i')%Z with true by (symmetry; apply Z.leb_le; lia).
  replace (i <? 0)%Z with false by (symmetry; apply Z.ltb_ge; lia).
  rewrite andb_false_r. simpl.
  destruct (i <? Z.of_nat n)%Z; [| congruence]. intros _.
  destruct (i' <? Z.of_nat n)%Z; simpl.
  - intros H. injection H as H. lia.
  - replace (i' <? 0)%Z with false by (symmetry; apply Z.ltb_ge; lia).
    rewrite andb_false_r. discriminate.
Qed.

Lemma np_set_in_range {A : Type} (a a' : list A) (i : Z) (x : A) :
  np_set a i x = Ok a' -> norm_index (length a) i <> None.
Proof. unfold np_set. destruct (norm_index (length a) i); congruence. Qed.

(** [data[j][k] = c] writes the cell [(j, k)] and no other. *)
Lemma write_cell (d d' : list (list color)) (j k : Z) (c : color)
  (row row' : list color) :
  np_get d j = Ok row -> np_set row k c = Ok row' -> np_set d j row' = Ok d' ->
  (0 <= j)%Z -> (0 <= k)%Z ->
  data_at d' j k = Ok c /\
  forall j' k', (0 <= j')%Z -> (0 <= k')%Z -> (j', k') <> (j, k) ->
                data_at d' j' k' = data_at d j' k'.
Proof.
  intros Hrow Hset Hd Pj Pk. unfold data_at. split.
  - rewrite (np_get_set_same _ _ _ _ Hd). simpl.
    eapply np_get_set_same; eassumption.
  - intros j' k' Pj' Pk' D. destruct (Z.eq_dec j' j) as [-> | Nj].
    + rewrite (np_get_set_same _ _ _ _ Hd), Hrow. simpl.
      eapply np_get_set_other; [eassumption |].
      apply norm_index_distinct; try assumption; [congruence |].
      eapply np_set_in_range; eassumption.
    + rewrite (np_get_set_other _ _ _ j' _ Hd); [reflexivity |].
      apply norm_index_distinct; try assumption.
      eapply np_set_in_range; eassumption.
Qed.

(** Once a context is bound, the rest of the sweep keeps it. *)
Lemma sweep_bound (cs : list ((Z * float) * (Z * float))) (self self' : t) :
  Criteria.len (criteria self) <> 0%Z ->
  NoDup (map cell_index cs) -> Forall nonneg_index cs ->
  for_each (step fs function) cs self = Ok self' ->
  criteria self' = criteria self /\
  path_manager self' = path_manager self /\
  Forall (classified fs function (criteria self) (path_manager self) self') cs /\
  (forall j k, (0 <= j)%Z -> (0 <= k)%Z -> ~ In (j, k) (map cell_index cs) ->
               data_at (data self') j k = data_at (data self) j k).
Proof.
  revert self; induction cs as [| cell cs IH]; intros self B N P H.
  - simpl in H. injection H as <-. auto.
  - simpl in H. apply bind_Ok in H as (s1 & H1 & H2).
    destruct cell as [[j var1] [k var2]]. unfold step in H1. simpl in H1.
    apply set_cell_inversion in H1
      as (lat & rep & c & row & row' & Hl & Hb & Hf & Hpm & Hr & Hs & Hd).
    apply Z.eqb_neq in B as B'. rewrite B' in Hb.
    inversion N as [| ? ? Nin N']; subst.
    inversion P as [| ? ? [Pj Pk] P']; subst. simpl in Pj, Pk.
    destruct (write_cell _ _ _ _ _ _ _ Hr Hs Hd Pj Pk) as [W F].
    destruct (IH s1) as (C & M & A & R); try assumption; [congruence |].
    rewrite Hb in C, A. rewrite Hpm in M, A.
    repeat split; try assumption.
    + constructor; [| assumption].
      exists lat, rep, c. simpl. repeat split.
      * assumption.
      * now rewrite <- Hb.
      * now rewrite (R j k Pj Pk Nin).
    + intros j' k' Pj' Pk' Nn. simpl in Nn.
      rewrite R by tauto. apply F; try assumption.
      intros E. apply Nn. left. now rewrite E.
Qed.

End Sweep.

Lemma map_fst_combine_same {A B : Type} (a : list A) (b : list B) :
  length a = length b -> map fst (combine a b) = a.
Proof.
  revert b; induction a as [| x a IH]; intros [| y b] H; simpl in *;
    try reflexivity; try discriminate.
  f_equal. apply IH. lia.
Qed.

Lemma enumerate_fst {A : Type} (l : list A) :
  map fst (enumerate l) = map Z.of_nat (seq 0 (length l)).
Proof.
  unfold enumerate. apply map_fst_combine_same.
  now rewrite length_map, length_seq.
Qed.

Lemma NoDup_indices (a n : nat) : NoDup (map Z.of_nat (seq a n)).
Proof.
  revert a; induction n as [| n IH]; intros a; simpl; constructor.
  - intros H. apply in_map_iff in H as (k & E & H). apply in_seq in H. lia.
  - apply IH.
Qed.

Lemma NoDup_cell_index {V W : Type} (e1 : list (Z * V)) (e2 : list (Z * W)) :
  NoDup (map fst e1) -> NoDup (map fst e2) ->
  NoDup (map (fun p : (Z * V) * (Z * W) => (fst (fst p), fst (snd p)))
             (list_prod e1 e2)).
Proof.
  intros N1 N2. induction e1 as [| x e1 IH]; simpl; [constructor |].
  inversion N1 as [| ? ? Nin N1']; subst.
  rewrite map_app, map_map. simpl. apply NoDup_app.
  - clear - N2. induction e2 as [| y e2 IH]; simpl; [constructor |].
    inversion N2 as [| ? ? Nin N2']; subst. constructor; [| now apply IH].
    intros H. apply in_map_iff in H as (z & E & H). injection E as E.
    apply Nin. rewrite <- E. now apply in_map.
  - now apply IH.
  - intros [j k] H1 H2.
    apply in_map_iff in H1 as (y & E1 & _). injection E1 as <- _.
    apply in_map_iff in H2 as ([x' y'] & E2 & H2). simpl in E2.
    injection E2 as E2 _. apply in_prod_iff in H2 as [H2 _].
    apply Nin. rewrite <- E2. now apply in_map.
Qed.

Lemma cells_NoDup (self : t) : NoDup (map cell_index (cells self)).
Proof.
  unfold cells, cell_index. apply NoDup_cell_index;
    rewrite enumerate_fst; apply NoDup_indices.
Qed.

Lemma cells_nonneg (self : t) : Forall nonneg_index (cells self).
Proof.
  apply Forall_forall. intros [[j v1] [k v2]] H. unfold cells in H.
  apply in_prod_iff in H as [H1 H2].
  apply CriteriaFacts.enumerate_bounds in H1, H2. unfold nonneg_index. simpl. lia.
Qed.

(** C6: in a sweep that completes, started without a bound context, the
    context is the one computed from the lattice of the first cell, labelled
    by [set_sublattice]; it is the context at the end of the sweep, it has at
    least one atom, and the colour stored for every cell is the answer of the
    classifier in that same context on the spins of the cell's own lattice. *)
Theorem context_bound_once (fs : Lattice.file_system)
  (function : Criteria.t -> list vec3 -> res color) (self self' : t)
  (cell0 : (Z * float) * (Z * float)) (rest : list ((Z * float) * (Z * float))) :
  Criteria.len (criteria self) = 0%Z ->
  cells self = cell0 :: rest ->
  set_data fs function self = Ok self' ->
  exists lat0 lat1,
    cell_lattice fs (path_manager self) (snd (fst cell0)) (snd (snd cell0))
    = Ok (lat0, Lattice.Silent) /\
    Lattice.set_sublattice lat0 = Ok lat1 /\
    criteria self' = context_of lat1 /\
    (1 <= Criteria.len (criteria self'))%Z /\
    Forall (classified fs function (context_of lat1) (path_manager self) self')
           (cells self).
Proof.
  intros Fresh Hc H. rewrite set_data_cells in H.
  pose proof (cells_NoDup self) as N. pose proof (cells_nonneg self) as P.
  rewrite Hc in H, N, P |- *. simpl in H.
  apply bind_Ok in H as (s1 & H1 & H2).
  destruct cell0 as [[j var1] [k var2]]. unfold step in H1. simpl in H1.
  apply set_cell_inversion in H1
    as (lat & rep & c & row & row' & Hl & Hb & Hf & Hpm & Hr & Hs & Hd).
  rewrite Fresh in Hb. simpl in Hb. destruct Hb as (lat1 & Hlab & Hctx).
  destruct (set_sublattice_keeps _ _ Hlab) as (_ & _ & _ & _ & Hn).
  inversion N as [| ? ? Nin N']; subst.
  inversion P as [| ? ? [Pj Pk] P']; subst. simpl in Pj, Pk.
  destruct (write_cell _ _ _ _ _ _ _ Hr Hs Hd Pj Pk) as [W F].
  destruct (sweep_bound fs function rest s1 self') as (C & M & A & R);
    try assumption.
  { rewrite Hctx. simpl. lia. }
  rewrite Hctx in C, A, Hf. rewrite Hpm in M, A.
  assert (Hrep : rep = Lattice.Silent).
  { destruct rep as [| path]; [reflexivity |]. exfalso.
    unfold cell_lattice, Lattice.load_files in Hl.
    destruct (Lattice.open_structure fs _) as [lines |].
    - destruct (Lattice.open_spins fs _) as [sl |].
      + destruct (Lattice.header_n_atoms lines <? 0)%Z; [discriminate |].
        apply bind_Ok in Hl as ([p1 v1] & _ & Hl).
        apply bind_Ok in Hl as (sp & _ & Hl).
        apply bind_Ok in Hl as (hi & _ & Hl).
        apply bind_Ok in Hl as (lo & _ & Hl). discriminate.
      + injection Hl as <- _. rewrite set_sublattice_empty in Hlab. discriminate.
    - injection Hl as <- _. rewrite set_sublattice_empty in Hlab. discriminate. }
  subst rep. exists lat, lat1. simpl. repeat split; try assumption.
  - rewrite C. simpl. exact Hn.
  - constructor; [| assumption].
    exists lat, Lattice.Silent, c. simpl. repeat split; try assumption.
    now rewrite (R j k Pj Pk Nin).
Qed.

(** *** Example sweeps *)

Lemma sweep_1x2_completes :
  set_data fs_complete (Criteria.data_ferro_spiral_skyrmions sqrt_floor)
           sweep_1x2 = Ok sweep_1x2_result /\
  data sweep_1x2_result = [[Criteria.yellow; Criteria.green]].
Proof. vm_compute. split; reflexivity. Qed.

Lemma set_data_missing_first_file_witness :
  set_data fs_no_spins (Criteria.data_ferro_spiral_skyrmions sqrt_floor)
           sweep_1x1 = Raise IndexError.
Proof.
  apply (set_data_missing_first_file fs_no_spins
           (Criteria.data_ferro_spiral_skyrmions sqrt_floor)
           example_manager 0%float [] 0%float []).
  right. reflexivity.
Defined.

(** A cell whose spin file is absent after the context is bound: the
    classifier receives the empty spin array and raises at [spins[0]]. *)
Lemma set_data_missing_later_file :
  Lattice.load_files fs_first_only Lattice.init "structure" second_spin_path
  = Ok (Lattice.init, Lattice.FileNotFound second_spin_path) /\
  set_data fs_first_only (Criteria.data_ferro_spiral_skyrmions sqrt_floor)
           sweep_1x2 = Raise IndexError /\
  set_data fs_first_only
           (Criteria.data_ferro_and_align_with_domain_walls sqrt_floor)
           sweep_1x2 = Raise IndexError.
Proof. vm_compute. repeat split; reflexivity. Qed.

Lemma context_bound_once_witness :
  exists lat0 lat1,
    cell_lattice fs_complete example_manager 0%float 0%float
    = Ok (lat0, Lattice.Silent) /\
    Lattice.set_sublattice lat0 = Ok lat1 /\
    criteria sweep_1x2_result = context_of lat1 /\
    (1 <= Criteria.len (criteria sweep_1x2_result))%Z /\
    Forall (classified fs_complete
              (Criteria.data_ferro_spiral_skyrmions sqrt_floor)
              (context_of lat1) example_manager
              sweep_1x2_result)
           (cells sweep_1x2).
Proof.
  apply (context_bound_once fs_complete
           (Criteria.data_ferro_spiral_skyrmions sqrt_floor)
           sweep_1x2 sweep_1x2_result
           ((0%Z, 0%float), (0%Z, 0%float)) [((0%Z, 0%float), (1%Z, 1%float))]).
  - reflexivity.
  - reflexivity.
  - vm_compute. reflexivity.
Defined.

End DataManagerFacts.

(** * Further properties *)

(** ** Loading and labelling a lattice *)

Module LatticeMore.

Import Lattice LatticeShape.

Lemma relabel_trans (a b c : list Z) : relabel a b -> relabel b c -> relabel a c.
Proof.
  intros H1 H2. induction H2 as [| lab1 lab2 node v l _ IH Hg Hl Hs].
  - exact H1.
  - eapply relabel_step; eassumption.
Qed.

Lemma visit_relabel (node v : Z) (st st' : bfs_state) :
  visit node v st = Ok st' -> relabel (labels st) (labels st').
Proof.
  unfold visit. intros H. apply bind_Ok in H as (l & Hl & H).
  destruct (l =? 0)%Z eqn:E; simpl in H.
  - apply bind_Ok in H as (c & _ & H). destruct (negb c).
    + apply bind_Ok in H as (chk & _ & H). injection H as <-. apply relabel_refl.
    + injection H as <-. apply relabel_refl.
  - apply bind_Ok in H as (lab & Hs & H). injection H as <-. simpl.
    apply Z.eqb_neq in E.
    eapply relabel_step; [apply relabel_refl | eassumption ..].
Qed.

Lemma visits_relabel (node : Z) (row : list Z) (st st' : bfs_state) :
  for_each (visit node) row st = Ok st' -> relabel (labels st) (labels st').
Proof.
  revert st; induction row as [| v row IH]; intros st H; simpl in H.
  - injection H as <-. apply relabel_refl.
  - apply bind_Ok in H as (st1 & H1 & H2).
    eapply relabel_trans; [eapply visit_relabel | apply IH]; eassumption.
Qed.

Lemma bfs_loop_relabel (fuel : nat) (vec : list (list Z)) (st st' : bfs_state) :
  bfs_loop fuel vec st = Ok st' -> relabel (labels st) (labels st').
Proof.
  revert st; induction fuel as [| fuel IH]; intros [lab chk [| node rest]] H;
    simpl in H; try discriminate.
  - injection H as <-. apply relabel_refl.
  - injection H as <-. apply relabel_refl.
  - apply bind_Ok in H as (st1 & H1 & H2).
    unfold process_node in H1. apply bind_Ok in H1 as (row & _ & H1).
    apply visits_relabel in H1. simpl in H1.
    eapply relabel_trans; [exact H1 | apply IH, H2].
Qed.

(** What a run of [set_sublattice] does to the labels: it seeds atom 0 with
    +1 and then only writes opposites of labels that are not 0. *)
Lemma set_sublattice_relabel (lat lat' : t) :
  set_sublattice lat = Ok lat' ->
  exists seeded, np_set (sublattice lat) 0 1%Z = Ok seeded /\
                 relabel seeded (sublattice lat').
Proof.
  unfold set_sublattice. intros H.
  destruct (n_atoms lat <? 0)%Z; [discriminate |].
  apply bind_Ok in H as (lab & Hs & H).
  apply bind_Ok in H as (chk & _ & H).
  apply bind_Ok in H as (st & Hb & H). injection H as <-. simpl.
  exists lab. split; [assumption |]. apply bfs_loop_relabel in Hb. exact Hb.
Qed.

Lemma relabel_length (a b : list Z) : relabel a b -> length b = length a.
Proof.
  induction 1 as [| lab1 lab2 node v l _ IH _ _ Hs]; [reflexivity |].
  rewrite <- IH. eapply np_set_length; eassumption.
Qed.

Lemma Forall_replace_nth {A : Type} (P : A -> Prop) (k : nat) (x : A)
  (a : list A) :
  Forall P a -> P x -> Forall P (replace_nth k x a).
Proof.
  intros H Hx. revert k; induction H as [| y a Hy Ha IH]; intros [| k]; simpl;
    constructor; auto.
Qed.

Lemma Forall_np_set {A : Type} (P : A -> Prop) (a a' : list A) (i : Z) (x : A) :
  Forall P a -> P x -> np_set a i x = Ok a' -> Forall P a'.
Proof.
  unfold np_set. intros H Hx. destruct (norm_index (length a) i); [| discriminate].
  intros E; injection E as <-. now apply Forall_replace_nth.
Qed.

Lemma Forall_np_get {A : Type} (P : A -> Prop) (a : list A) (i : Z) (x : A) :
  Forall P a -> np_get a i = Ok x -> P x.
Proof.
  unfold np_get. intros H. destruct (norm_index (length a) i) as [k |];
    [| discriminate].
  destruct (nth_error a k) as [y |] eqn:E; [| discriminate].
  intros E'; injection E' as <-. rewrite Forall_forall in H.
  eapply H, nth_error_In, E.
Qed.

Lemma relabel_three_valued (a b : list Z) :
  relabel a b -> Forall three_valued a -> Forall three_valued b.
Proof.
  induction 1 as [| lab1 lab2 node v l _ IH Hg _ Hs]; intros Ha; [assumption |].
  eapply Forall_np_set; [apply IH, Ha | | eassumption].
  pose proof (Forall_np_get _ _ _ _ (IH Ha) Hg) as T.
  unfold three_valued in *. lia.
Qed.

Lemma relabel_keeps_labelled (a b : list Z) (j l : Z) :
  relabel a b -> np_get a j = Ok l -> l <> 0%Z ->
  exists l', np_get b j = Ok l' /\ l' <> 0%Z.
Proof.
  induction 1 as [| lab1 lab2 node v m _ IH Hg Hm Hs]; intros Hj Hl; [eauto |].
  destruct (IH Hj Hl) as (l1 & H1 & N1).
  pose proof (np_set_length _ _ _ _ Hs) as L.
  unfold np_get in H1 |- *. unfold np_set in Hs. rewrite L.
  destruct (norm_index (length lab1) node) as [kn |] eqn:En; [| discriminate].
  injection Hs as <-.
  destruct (norm_index (length lab1) j) as [kj |] eqn:Ej; [| discriminate].
  destruct (Nat.eq_dec kj kn) as [-> | D].
  - rewrite nth_error_replace_same by (eapply norm_index_lt; eassumption).
    exists (- m)%Z. split; [reflexivity | lia].
  - rewrite nth_error_replace_other by assumption. eauto.
Qed.

Lemma option_eq_dec_nat (a b : option nat) : {a = b} + {a <> b}.
Proof. decide equality. apply Nat.eq_dec. Qed.

(** X1: a run of [set_sublattice] that returns keeps the length of the label
    array and its values within -1, 0, +1; it leaves atom 0 labelled, and an
    atom that carried a label before the run carries one after it. *)
Theorem set_sublattice_labels (lat lat' : t) :
  set_sublattice lat = Ok lat' ->
  Forall three_valued (sublattice lat) ->
  length (sublattice lat') = length (sublattice lat) /\
  Forall three_valued (sublattice lat') /\
  (np_get (sublattice lat') 0 = Ok 1%Z \/
   np_get (sublattice lat') 0 = Ok (- 1)%Z) /\
  (forall j l, np_get (sublattice lat) j = Ok l -> l <> 0%Z ->
               exists l', np_get (sublattice lat') j = Ok l' /\ l' <> 0%Z).
Proof.
  intros H T. apply set_sublattice_relabel in H as (seeded & Hs & R).
  assert (Ts : Forall three_valued seeded).
  { eapply Forall_np_set; [exact T | | exact Hs]. unfold three_valued. lia. }
  pose proof (relabel_three_valued _ _ R Ts) as T'.
  assert (H0 : np_get seeded 0 = Ok 1%Z) by (eapply np_get_set_same; eassumption).
  repeat split.
  - rewrite (relabel_length _ _ R). eapply np_set_length; eassumption.
  - exact T'.
  - destruct (relabel_keeps_labelled _ _ 0%Z 1%Z R H0) as (l' & Hl & N);
      [lia |].
    pose proof (Forall_np_get _ _ _ _ T' Hl) as [E | [E | E]]; subst l'.
    + now right.
    + lia.
    + now left.
  - intros j l Hj Hl.
    assert (exists m, np_get seeded j = Ok m /\ m <> 0%Z) as (m & Hm & Nm).
    { destruct (option_eq_dec_nat (norm_index (length (sublattice lat)) j)
                  (norm_index (length (sublattice lat)) 0)) as [E | D].
      - exists 1%Z. split; [| lia].
        pose proof (np_set_length _ _ _ _ Hs) as L.
        unfold np_get in H0 |- *. rewrite L in *. rewrite E. exact H0.
      - exists l. split; [| assumption].
        rewrite (np_get_set_other _ _ _ j _ Hs D). exact Hj. }
    eapply relabel_keeps_labelled; eassumption.
Qed.

(** *** The traversal of a well-formed lattice raises nothing *)

Lemma np_set_in_range_ok {A : Type} (a : list A) (i : Z) (x : A) :
  Criteria.in_range (length a) i -> exists a', np_set a i x = Ok a'.
Proof.
  intros H. destruct (CriteriaFacts.np_get_in_range a i H) as [y Hy].
  unfold np_get in Hy. unfold np_set.
  destruct (norm_index (length a) i); [eauto | discriminate].
Qed.

Lemma visit_shape (n : nat) (node v : Z) (st : bfs_state) :
  bfs_shape n st -> Criteria.in_range n node -> Criteria.in_range n v ->
  exists st', visit node v st = Ok st' /\ bfs_shape n st'.
Proof.
  intros (Ll & Lc & Fq) Hn Hv. unfold visit.
  destruct (CriteriaFacts.np_get_in_range (labels st) v) as [l Hl];
    [now rewrite Ll |].
  rewrite Hl. cbn [bind]. destruct (negb (l =? 0)%Z).
  - destruct (np_set_in_range_ok (labels st) node (- l)%Z) as [lab Hs];
      [now rewrite Ll |].
    rewrite Hs. cbn [bind]. eexists. split; [reflexivity |].
    repeat split; simpl; try assumption.
    rewrite (np_set_length _ _ _ _ Hs). exact Ll.
  - destruct (CriteriaFacts.np_get_in_range (checked st) v) as [c Hc];
      [now rewrite Lc |].
    rewrite Hc. cbn [bind]. destruct (negb c).
    + destruct (np_set_in_range_ok (checked st) v true) as [chk Hs];
        [now rewrite Lc |].
      rewrite Hs. cbn [bind]. eexists. split; [reflexivity |].
      repeat split; simpl; try assumption.
      * rewrite (np_set_length _ _ _ _ Hs). exact Lc.
      * apply Forall_app. split; [assumption | now constructor].
    + eexists. split; [reflexivity |]. repeat split; assumption.
Qed.

Lemma visits_shape (n : nat) (node : Z) (row : list Z) (st : bfs_state) :
  bfs_shape n st -> Criteria.in_range n node ->
  Forall (Criteria.in_range n) row ->
  exists st', for_each (visit node) row st = Ok st' /\ bfs_shape n st'.
Proof.
  intros S Hn F. revert st S. induction F as [| v row Hv _ IH]; intros st S.
  - simpl. eauto.
  - simpl. destruct (visit_shape n node v st S Hn Hv) as (st1 & H1 & S1).
    rewrite H1. cbn [bind]. apply IH, S1.
Qed.

Lemma bfs_loop_shape (n fuel : nat) (vec : list (list Z)) (st : bfs_state) :
  length vec = n -> Forall (Forall (Criteria.in_range n)) vec ->
  bfs_shape n st ->
  (exists st', bfs_loop fuel vec st = Ok st') \/
  bfs_loop fuel vec st = OutOfFuel.
Proof.
  intros Lv Fv. revert st. induction fuel as [| fuel IH];
    intros [lab chk [| node rest]] S; simpl.
  - left. eauto.
  - now right.
  - left. eauto.
  - destruct S as (Ll & Lc & Fq). simpl in *.
    pose proof (Forall_inv Fq) as Hn. pose proof (Forall_inv_tail Fq) as Fr.
    destruct (CriteriaFacts.np_get_in_range vec node) as [row Hrow];
      [now rewrite Lv |].
    unfold process_node. rewrite Hrow. cbn [bind].
    destruct (visits_shape n node row (mk_bfs lab chk rest))
      as (st1 & H1 & S1).
    + repeat split; assumption.
    + assumption.
    + eapply (Forall_np_get (Forall (Criteria.in_range n)));
        eassumption.
    + rewrite H1. cbn [bind]. apply IH, S1.
Qed.

Lemma labelling_returns (lat : t) :
  aligned lat -> neighbours_in_range lat ->
  exists lat', set_sublattice lat = Ok lat'.
Proof.
  intros (P & _ & _ & Lv & Ls & _) F.
  pose proof (LatticeFacts.set_sublattice_terminates lat) as T.
  unfold set_sublattice in *.
  replace (n_atoms lat <? 0)%Z with false in * by (symmetry; apply Z.ltb_ge; lia).
  destruct (np_set_in_range_ok (sublattice lat) 0 1%Z) as [lab Hl].
  { rewrite Ls. unfold Criteria.in_range. lia. }
  destruct (np_set_in_range_ok (repeat false (Z.to_nat (n_atoms lat))) 0 true)
    as [chk Hc].
  { rewrite repeat_length. unfold Criteria.in_range. lia. }
  rewrite Hl, Hc in *. cbn [bind] in *.
  destruct (bfs_loop_shape (Z.to_nat (n_atoms lat)) (Z.to_nat (n_atoms lat))
              (vecinos lat) (mk_bfs lab chk [0%Z]) Lv F) as [(st & Hb) | Hb].
  - repeat split; simpl.
    + rewrite (np_set_length _ _ _ _ Hl). exact Ls.
    + rewrite (np_set_length _ _ _ _ Hc). apply repeat_length.
    + constructor; [unfold Criteria.in_range; lia | constructor].
  - rewrite Hb. cbn [bind]. eauto.
  - rewrite Hb in T. cbn [bind] in T. congruence.
Qed.

(** X2: on a lattice whose arrays are aligned on a positive [n_atoms] and
    whose neighbour entries are all valid indices, [set_sublattice] returns:
    it raises nothing and its loop ends. *)
Theorem set_sublattice_succeeds (lat : t) :
  aligned lat -> neighbours_in_range lat ->
  exists lat', set_sublattice lat = Ok lat'.
Proof. apply labelling_returns. Qed.

(** *** What [load_files] stores *)

Ltac window C :=
  match goal with
  | |- context [((?o <=? ?i) && (?i <? ?hi))%nat] =>
      destruct ((o <=? i) && (i <? hi))%nat eqn:C;
      [apply andb_true_iff in C;
       rewrite Nat.leb_le, Nat.ltb_lt in C
      |apply andb_false_iff in C;
       rewrite Nat.leb_gt, Nat.ltb_ge in C]
  end.

(** A loop [for i, x in enumerate(xs): a[i] = g(x)], started at index [o]. *)
Lemma fill_nth {A B : Type} (g : B -> A) (xs : list B) (o : nat)
  (a a' : list A) :
  for_each (fun (il : Z * B) (s : list A) => np_set s (fst il) (g (snd il)))
           (combine (map Z.of_nat (seq o (length xs))) xs) a = Ok a' ->
  length a' = length a /\
  forall i,
    nth_error a' i =
    if ((o <=? i) && (i <? o + length xs))%nat
    then option_map g (nth_error xs (i - o))
    else nth_error a i.
Proof.
  revert o a; induction xs as [| x xs IH]; intros o a H; simpl in H.
  - injection H as <-. split; [reflexivity |]. intros i.
    window C; [simpl in C; lia | reflexivity].
  - apply bind_Ok in H as (a1 & H1 & H2).
    apply IH in H2 as (L2 & N2).
    pose proof (np_set_length _ _ _ _ H1) as L1.
    split; [congruence |]. intros i. rewrite N2.
    unfold np_set in H1.
    destruct (norm_index (length a) (Z.of_nat o)) as [k |] eqn:E; [| discriminate].
    injection H1 as <-.
    assert (k = o /\ (o < length a)%nat) as [-> Ho].
    { pose proof (norm_index_lt _ _ _ E) as Hk. unfold norm_index in E.
      replace (0 <=? Z.of_nat o)%Z with true in E
        by (symmetry; apply Z.leb_le; lia).
      destruct (Z.of_nat o <? Z.of_nat (length a))%Z eqn:E2; simpl in E.
      - injection E as <-. rewrite Nat2Z.id in *. auto.
      - replace (Z.of_nat o <? 0)%Z with false in E
          by (symmetry; apply Z.ltb_ge; lia).
        rewrite andb_false_r in E. discriminate. }
    window C1; window C2; simpl length in *; try lia.
    + replace (i - o)%nat with (S (i - S o)) by lia. reflexivity.
    + assert (i = o) as -> by lia. rewrite Nat.sub_diag. simpl.
      now apply nth_error_replace_same.
    + apply nth_error_replace_other. lia.
Qed.

(** The loop of [load_files] over the atom lines fills the two arrays
    independently. *)
Lemma atom_loop_split (ils : list (Z * (vec3 * (Z * Z * Z))))
  (p v : list vec3 * list (list Z)) :
  for_each
    (fun (il : Z * (vec3 * (Z * Z * Z))) (pv : list vec3 * list (list Z)) =>
       let '(i, (pos, (a, b, c))) := il in
       p <- np_set (fst pv) i pos ;;
       v <- np_set (snd pv) i [a - 1; b - 1; c - 1]%Z ;;
       Ok (p, v)) ils p = Ok v ->
  for_each (fun (il : Z * (vec3 * (Z * Z * Z))) (s : list vec3) =>
              np_set s (fst il) (fst (snd il))) ils (fst p) = Ok (fst v) /\
  for_each (fun (il : Z * (vec3 * (Z * Z * Z))) (s : list (list Z)) =>
              np_set s (fst il) (line_neighbours (snd il))) ils (snd p)
  = Ok (snd v).
Proof.
  revert p; induction ils as [| [i [pos [[a b] c]]] ils IH]; intros p H;
    simpl in H.
  - injection H as <-. auto.
  - apply bind_Ok in H as (pv1 & H1 & H2).
    apply bind_Ok in H1 as (p1 & Hp & H1).
    apply bind_Ok in H1 as (v1 & Hv & H1). injection H1 as <-.
    apply IH in H2 as [I1 I2]. simpl in *.
    rewrite Hp, Hv. simpl. auto.
Qed.

Lemma nth_error_repeat_lt {A : Type} (x : A) (n i : nat) :
  (i < n)%nat -> nth_error (repeat x n) i = Some x.
Proof. intros H. now apply nth_error_repeat. Qed.

Lemma nth_error_firstn_lt {A : Type} (l : list A) (n i : nat) :
  (i < n)%nat -> nth_error (firstn n l) i = nth_error l i.
Proof.
  revert l i; induction n as [| n IH]; intros [| x l] [| i] H; simpl;
    try reflexivity; try lia.
  apply IH. lia.
Qed.

(** An array of [k] defaults filled from the first [k] elements of [xs]. *)
Lemma fill_from_lines {A B : Type} (g : B -> A) (d : A) (xs : list B) (k : nat)
  (a' : list A) :
  for_each (fun (il : Z * B) (s : list A) => np_set s (fst il) (g (snd il)))
           (enumerate (firstn k xs)) (repeat d k) = Ok a' ->
  length a' = k /\
  forall i, (i < k)%nat ->
            nth_error a' i = Some (match nth_error xs i with
                                   | Some x => g x
                                   | None => d
                                   end).
Proof.
  unfold enumerate. intros H. apply fill_nth in H as (L & N).
  rewrite repeat_length in L. split; [exact L |]. intros i Hi.
  rewrite N. simpl. rewrite Nat.sub_0_r, nth_error_firstn_lt by assumption.
  destruct (nth_error xs i) as [x |] eqn:E.
  - assert (i < length (firstn k xs))%nat.
    { apply nth_error_Some. rewrite nth_error_firstn_lt by assumption.
      congruence. }
    replace (i <? length (firstn k xs))%nat with true
      by (symmetry; apply Nat.ltb_lt; assumption).
    reflexivity.
  - assert (length (firstn k xs) <= i)%nat.
    { apply nth_error_None. now rewrite nth_error_firstn_lt. }
    replace (i <? length (firstn k xs))%nat with false
      by (symmetry; apply Nat.ltb_ge; assumption).
    now apply nth_error_repeat_lt.
Qed.

(** A load that finds both files and returns: the header, the arrays of the
    lattice and where they come from. *)
Lemma load_files_inversion (fs : file_system) (self lat : t)
  (structure_path spin_path : string) :
  load_files fs self structure_path spin_path = Ok (lat, Silent) ->
  exists lines spin_lines,
    open_structure fs structure_path = Some lines /\
    open_spins fs spin_path = Some spin_lines /\
    n_atoms lat = header_n_atoms lines /\
    (1 <= n_atoms lat)%Z /\
    sublattice lat = repeat 0%Z (Z.to_nat (n_atoms lat)) /\
    length (position lat) = Z.to_nat (n_atoms lat) /\
    length (vecinos lat) = Z.to_nat (n_atoms lat) /\
    length (spins lat) = Z.to_nat (n_atoms lat) /\
    forall i, (i < Z.to_nat (n_atoms lat))%nat ->
      nth_error (position lat) i
      = Some (match nth_error (atom_lines lines) i with
              | Some line => fst line
              | None => (0, 0, 0)
              end) /\
      nth_error (vecinos lat) i
      = Some (match nth_error (atom_lines lines) i with
              | Some line => line_neighbours line
              | None => [0; 0; 0]%Z
              end) /\
      nth_error (spins lat) i
      = Some (match nth_error spin_lines i with
              | Some s => s
              | None => (0, 0, 0)
              end).
Proof.
  unfold load_files. intros H.
  destruct (open_structure fs structure_path) as [lines |]; [| discriminate].
  destruct (open_spins fs spin_path) as [spin_lines |]; [| discriminate].
  destruct (header_n_atoms lines <? 0)%Z eqn:Neg; [discriminate |].
  apply bind_Ok in H as ([p1 v1] & Hpv & H).
  apply bind_Ok in H as (s1 & Hs & H).
  apply bind_Ok in H as (hi & Hhi & H).
  apply bind_Ok in H as (lo & _ & H). injection H as <-. simpl.
  apply atom_loop_split in Hpv as [Hp Hv]. simpl in Hp, Hv.
  apply (fill_from_lines (fun line : vec3 * (Z * Z * Z) => fst line) (0, 0, 0))
    in Hp as (Lp & Np).
  apply (fill_from_lines line_neighbours [0; 0; 0]%Z) in Hv as (Lv & Nv).
  apply (fill_from_lines (fun s : vec3 => s) (0, 0, 0)) in Hs as (Ls & Ns).
  exists lines, spin_lines. repeat split; try assumption; try reflexivity.
  - destruct p1 as [| x p1]; [discriminate |]. simpl in Lp.
    apply Z.ltb_ge in Neg. lia.
  - now apply Np.
  - now apply Nv.
  - now apply Ns.
Qed.

Lemma Forall_nth_error {A : Type} (P : A -> Prop) (l : list A) :
  (forall i x, nth_error l i = Some x -> P x) -> Forall P l.
Proof.
  intros H. apply Forall_forall. intros x Hx.
  apply In_nth_error in Hx as [i Hi]. eapply H, Hi.
Qed.

(** X3: a load that returns without a report leaves a lattice whose arrays
    all have [n_atoms >= 1] entries, with three neighbour entries per atom
    and every label 0. *)
Theorem load_files_aligned (fs : file_system) (self lat : t)
  (structure_path spin_path : string) :
  load_files fs self structure_path spin_path = Ok (lat, Silent) ->
  aligned lat /\ Forall (fun l => l = 0%Z) (sublattice lat).
Proof.
  intros H. apply load_files_inversion in H
    as (lines & sl & _ & _ & _ & P & Hs & Lp & Lv & Lsp & N).
  split.
  - repeat split; try assumption.
    + rewrite Hs. apply repeat_length.
    + apply Forall_nth_error. intros i row Hi.
      assert (Hlt : (i < Z.to_nat (n_atoms lat))%nat).
      { rewrite <- Lv. apply nth_error_Some. congruence. }
      destruct (N i Hlt) as (_ & Hv & _). rewrite Hv in Hi.
      injection Hi as <-.
      destruct (nth_error (atom_lines lines) i) as [[pos [[a b] c]] |];
        reflexivity.
  - rewrite Hs. apply Forall_forall. intros l Hl.
    now apply repeat_spec in Hl.
Qed.

(** X4: what a load stores for atom [i < N]: the position and the spin of
    line [i] of the two files, and the neighbour entries of that line less
    one; and zeros where a file has no line [i].  Lines after the first [N]
    are not read. *)
Theorem load_files_contents (fs : file_system) (self lat : t)
  (structure_path spin_path : string) (lines : structure_file)
  (spin_lines : spin_file) (i : nat) :
  open_structure fs structure_path = Some lines ->
  open_spins fs spin_path = Some spin_lines ->
  load_files fs self structure_path spin_path = Ok (lat, Silent) ->
  (i < Z.to_nat (header_n_atoms lines))%nat ->
  n_atoms lat = header_n_atoms lines /\
  nth_error (position lat) i
  = Some (match nth_error (atom_lines lines) i with
          | Some line => fst line
          | None => (0, 0, 0)
          end) /\
  nth_error (vecinos lat) i
  = Some (match nth_error (atom_lines lines) i with
          | Some (_, (a, b, c)) => [a - 1; b - 1; c - 1]%Z
          | None => [0; 0; 0]%Z
          end) /\
  nth_error (spins lat) i
  = Some (match nth_error spin_lines i with
          | Some s => s
          | None => (0, 0, 0)
          end) /\
  nth_error (position lat) (Z.to_nat (header_n_atoms lines)) = None.
Proof.
  intros Ho Hs H Hi. apply load_files_inversion in H
    as (lines' & sl' & Ho' & Hs' & Hn & _ & _ & Lp & _ & _ & N).
  rewrite Ho in Ho'. injection Ho' as <-.
  rewrite Hs in Hs'. injection Hs' as <-.
  rewrite Hn in *. destruct (N i Hi) as (Np & Nv & Ns).
  split; [reflexivity |]. split; [exact Np |]. split; [| split; [exact Ns |]].
  - rewrite Nv. destruct (nth_error (atom_lines lines) i)
      as [[pos [[a b] c]] |]; reflexivity.
  - apply nth_error_None. lia.
Qed.

(** X5: with both files present, a header [N <= 0] makes [load_files] raise
    [ValueError]: a negative [N] at [np.zeros], [N = 0] at the maximum of
    the empty position array. *)
Theorem load_files_no_atoms (fs : file_system) (self : t)
  (structure_path spin_path : string) (lines : structure_file)
  (spin_lines : spin_file) :
  open_structure fs structure_path = Some lines ->
  open_spins fs spin_path = Some spin_lines ->
  (header_n_atoms lines <= 0)%Z ->
  load_files fs self structure_path spin_path = Raise ValueError.
Proof.
  intros Ho Hs Hn. unfold load_files. rewrite Ho, Hs.
  destruct (header_n_atoms lines <? 0)%Z eqn:E; [reflexivity |].
  apply Z.ltb_ge in E. assert (header_n_atoms lines = 0%Z) as -> by lia.
  reflexivity.
Qed.

(** X6: [load_files] returns the lattice it was given, with a report, exactly
    when the structure file or the spin file is absent; the report names the
    structure file when that one is absent. *)
Theorem load_files_reports_missing (fs : file_system) (self lat : t)
  (structure_path spin_path : string) :
  (exists path,
      load_files fs self structure_path spin_path
      = Ok (lat, FileNotFound path)) <->
  (open_structure fs structure_path = None \/
   open_spins fs spin_path = None) /\
  lat = self /\
  load_files fs self structure_path spin_path
  = Ok (self, FileNotFound
                (match open_structure fs structure_path with
                 | None => structure_path
                 | Some _ => spin_path
                 end)).
Proof.
  unfold load_files. split.
  - intros [path H].
    destruct (open_structure fs structure_path) as [lines |].
    + destruct (open_spins fs spin_path) as [sl |].
      * exfalso. destruct (header_n_atoms lines <? 0)%Z; [discriminate |].
        apply bind_Ok in H as ([p1 v1] & _ & H).
        apply bind_Ok in H as (s1 & _ & H).
        apply bind_Ok in H as (hi & _ & H).
        apply bind_Ok in H as (lo & _ & H). discriminate.
      * injection H as <- _. auto.
    + injection H as <- _. auto.
  - intros (_ & -> & H). eauto.
Qed.

(** X7: loading and then labelling: when every neighbour entry [a] of the
    first [N] atom lines satisfies [1 - N <= a <= N], [set_sublattice]
    returns on the loaded lattice, and atom 0 ends with the label +1 or
    -1. *)
Theorem load_then_label (fs : file_system) (self lat : t)
  (structure_path spin_path : string) (lines : structure_file) :
  open_structure fs structure_path = Some lines ->
  load_files fs self structure_path spin_path = Ok (lat, Silent) ->
  Forall (fun line =>
            Forall (fun a => 1 - header_n_atoms lines <= a
                             <= header_n_atoms lines)%Z
                   (let '(_, (a, b, c)) := line in [a; b; c]))
         (firstn (Z.to_nat (header_n_atoms lines)) (atom_lines lines)) ->
  exists lat',
    set_sublattice lat = Ok lat' /\
    (np_get (sublattice lat') 0 = Ok 1%Z \/
     np_get (sublattice lat') 0 = Ok (- 1)%Z).
Proof.
  intros Ho H F.
  pose proof H as H'. apply load_files_inversion in H'
    as (lines' & sl & Ho' & _ & Hn & P & Hs & Lp & Lv & Lsp & N).
  rewrite Ho in Ho'. injection Ho' as <-.
  assert (A : aligned lat).
  { repeat split; try assumption.
    - rewrite Hs. apply repeat_length.
    - apply Forall_nth_error. intros i row Hi.
      assert (Hlt : (i < Z.to_nat (n_atoms lat))%nat).
      { rewrite <- Lv. apply nth_error_Some. congruence. }
      destruct (N i Hlt) as (_ & Hv & _). rewrite Hv in Hi.
      injection Hi as <-.
      destruct (nth_error (atom_lines lines) i) as [[pos [[a b] c]] |];
        reflexivity. }
  assert (R : neighbours_in_range lat).
  { apply Forall_nth_error. intros i row Hi.
    assert (Hlt : (i < Z.to_nat (n_atoms lat))%nat).
    { rewrite <- Lv. apply nth_error_Some. congruence. }
    destruct (N i Hlt) as (_ & Hv & _). rewrite Hv in Hi.
    injection Hi as <-.
    destruct (nth_error (atom_lines lines) i) as [[pos [[a b] c]] |] eqn:E.
    - rewrite Forall_forall in F.
      assert (In (pos, (a, b, c))
                 (firstn (Z.to_nat (header_n_atoms lines)) (atom_lines lines))).
      { apply (nth_error_In _ i). rewrite nth_error_firstn_lt; [exact E | lia]. }
      specialize (F _ H0). cbv beta iota in F.
      pose proof (Forall_inv F) as Fa.
      pose proof (Forall_inv (Forall_inv_tail F)) as Fb.
      pose proof (Forall_inv (Forall_inv_tail (Forall_inv_tail F))) as Fc.
      cbv beta in Fa, Fb, Fc. unfold line_neighbours.
      repeat constructor; unfold Criteria.in_range; lia.
    - repeat constructor; unfold Criteria.in_range; lia. }
  destruct (labelling_returns lat A R) as [lat' Hl].
  exists lat'. split; [exact Hl |].
  apply set_sublattice_relabel in Hl as (seeded & Hseed & Rl).
  assert (Ts : Forall three_valued seeded).
  { eapply Forall_np_set; [| | exact Hseed].
    - rewrite Hs. apply Forall_forall. intros l Hl.
      apply repeat_spec in Hl. unfold three_valued. lia.
    - unfold three_valued. lia. }
  pose proof (relabel_three_valued _ _ Rl Ts) as T'.
  assert (H0 : np_get seeded 0 = Ok 1%Z) by (eapply np_get_set_same; eassumption).
  destruct (relabel_keeps_labelled _ _ 0%Z 1%Z Rl H0) as (l' & Hl' & N');
    [lia |].
  pose proof (Forall_np_get _ _ _ _ T' Hl') as [E | [E | E]]; subst l'.
  - now right.
  - lia.
  - now left.
Qed.

Lemma set_sublattice_labels_witness :
  length (sublattice Examples.pair_labelled)
  = length (sublattice Examples.pair_lattice) /\
  Forall three_valued (sublattice Examples.pair_labelled) /\
  (np_get (sublattice Examples.pair_labelled) 0 = Ok 1%Z \/
   np_get (sublattice Examples.pair_labelled) 0 = Ok (- 1)%Z) /\
  (forall j l, np_get (sublattice Examples.pair_lattice) j = Ok l ->
               l <> 0%Z ->
               exists l', np_get (sublattice Examples.pair_labelled) j = Ok l'
                          /\ l' <> 0%Z).
Proof.
  apply (set_sublattice_labels Examples.pair_lattice Examples.pair_labelled).
  - vm_compute. reflexivity.
  - vm_compute. repeat constructor; unfold three_valued; lia.
Defined.

Lemma set_sublattice_succeeds_witness :
  exists lat', set_sublattice Examples.pair_lattice = Ok lat'.
Proof.
  apply (set_sublattice_succeeds Examples.pair_lattice).
  - vm_compute. repeat split; try reflexivity; try discriminate.
    repeat constructor.
  - vm_compute. repeat constructor; discriminate.
Defined.

Lemma load_files_aligned_witness :
  aligned Examples.pair_lattice /\
  Forall (fun l => l = 0%Z) (sublattice Examples.pair_lattice).
Proof.
  apply (load_files_aligned MoreExamples.pair_fs init Examples.pair_lattice
           "structure" "spins").
  vm_compute. reflexivity.
Defined.

Lemma load_files_contents_witness :
  n_atoms Examples.pair_lattice = 2%Z /\
  nth_error (position Examples.pair_lattice) 1 = Some (1, 0, 0) /\
  nth_error (vecinos Examples.pair_lattice) 1 = Some [0; 0; 0]%Z /\
  nth_error (spins Examples.pair_lattice) 1 = Some (0, 0, -1) /\
  nth_error (position Examples.pair_lattice) 2 = None.
Proof.
  apply (load_files_contents MoreExamples.pair_fs init Examples.pair_lattice
           "structure" "spins"
           (mk_structure 2
              [((0, 0, 0), (2, 2, 2)%Z); ((1, 0, 0), (1, 1, 1)%Z);
               ((5, 5, 5), (9, 9, 9)%Z)])
           [(0, 0, 1); (0, 0, -1); (1, 0, 0)] 1).
  - reflexivity.
  - reflexivity.
  - vm_compute. reflexivity.
  - simpl. lia.
Defined.

Lemma load_files_no_atoms_witness :
  load_files MoreExamples.empty_fs init "structure" "spins" = Raise ValueError.
Proof.
  apply (load_files_no_atoms MoreExamples.empty_fs init "structure" "spins"
           (mk_structure 0 []) []).
  - reflexivity.
  - reflexivity.
  - simpl. lia.
Defined.

Lemma load_then_label_witness :
  exists lat',
    set_sublattice Examples.pair_lattice = Ok lat' /\
    (np_get (sublattice lat') 0 = Ok 1%Z \/
     np_get (sublattice lat') 0 = Ok (- 1)%Z).
Proof.
  apply (load_then_label MoreExamples.pair_fs init Examples.pair_lattice
           "structure" "spins"
           (mk_structure 2
              [((0, 0, 0), (2, 2, 2)%Z); ((1, 0, 0), (1, 1, 1)%Z);
               ((5, 5, 5), (9, 9, 9)%Z)])).
  - reflexivity.
  - vm_compute. reflexivity.
  - simpl. repeat constructor; simpl; lia.
Defined.

End LatticeMore.

(** ** More on the order-parameter predicates *)

Module CriteriaMore.

Import Criteria.

Lemma np_ltb_between (a b : Q) (v : npfloat) :
  np_ltb (Fin a) v = true -> np_ltb v (Fin b) = true -> a < b.
Proof.
  destruct v as [q | | |]; simpl; try discriminate.
  intros H1 H2. apply Qltb_lt in H1, H2. eapply Qlt_trans; eassumption.
Qed.

Lemma inject_Z_pos (n : Z) : (0 < n)%Z -> 0 < inject_Z n.
Proof. intros H. change 0 with (inject_Z 0). now rewrite <- Zlt_Qlt. Qed.

(** [c / n > t] on Python integers, for [t > 0] and [c = 0] when
    [n <= 0]. *)
Lemma truediv_above (c n : Z) (t q : Q) :
  0 < t -> (n <= 0 -> c = 0)%Z ->
  py_truediv c n = Ok q -> Qltb t q = true ->
  (0 < n)%Z /\ t * inject_Z n < inject_Z c.
Proof.
  unfold py_truediv. intros Ht Hc.
  destruct (n =? 0)%Z eqn:E; [discriminate |]. apply Z.eqb_neq in E.
  intros H; injection H as <-. intros H. apply Qltb_lt in H.
  destruct (Z_lt_le_dec 0 n) as [P | N].
  - split; [assumption |]. pose proof (inject_Z_pos n P) as Hp.
    apply (Qmult_lt_r _ _ (inject_Z n)) in H; [| assumption].
    unfold Qdiv in H.
    rewrite <- Qmult_assoc, (Qmult_comm (/ _)), Qmult_inv_r in H.
    + now rewrite Qmult_1_r in H.
    + intros Z0. rewrite Z0 in Hp. now apply Qlt_irrefl in Hp.
  - exfalso. rewrite Hc in H by assumption.
    unfold Qdiv in H. rewrite Qmult_0_l in H.
    apply (Qlt_irrefl 0). eapply Qlt_trans; eassumption.
Qed.

(** The two counters of [is_local_ferro_antiferro] grow by at most one atom
    at a time, and never both. *)
Lemma local_counters (self : t) (spins : list vec3) (idx : list Z)
  (c c' : Z * Z) :
  for_each
    (fun n (c : Z * Z) =>
       spin_n <- np_get spins n ;;
       m_value <- neighbour_mean self spins n (Ok spin_n) ;;
       if np_ltb (Fin 0.99) m_value then Ok (fst c + 1, snd c)%Z
       else if np_ltb m_value (Fin (-0.99)) then Ok (fst c, snd c + 1)%Z
       else Ok c) idx c = Ok c' ->
  (fst c <= fst c' /\ snd c <= snd c' /\
   fst c' + snd c' <= fst c + snd c + Z.of_nat (length idx))%Z.
Proof.
  revert c; induction idx as [| n idx IH]; intros c H; cbn [for_each] in H.
  - injection H as <-. simpl. lia.
  - apply bind_Ok in H as (c1 & H1 & H2).
    apply IH in H2. simpl length. rewrite Nat2Z.inj_succ.
    apply bind_Ok in H1 as (s & _ & H1).
    apply bind_Ok in H1 as (m & _ & H1).
    destruct (np_ltb (Fin 0.99) m);
      [| destruct (np_ltb m (Fin (-0.99)))];
      injection H1 as <-; simpl in *; lia.
Qed.

(** X8: [is_local_ferro_antiferro] never answers [(True, True)]: an atom is
    counted as locally ferromagnetic or as locally antiferromagnetic, not
    both, and each fraction must exceed 0.65. *)
Theorem is_local_ferro_antiferro_never_both (self : t) (spins : list vec3) :
  is_local_ferro_antiferro self spins <> Ok (true, true).
Proof.
  unfold is_local_ferro_antiferro. intros H.
  apply bind_Ok in H as ([cf ca] & Hc & H).
  apply local_counters in Hc. simpl in Hc.
  unfold range in Hc. rewrite length_map, length_seq in Hc.
  apply bind_Ok in H as (f & Hf & H).
  apply bind_Ok in H as (a & Ha & H).
  injection H as H1 H2.
  apply (truediv_above cf (len self) 0.65 f) in H1;
    [| reflexivity | lia | assumption].
  apply (truediv_above ca (len self) 0.65 a) in H2;
    [| reflexivity | lia | assumption].
  destruct H1 as [P H1]. destruct H2 as [_ H2].
  assert (B : inject_Z cf + inject_Z ca <= inject_Z (len self)).
  { rewrite <- inject_Z_plus, <- Zle_Qle. lia. }
  pose proof (inject_Z_pos _ P). lra.
Qed.

Lemma per_atom_any (self : t) (spins : list vec3) (f g : vec3 -> Q)
  (l : list Q) :
  per_atom self spins f = Ok l ->
  exists ss, per_atom self spins (fun _ => 0) = Ok (map (fun _ => 0) ss) /\
             l = map f ss /\ per_atom self spins g = Ok (map g ss).
Proof.
  unfold per_atom. generalize (range (len self)). intros idx. revert l.
  induction idx as [| n idx IH]; intros l H; simpl in H.
  - injection H as <-. exists []. auto.
  - apply bind_Ok in H as (y & Hy & H). apply bind_Ok in Hy as (s & Hs & Hy).
    injection Hy as <-. apply bind_Ok in H as (ys & Hys & H). injection H as <-.
    destruct (IH _ Hys) as (ss & I0 & -> & Ig).
    exists (s :: ss). simpl. rewrite Hs. simpl. rewrite I0, Ig. auto.
Qed.

Lemma per_atom_staggered_any (self : t) (spins : list vec3)
  (f g : vec3 -> Q) (l : list Q) :
  per_atom_staggered self spins f = Ok l ->
  exists l', per_atom_staggered self spins g = Ok l'.
Proof.
  unfold per_atom_staggered. generalize (range (len self)). intros idx.
  revert l. induction idx as [| n idx IH]; intros l H; simpl in H.
  - eexists. reflexivity.
  - apply bind_Ok in H as (y & Hy & H). apply bind_Ok in Hy as (s & Hs & Hy).
    apply bind_Ok in Hy as (lab & Hl & Hy).
    apply bind_Ok in H as (ys & Hys & H).
    destruct (IH _ Hys) as (l' & I). simpl. rewrite Hs. simpl. rewrite Hl.
    simpl. rewrite I. simpl. eauto.
Qed.

Lemma per_atom_length (self : t) (spins : list vec3) (f : vec3 -> Q)
  (l : list Q) :
  per_atom self spins f = Ok l -> length l = Z.to_nat (len self).
Proof.
  unfold per_atom. intros H. apply CriteriaFacts.map_res_length in H.
  rewrite H. unfold range. now rewrite length_map, length_seq.
Qed.

Lemma per_atom_staggered_length (self : t) (spins : list vec3)
  (f : vec3 -> Q) (l : list Q) :
  per_atom_staggered self spins f = Ok l -> length l = Z.to_nat (len self).
Proof.
  unfold per_atom_staggered. intros H. apply CriteriaFacts.map_res_length in H.
  rewrite H. unfold range. now rewrite length_map, length_seq.
Qed.

(** The ratio [|total| / len] exceeds 0.99 only for a positive [len]. *)
Lemma ratio_needs_atoms (zs : list Q) (n : Z) :
  length zs = Z.to_nat n ->
  np_ltb (Fin 0.99) (np_div (Fin (Qabs (Qsum zs))) (of_int n)) = true ->
  (0 < n)%Z.
Proof.
  intros L H. destruct (Z_lt_le_dec 0 n) as [P | N]; [assumption |].
  exfalso. assert (zs = []) as ->.
  { destruct zs; [reflexivity |]. simpl in L. lia. }
  unfold np_div, of_int in H. change (Qabs (Qsum [])) with 0 in H.
  destruct (Qeq_bool (inject_Z n) 0); simpl in H; [discriminate |].
  apply Qltb_lt in H. unfold Qdiv in H. rewrite Qmult_0_l in H.
  now apply (Qlt_irrefl 0), (Qlt_trans _ 0.99).
Qed.

Lemma np_div_pos (x : Q) (n : Z) :
  (0 < n)%Z -> np_div (Fin x) (of_int n) = Fin (x / inject_Z n).
Proof.
  intros P. unfold np_div, of_int.
  destruct (Qeq_bool (inject_Z n) 0) eqn:E; [| reflexivity].
  apply Qeq_bool_iff in E. pose proof (inject_Z_pos n P) as H.
  rewrite E in H. now apply Qlt_irrefl in H.
Qed.

Lemma Qabs_div_pos (x : Q) (n : Z) :
  (0 < n)%Z -> Qabs (x / inject_Z n) == Qabs x / inject_Z n.
Proof.
  intros P. unfold Qdiv. rewrite Qabs_Qmult.
  rewrite (Qabs_pos (/ inject_Z n)); [reflexivity |].
  apply Qlt_le_weak, Qinv_lt_0_compat, inject_Z_pos, P.
Qed.

Lemma Ok_inj {A : Type} (a b : A) : Ok a = Ok b -> a = b.
Proof. congruence. Qed.

(** X9: no spin array is found aligned along z and in the plane at once:
    [is_ferro_z_aligned] and [is_ferro_xy_aligned] are never both true, nor
    are [is_antiferro_z_aligned] and [is_antiferro_xy_aligned]. *)
Theorem z_and_xy_exclusive (sqrt : Q -> Q) (self : t) (spins : list vec3) :
  ~ (is_ferro_z_aligned self spins = Ok true /\
     is_ferro_xy_aligned sqrt self spins = Ok true) /\
  ~ (is_antiferro_z_aligned self spins = Ok true /\
     is_antiferro_xy_aligned sqrt self spins = Ok true).
Proof.
  split; intros [H1 H2].
  - unfold is_ferro_z_aligned in H1. unfold is_ferro_xy_aligned in H2.
    apply bind_Ok in H1 as (zs & Hz & H1). apply Ok_inj in H1.
    apply bind_Ok in H2 as (xs & _ & H2).
    apply bind_Ok in H2 as (ys & _ & H2).
    apply bind_Ok in H2 as (zs' & Hz' & H2).
    rewrite Hz in Hz'. injection Hz' as <-. apply Ok_inj in H2.
    apply andb_true_iff in H2 as [H2 _].
    pose proof (np_ltb_between _ _ _ H1 H2) as C. lra.
  - unfold is_antiferro_z_aligned in H1. unfold is_antiferro_xy_aligned in H2.
    apply bind_Ok in H1 as (zs & Hz & H1). apply Ok_inj in H1.
    apply bind_Ok in H2 as (xs & _ & H2).
    apply bind_Ok in H2 as (ys & _ & H2).
    apply bind_Ok in H2 as (zs' & Hz' & H2).
    rewrite Hz in Hz'. injection Hz' as <-. apply Ok_inj in H2.
    apply andb_true_iff in H2 as [H2 _].
    pose proof (ratio_needs_atoms zs (len self)
                  (per_atom_staggered_length _ _ _ _ Hz) H1) as P.
    cbv zeta in H1, H2.
    rewrite np_div_pos in H1, H2 by assumption.
    cbn [np_ltb np_abs] in H1, H2.
    apply Qltb_lt in H1, H2. rewrite Qabs_div_pos in H2 by assumption.
    apply (Qlt_irrefl 0.99). eapply Qlt_trans; [exact H1 |].
    eapply Qlt_trans; [exact H2 |]. reflexivity.
Qed.

(** X10: with the context of [Criteria.__init__], which no lattice was bound
    to, [data_ferro_and_align_with_domain_walls] raises [ZeroDivisionError]
    for every spin array, and [data_ferro_spiral_skyrmions] returns white. *)
Theorem rule_tables_unbound (sqrt : Q -> Q) (spins : list vec3) :
  data_ferro_and_align_with_domain_walls sqrt init spins
  = Raise ZeroDivisionError /\
  data_ferro_spiral_skyrmions sqrt init spins = Ok white.
Proof.
  split; [reflexivity |].
  unfold data_ferro_spiral_skyrmions, is_conical. simpl positions.
  assert (E : combine spins (@nil vec3) = []) by (destruct spins; reflexivity).
  rewrite E. reflexivity.
Qed.

(** *** A spin array shorter than the context *)

Lemma np_get_index_only {A : Type} (l : list A) (i : Z) : index_only (np_get l i).
Proof.
  unfold index_only, np_get. destruct (norm_index (length l) i); [| now right].
  destruct (nth_error l n); [left; eauto | now right].
Qed.

Lemma bind_index_only {A B : Type} (c : res A) (k : A -> res B) :
  index_only c -> (forall a, index_only (k a)) -> index_only (bind c k).
Proof. intros [[a ->] | ->] H; simpl; [apply H | now right]. Qed.

Lemma Ok_index_only {A : Type} (a : A) : index_only (Ok a).
Proof. left. eauto. Qed.

Lemma map_res_index_only {A B : Type} (f : A -> res B) (xs : list A) :
  (forall x, index_only (f x)) -> index_only (map_res f xs).
Proof.
  intros H. induction xs as [| x xs IH]; simpl; [apply Ok_index_only |].
  apply bind_index_only; [apply H |]. intros y.
  apply bind_index_only; [apply IH |]. intros ys. apply Ok_index_only.
Qed.

Lemma map_res_raises {A B : Type} (f : A -> res B) (xs : list A) (x0 : A) :
  (forall x, index_only (f x)) -> In x0 xs -> f x0 = Raise IndexError ->
  map_res f xs = Raise IndexError.
Proof.
  intros H Hin H0. induction xs as [| x xs IH]; simpl; [contradiction |].
  destruct (H x) as [[y Hy] | Hy]; rewrite Hy; simpl; [| reflexivity].
  destruct Hin as [-> | Hin]; [congruence |].
  now rewrite (IH Hin).
Qed.

Lemma for_each_raises {A S : Type} (f : A -> S -> res S) (xs : list A)
  (x0 : A) (s : S) :
  (forall x s', index_only (f x s')) -> In x0 xs ->
  (forall s', f x0 s' = Raise IndexError) ->
  for_each f xs s = Raise IndexError.
Proof.
  intros H Hin H0. revert s. induction xs as [| x xs IH]; intros s; simpl;
    [contradiction |].
  destruct (H x s) as [[y Hy] | Hy]; rewrite Hy; simpl; [| reflexivity].
  destruct Hin as [-> | Hin]; [rewrite H0 in Hy; discriminate |].
  now apply IH.
Qed.

Lemma np_get_past_end {A : Type} (l : list A) :
  np_get l (Z.of_nat (length l)) = Raise IndexError.
Proof.
  unfold np_get, norm_index.
  replace (Z.of_nat (length l) <? Z.of_nat (length l))%Z with false
    by (symmetry; apply Z.ltb_ge; lia).
  replace (Z.of_nat (length l) <? 0)%Z with false
    by (symmetry; apply Z.ltb_ge; lia).
  now rewrite !andb_false_r.
Qed.

Lemma past_end_in_range (k : nat) (n : Z) :
  (Z.of_nat k < n)%Z -> In (Z.of_nat k) (range n).
Proof.
  intros H. unfold range. apply in_map. apply in_seq. lia.
Qed.

Lemma neighbour_mean_index_only (self : t) (spins : list vec3) (n : Z)
  (spin_n : res vec3) :
  index_only spin_n -> index_only (neighbour_mean self spins n spin_n).
Proof.
  intros H. unfold neighbour_mean.
  apply bind_index_only; [apply np_get_index_only |]. intros row.
  apply bind_index_only.
  - apply map_res_index_only. intros m.
    apply bind_index_only; [exact H |]. intros u.
    apply bind_index_only; [apply np_get_index_only |]. intros s.
    apply Ok_index_only.
  - intros ds. apply bind_index_only; [apply np_get_index_only |].
    intros row'. apply Ok_index_only.
Qed.

(** X11: when the spin array has fewer entries than the context has atoms,
    both rule tables raise [IndexError], whatever the context holds. *)
Theorem rule_tables_short_spins (sqrt : Q -> Q) (self : t) (spins : list vec3) :
  (Z.of_nat (length spins) < len self)%Z ->
  data_ferro_and_align_with_domain_walls sqrt self spins = Raise IndexError /\
  data_ferro_spiral_skyrmions sqrt self spins = Raise IndexError.
Proof.
  intros H. pose proof (past_end_in_range _ _ H) as Hin. split.
  - unfold data_ferro_and_align_with_domain_walls, is_local_ferro_antiferro.
    rewrite (for_each_raises _ _ (Z.of_nat (length spins))); [reflexivity | | |].
    + intros n c. apply bind_index_only; [apply np_get_index_only |].
      intros s. apply bind_index_only.
      * apply neighbour_mean_index_only, Ok_index_only.
      * intros m. destruct (np_ltb (Fin 0.99) m); [apply Ok_index_only |].
        destruct (np_ltb m (Fin (-0.99))); apply Ok_index_only.
    + exact Hin.
    + intros c. now rewrite np_get_past_end.
  - unfold data_ferro_spiral_skyrmions, is_ferro_z_aligned, per_atom.
    rewrite (map_res_raises _ _ (Z.of_nat (length spins))); [reflexivity | | |].
    + intros n. apply bind_index_only; [apply np_get_index_only |].
      intros s. apply Ok_index_only.
    + exact Hin.
    + now rewrite np_get_past_end.
Qed.

(** *** The perfect ferromagnet *)

Lemma np_get_repeat {A : Type} (x : A) (n : nat) (i : Z) :
  in_range n i -> np_get (repeat x n) i = Ok x.
Proof.
  intros H.
  destruct (CriteriaFacts.np_get_in_range (repeat x n) i) as [y Hy];
    [now rewrite repeat_length |].
  rewrite Hy. f_equal.
  apply (LatticeMore.Forall_np_get (fun z => z = x) (repeat x n) i y);
    [| exact Hy].
  apply Forall_forall. intros z Hz. now apply repeat_spec in Hz.
Qed.

Lemma map_res_const {A B : Type} (f : A -> res B) (c : B) (xs : list A) :
  (forall x, In x xs -> f x = Ok c) ->
  map_res f xs = Ok (repeat c (length xs)).
Proof.
  induction xs as [| x xs IH]; intros H; simpl; [reflexivity |].
  rewrite (H x) by (simpl; auto). simpl.
  rewrite IH by (intros; apply H; simpl; auto). reflexivity.
Qed.

Lemma Qsum_repeat (c : Q) (k : nat) :
  Qsum (repeat c k) == inject_Z (Z.of_nat k) * c.
Proof.
  induction k as [| k IH].
  - unfold Qsum. simpl. ring.
  - change (repeat c (S k)) with (c :: repeat c k).
    rewrite Qsum_cons, IH, Nat2Z.inj_succ. unfold Z.succ.
    rewrite inject_Z_plus. ring.
Qed.

Lemma unit_fraction (k : nat) :
  (0 < k)%nat ->
  inject_Z (Z.of_nat k) * 1 / inject_Z (Z.of_nat k) == 1.
Proof.
  intros H. field. intros E.
  pose proof (inject_Z_pos (Z.of_nat k)) as P.
  rewrite E in P. apply (Qlt_irrefl 0), P. lia.
Qed.

Lemma dot_up_up : dot spin_up spin_up == 1.
Proof. reflexivity. Qed.

Section Ferromagnet.

Variable sqrt : Q -> Q.
Variable self : t.
Hypothesis WF : well_formed self (ferro_configuration (Z.to_nat (len self))).
Hypothesis Rows : Forall (fun row : list Z => row <> []) (vecinos self).

Lemma ferro_neighbour_mean (i : Z) :
  in_range (Z.to_nat (len self)) i ->
  exists q, neighbour_mean self (ferro_configuration (Z.to_nat (len self))) i
              (Ok spin_up) = Ok (Fin q) /\ q == 1.
Proof.
  intros Hi. unfold neighbour_mean.
  destruct (CriteriaFacts.wf_row self _ WF i Hi) as (row & Hrow & F).
  rewrite Hrow. cbn [bind].
  rewrite (map_res_const _ (dot spin_up spin_up) row).
  - cbn [bind].
    assert (Hne : row <> []).
    { eapply (LatticeMore.Forall_np_get (fun r : list Z => r <> []));
        eassumption. }
    assert (Hl : (0 < length row)%nat)
      by (destruct row; [congruence | simpl; lia]).
    rewrite np_div_pos by lia.
    eexists. split; [reflexivity |].
    rewrite Qsum_repeat, dot_up_up. now apply unit_fraction.
  - intros m Hm. cbn [bind]. rewrite Forall_forall in F.
    unfold ferro_configuration. rewrite np_get_repeat by (apply F, Hm).
    reflexivity.
Qed.

Lemma ferro_spin (i : Z) :
  in_range (Z.to_nat (len self)) i ->
  np_get (ferro_configuration (Z.to_nat (len self))) i = Ok spin_up.
Proof. intros H. unfold ferro_configuration. now apply np_get_repeat. Qed.

Lemma ferro_local_loop (idx : list Z) (c : Z * Z) :
  Forall (in_range (Z.to_nat (len self))) idx ->
  for_each
    (fun n (c : Z * Z) =>
       spin_n <- np_get (ferro_configuration (Z.to_nat (len self))) n ;;
       m_value <- neighbour_mean self
                    (ferro_configuration (Z.to_nat (len self))) n
                    (Ok spin_n) ;;
       if np_ltb (Fin 0.99) m_value then Ok (fst c + 1, snd c)%Z
       else if np_ltb m_value (Fin (-0.99)) then Ok (fst c, snd c + 1)%Z
       else Ok c) idx c
  = Ok (fst c + Z.of_nat (length idx), snd c)%Z.
Proof.
  intros F. revert c. induction F as [| i idx Hi _ IH]; intros c;
    cbn [for_each].
  - simpl. rewrite Z.add_0_r. now destruct c.
  - rewrite (ferro_spin i Hi). cbn [bind].
    destruct (ferro_neighbour_mean i Hi) as (q & Hq & E). rewrite Hq.
    cbn [bind]. change (np_ltb (Fin 0.99) (Fin q)) with (Qltb 0.99 q).
    replace (Qltb 0.99 q) with true
      by (symmetry; apply Qltb_lt; rewrite E; reflexivity).
    cbn [bind]. rewrite IH. cbn [fst snd length]. f_equal. f_equal. lia.
Qed.

Lemma range_in_range (n : Z) : Forall (in_range (Z.to_nat n)) (range n).
Proof.
  apply Forall_forall. intros i Hi. apply CriteriaFacts.range_bounds in Hi.
  unfold in_range. lia.
Qed.

Lemma range_length (n : Z) : length (range n) = Z.to_nat n.
Proof. unfold range. now rewrite length_map, length_seq. Qed.

Lemma ferro_is_local :
  is_local_ferro_antiferro self (ferro_configuration (Z.to_nat (len self)))
  = Ok (true, false).
Proof.
  destruct WF as (P & _).
  unfold is_local_ferro_antiferro.
  rewrite ferro_local_loop by apply range_in_range.
  cbn [bind fst snd]. rewrite range_length, Z2Nat.id by lia.
  unfold py_truediv.
  replace (len self =? 0)%Z with false by (symmetry; apply Z.eqb_neq; lia).
  cbn [bind]. apply f_equal, f_equal2.
  - apply Qltb_lt. rewrite Z.add_0_l.
    setoid_replace (inject_Z (len self) / inject_Z (len self)) with 1.
    + reflexivity.
    + field. intros E. pose proof (inject_Z_pos _ P) as H.
      rewrite E in H. now apply Qlt_irrefl in H.
  - apply Qltb_ge. unfold Qdiv. rewrite Qmult_0_l. discriminate.
Qed.

Lemma np_sum_ones (ms : list npfloat) (a : Q) :
  Forall (fun m => exists q, m = Fin q /\ q == 1) ms ->
  exists s, fold_left np_add ms (Fin a) = Fin s /\
            s == a + inject_Z (Z.of_nat (length ms)).
Proof.
  intros F. revert a. induction F as [| m ms (q & -> & E) _ IH]; intros a.
  - exists a. split; [reflexivity |]. simpl. ring.
  - cbn [fold_left np_add]. destruct (IH (a + q)) as (s & Hs & Es).
    exists s. split; [exact Hs |].
    simpl length. rewrite Es, E, Nat2Z.inj_succ. unfold Z.succ.
    rewrite inject_Z_plus. ring.
Qed.

Lemma map_res_Forall {A B : Type} (f : A -> res B) (P : B -> Prop)
  (xs : list A) :
  (forall x, In x xs -> exists y, f x = Ok y /\ P y) ->
  exists ys, map_res f xs = Ok ys /\ Forall P ys /\ length ys = length xs.
Proof.
  induction xs as [| x xs IH]; intros H; simpl.
  - exists []. auto.
  - destruct (H x) as (y & Hy & Py); [simpl; auto |]. rewrite Hy. cbn [bind].
    destruct IH as (ys & Hys & F & L); [intros; apply H; simpl; auto |].
    rewrite Hys. cbn [bind]. exists (y :: ys). simpl. auto.
Qed.

Lemma ferro_is_random :
  is_random self (ferro_configuration (Z.to_nat (len self))) = Ok false.
Proof.
  destruct WF as (P & _). unfold is_random.
  destruct (map_res_Forall
              (fun n => neighbour_mean self
                          (ferro_configuration (Z.to_nat (len self))) n
                          (np_get (ferro_configuration (Z.to_nat (len self))) n))
              (fun m => exists q, m = Fin q /\ q == 1)
              (range (len self))) as (ms & Hms & F & L).
  { intros i Hi.
    assert (Hr : in_range (Z.to_nat (len self)) i).
    { apply CriteriaFacts.range_bounds in Hi. unfold in_range. lia. }
    rewrite (ferro_spin i Hr).
    destruct (ferro_neighbour_mean i Hr) as (q & Hq & E). eauto. }
  rewrite Hms. cbn [bind]. unfold np_sum.
  destruct (np_sum_ones ms 0 F) as (s & Hs & Es). rewrite Hs.
  cbn [np_abs np_ltb]. f_equal. apply Qltb_ge.
  rewrite Es, L, range_length, Z2Nat.id by lia.
  rewrite Qplus_0_l, Qabs_pos by (apply Qlt_le_weak, inject_Z_pos, P).
  apply (Qle_trans _ 1); [discriminate |].
  change 1 with (inject_Z 1). rewrite <- Zle_Qle. lia.
Qed.

Lemma filter_repeat {A : Type} (p : A -> bool) (x : A) (k : nat) :
  filter p (repeat x k) = if p x then repeat x k else [].
Proof.
  induction k as [| k IH]; simpl; [now destruct (p x) |].
  rewrite IH. now destruct (p x).
Qed.

Lemma ferro_is_xyz :
  is_xyz_aligned self (ferro_configuration (Z.to_nat (len self)))
  = Ok (true, false).
Proof.
  destruct WF as (P & L & _).
  unfold is_xyz_aligned, count_z.
  rewrite !CriteriaFacts.per_atom_aligned by assumption. cbn [bind].
  unfold ferro_configuration. rewrite map_repeat, !filter_repeat.
  change (Qltb 0.95 (Qabs (vz (0, 0, 1)))) with true.
  change (Qltb (Qabs (vz (0, 0, 1))) 0.05) with false.
  cbn iota. rewrite repeat_length, Z2Nat.id by lia.
  unfold of_int at 1 3. rewrite !np_div_pos by assumption.
  cbn [np_ltb length]. apply f_equal, f_equal2.
  - apply Qltb_lt.
    setoid_replace (inject_Z (len self) / inject_Z (len self)) with 1.
    + reflexivity.
    + field. intros E. pose proof (inject_Z_pos _ P) as H.
      rewrite E in H. now apply Qlt_irrefl in H.
  - apply Qltb_ge. unfold Qdiv. simpl inject_Z. rewrite Qmult_0_l. discriminate.
Qed.

Lemma ferro_is_ferro_z :
  is_ferro_z_aligned self (ferro_configuration (Z.to_nat (len self)))
  = Ok true.
Proof.
  destruct WF as (P & L & _).
  unfold is_ferro_z_aligned.
  rewrite CriteriaFacts.per_atom_aligned by assumption. cbn [bind].
  rewrite CriteriaFacts.ratio_test by assumption. f_equal.
  apply Qltb_lt. rewrite CriteriaFacts.sum_ferro, Z2Nat.id by lia.
  pose proof (inject_Z_pos _ P) as H.
  rewrite Qabs_pos by (now apply Qlt_le_weak). lra.
Qed.

End Ferromagnet.

(** X12: the perfect ferromagnet, every spin (0,0,1), in a valid context
    where every atom has at least one neighbour: it is locally ferromagnetic
    and not locally antiferromagnetic, aligned along z and not in the plane,
    and not random. *)
Theorem perfect_ferromagnet_predicates (self : t) :
  well_formed self (ferro_configuration (Z.to_nat (len self))) ->
  Forall (fun row : list Z => row <> []) (vecinos self) ->
  is_local_ferro_antiferro self (ferro_configuration (Z.to_nat (len self)))
  = Ok (true, false) /\
  is_xyz_aligned self (ferro_configuration (Z.to_nat (len self)))
  = Ok (true, false) /\
  is_random self (ferro_configuration (Z.to_nat (len self))) = Ok false.
Proof.
  intros WF Rows. split; [| split].
  - now apply ferro_is_local.
  - now apply ferro_is_xyz.
  - now apply ferro_is_random.
Qed.

(** X13: both rule tables colour the perfect ferromagnet yellow, in every
    valid context where every atom has at least one neighbour. *)
Theorem perfect_ferromagnet_yellow (sqrt : Q -> Q) (self : t) :
  well_formed self (ferro_configuration (Z.to_nat (len self))) ->
  Forall (fun row : list Z => row <> []) (vecinos self) ->
  data_ferro_and_align_with_domain_walls sqrt self
    (ferro_configuration (Z.to_nat (len self))) = Ok yellow /\
  data_ferro_spiral_skyrmions sqrt self
    (ferro_configuration (Z.to_nat (len self))) = Ok yellow.
Proof.
  intros WF Rows.
  destruct (CriteriaFacts.is_antiferro_z_aligned_total self _ WF) as [afz Hafz].
  destruct (CriteriaFacts.is_ferro_xy_aligned_total sqrt self _ WF)
    as [fxy Hfxy].
  destruct (CriteriaFacts.is_antiferro_xy_aligned_total sqrt self _ WF)
    as [afxy Hafxy].
  destruct (CriteriaFacts.is_conical_total sqrt self _ WF) as [[lc gc] Hc].
  pose proof (CriteriaFacts.domain_wall_is_reference self _
                (proj1 (proj2 WF)) (proj1 (proj2 (proj2 WF)))) as Hd.
  split.
  - unfold data_ferro_and_align_with_domain_walls.
    rewrite (ferro_is_local self WF Rows), (ferro_is_xyz self WF), Hd,
      (ferro_is_ferro_z self WF), Hfxy, Hafz, Hafxy,
      (ferro_is_random self WF Rows).
    reflexivity.
  - unfold data_ferro_spiral_skyrmions.
    rewrite (ferro_is_ferro_z self WF), Hfxy, Hafz, Hafxy, Hc. reflexivity.
Qed.

Lemma perfect_ferromagnet_predicates_witness :
  is_local_ferro_antiferro Examples.pair_context (ferro_configuration 2)
  = Ok (true, false) /\
  is_xyz_aligned Examples.pair_context (ferro_configuration 2)
  = Ok (true, false) /\
  is_random Examples.pair_context (ferro_configuration 2) = Ok false.
Proof.
  apply (perfect_ferromagnet_predicates Examples.pair_context).
  - unfold well_formed. simpl. repeat split; try reflexivity.
    repeat constructor; unfold in_range; simpl; lia.
  - repeat constructor; discriminate.
Defined.

Lemma perfect_ferromagnet_yellow_witness :
  data_ferro_and_align_with_domain_walls sqrt_floor Examples.pair_context
    (ferro_configuration 2) = Ok yellow /\
  data_ferro_spiral_skyrmions sqrt_floor Examples.pair_context
    (ferro_configuration 2) = Ok yellow.
Proof.
  apply (perfect_ferromagnet_yellow sqrt_floor Examples.pair_context).
  - unfold well_formed. simpl. repeat split; try reflexivity.
    repeat constructor; unfold in_range; simpl; lia.
  - repeat constructor; discriminate.
Defined.

Lemma rule_tables_short_spins_witness :
  data_ferro_and_align_with_domain_walls sqrt_floor Examples.pair_context
    [(0, 0, 1)] = Raise IndexError /\
  data_ferro_spiral_skyrmions sqrt_floor Examples.pair_context [(0, 0, 1)]
  = Raise IndexError.
Proof.
  apply (rule_tables_short_spins sqrt_floor Examples.pair_context [(0, 0, 1)]).
  simpl. lia.
Defined.

(** *** Collinear spins *)

Lemma for_each_keeps {A S : Type} (I : S -> Prop) (f : A -> S -> res S)
  (xs : list A) (s : S) :
  (forall x s0, In x xs -> I s0 -> exists s', f x s0 = Ok s' /\ I s') ->
  I s -> exists s', for_each f xs s = Ok s' /\ I s'.
Proof.
  revert s; induction xs as [| x xs IH]; intros s H Hs; simpl.
  - eauto.
  - destruct (H x s) as (s1 & H1 & I1); [simpl; auto | assumption |].
    rewrite H1. cbn [bind]. apply IH; [| assumption].
    intros; apply H; simpl; auto.
Qed.

Lemma cross_self (s : vec3) : dot (cross s s) (cross s s) == 0.
Proof. unfold dot, cross, vx, vy, vz. simpl. ring. Qed.

(** X14: when every atom carries the same spin, no neighbour pair rotates and
    [is_conical] answers [(False, False)]; this holds in every valid context
    and for every square root that maps zero to at most 0.01. *)
Theorem is_conical_collinear (sqrt : Q -> Q) (self : t) (s : vec3) :
  (forall q, q == 0 -> sqrt q <= 0.01) ->
  well_formed self (repeat s (Z.to_nat (len self))) ->
  is_conical sqrt self (repeat s (Z.to_nat (len self))) = Ok (false, false).
Proof.
  intros Hsqrt WF. unfold is_conical.
  destruct (for_each_keeps (fun st => count st = 0%Z)
              (conical_atom sqrt self (repeat s (Z.to_nat (len self))))
              (enumerate (combine (repeat s (Z.to_nat (len self)))
                                  (positions self)))
              (mk_conical (0, 0, 0) (0, 0, 0) 0)) as (st & Hst & Hc).
  - intros [i [spin_i position_i]] st0 Hin I0.
    assert (Hs : spin_i = s).
    { unfold enumerate in Hin. apply in_combine_r in Hin.
      apply in_combine_l in Hin. now apply repeat_spec in Hin. }
    subst spin_i. apply CriteriaFacts.enumerate_bounds in Hin.
    rewrite length_combine, repeat_length in Hin.
    pose proof WF as (P & L & _ & L' & _). rewrite L', Nat.min_id in Hin.
    unfold conical_atom.
    destruct (CriteriaFacts.wf_row self _ WF i) as (row & Hrow & F);
      [unfold in_range; lia |].
    rewrite Hrow. cbn [bind]. apply for_each_keeps; [| exact I0].
    intros j st1 Hj I1. rewrite Forall_forall in F. specialize (F j Hj).
    unfold conical_pair.
    rewrite (np_get_repeat s _ j F). cbn [bind].
    assert (Hm : np_ltb (Fin 0.01)
                   (np_sqrt sqrt (Fin (dot (cross s s) (cross s s)))) = false).
    { unfold np_sqrt.
      replace (Qltb (dot (cross s s) (cross s s)) 0) with false
        by (symmetry; apply Qltb_ge; rewrite cross_self; discriminate).
      cbn [np_ltb]. apply Qltb_ge, Hsqrt, cross_self. }
    rewrite Hm.
    destruct (CriteriaFacts.wf_position self _ WF j F) as [p Hp].
    rewrite Hp. cbn [bind]. eexists. split; [reflexivity | exact I1].
  - reflexivity.
  - rewrite Hst. cbn [bind]. rewrite Hc. reflexivity.
Qed.

Lemma sqrt_floor_zero (q : Q) : q == 0 -> sqrt_floor q <= 0.01.
Proof.
  intros H. unfold Qeq in H. simpl in H. rewrite Z.mul_1_r in H.
  unfold sqrt_floor. rewrite H. simpl. unfold Qle. simpl. lia.
Qed.

Lemma is_conical_collinear_witness :
  is_conical sqrt_floor Examples.pair_context [(0, 0, 1); (0, 0, 1)]
  = Ok (false, false).
Proof.
  apply (is_conical_collinear sqrt_floor Examples.pair_context (0, 0, 1)).
  - exact sqrt_floor_zero.
  - unfold well_formed. simpl. repeat split; try reflexivity.
    repeat constructor; unfold in_range; simpl; lia.
Defined.

End CriteriaMore.

(** ** More on the sweep *)

Module DataManagerMore.

Import DataManager.

Lemma for_each_nil_inner {A B S : Type} (g : A -> B -> S -> res S)
  (xs : list A) (s : S) :
  for_each (fun x s' => for_each (g x) [] s') xs s = Ok s.
Proof. induction xs as [| x xs IH]; simpl; [reflexivity | exact IH]. Qed.

(** X15: over an empty grid, either list of variables being empty,
    [set_data] returns at once: no file is opened, nothing is classified and
    the manager is unchanged. *)
Theorem set_data_empty_grid (fs : Lattice.file_system)
  (function : Criteria.t -> list vec3 -> res color) (self : t) :
  var1_list self = [] \/ var2_list self = [] ->
  set_data fs function self = Ok self.
Proof.
  unfold set_data. intros [H | H]; rewrite H.
  - reflexivity.
  - apply (for_each_nil_inner
             (fun (jv : Z * float) => set_cell fs function (fst jv) (snd jv))).
Qed.

(** X16: a manager whose context is already bound keeps it through a sweep:
    no cell binds it again, whatever lattice the cell loads, and every cell
    is classified in that context. *)
Theorem set_data_keeps_bound_context (fs : Lattice.file_system)
  (function : Criteria.t -> list vec3 -> res color) (self self' : t) :
  Criteria.len (criteria self) <> 0%Z ->
  set_data fs function self = Ok self' ->
  criteria self' = criteria self /\
  Forall (classified fs function (criteria self) (path_manager self) self')
         (cells self).
Proof.
  intros B H. rewrite DataManagerFacts.set_data_cells in H.
  destruct (DataManagerFacts.sweep_bound fs function (cells self) self self' B
              (DataManagerFacts.cells_NoDup self)
              (DataManagerFacts.cells_nonneg self) H) as (C & _ & A & _).
  auto.
Qed.

Lemma map_length_replace {A : Type} (d : list (list A)) (k : nat)
  (row row' : list A) :
  nth_error d k = Some row -> length row' = length row ->
  map (@length A) (replace_nth k row' d) = map (@length A) d.
Proof.
  revert k; induction d as [| r d IH]; intros [| k] H L; simpl in *;
    try discriminate.
  - injection H as ->. now rewrite L.
  - now rewrite (IH k H L).
Qed.

Lemma set_cell_shape (fs : Lattice.file_system)
  (function : Criteria.t -> list vec3 -> res color)
  (j : Z) (var1 : float) (kv : Z * float) (self self' : t) :
  set_cell fs function j var1 kv self = Ok self' ->
  path_manager self' = path_manager self /\
  var1_list self' = var1_list self /\
  var2_list self' = var2_list self /\
  map (@length color) (data self') = map (@length color) (data self).
Proof.
  unfold set_cell. destruct kv as [k var2]. intros H.
  apply bind_Ok in H as ([lat rep] & _ & H).
  apply bind_Ok in H as ([lat1 crit] & _ & H).
  apply bind_Ok in H as (c & _ & H).
  apply bind_Ok in H as (row & Hrow & H).
  apply bind_Ok in H as (row' & Hset & H).
  apply bind_Ok in H as (d' & Hd & H).
  injection H as <-. simpl. repeat split.
  pose proof (np_set_length _ _ _ _ Hset) as L.
  unfold np_get in Hrow. unfold np_set in Hd.
  destruct (norm_index (length (data self)) j) as [n |]; [| discriminate].
  destruct (nth_error (data self) n) as [r |] eqn:E; [| discriminate].
  injection Hrow as ->. injection Hd as <-.
  now apply (map_length_replace _ _ row).
Qed.

Lemma for_each_preserves {A S : Type} (I : S -> Prop) (f : A -> S -> res S)
  (xs : list A) (s s' : S) :
  (forall x s1 s2, I s1 -> f x s1 = Ok s2 -> I s2) ->
  I s -> for_each f xs s = Ok s' -> I s'.
Proof.
  intros H. revert s; induction xs as [| x xs IH]; intros s Hs E; simpl in E.
  - now injection E as <-.
  - apply bind_Ok in E as (s1 & E1 & E2). eapply IH; [| exact E2].
    eapply H; eassumption.
Qed.

(** X17: a sweep that returns leaves the path manager, the two lists of
    variables and the shape of the colour grid as they were: only the colours
    and the context can change. *)
Theorem set_data_keeps_shape (fs : Lattice.file_system)
  (function : Criteria.t -> list vec3 -> res color) (self self' : t) :
  set_data fs function self = Ok self' ->
  path_manager self' = path_manager self /\
  var1_list self' = var1_list self /\
  var2_list self' = var2_list self /\
  map (@length color) (data self') = map (@length color) (data self).
Proof.
  rewrite DataManagerFacts.set_data_cells.
  apply (for_each_preserves
           (fun s => path_manager s = path_manager self /\
                     var1_list s = var1_list self /\
                     var2_list s = var2_list self /\
                     map (@length color) (data s)
                     = map (@length color) (data self))).
  - intros cell s1 s2 (I1 & I2 & I3 & I4) E. unfold step in E.
    apply set_cell_shape in E as (E1 & E2 & E3 & E4).
    repeat split; congruence.
  - auto.
Qed.

(** *** A sweep over complete files *)

Section Complete.

Import SweepShape.

Variable fs : Lattice.file_system.
Variable function : Criteria.t -> list vec3 -> res color.
Variable pm : PathManager.t.
Variables first second : list float.
Variable N : Z.

Hypothesis Files : files_complete fs pm first second N.
Hypothesis Total :
  forall ctx spins, Criteria.well_formed ctx spins ->
                    exists c, function ctx spins = Ok c.

Lemma labelled_context (lat lat' : Lattice.t) :
  LatticeShape.aligned lat -> LatticeShape.neighbours_in_range lat ->
  Lattice.set_sublattice lat = Ok lat' ->
  bound_for (Lattice.n_atoms lat) (context_of lat').
Proof.
  intros (P & Ls & Lp & Lv & Lsub & _) R H spins L.
  pose proof (DataManagerFacts.set_sublattice_keeps _ _ H)
    as (_ & En & Ev & Ep & _).
  apply LatticeMore.set_sublattice_relabel in H as (seeded & Hs & Rl).
  pose proof (LatticeMore.relabel_length _ _ Rl) as Ll.
  rewrite (np_set_length _ _ _ _ Hs) in Ll.
  unfold Criteria.well_formed, context_of. simpl.
  rewrite En, Ev, Ep. repeat split; try congruence; try lia.
  exact R.
Qed.

Lemma step_complete (cell : (Z * float) * (Z * float)) (s : t) :
  In cell (list_prod (enumerate first) (enumerate second)) ->
  sweep_invariant pm first second N s ->
  exists s', step fs function cell s = Ok s' /\ sweep_invariant pm first second N s'.
Proof.
  destruct cell as [[j var1] [k var2]]. intros Hin (Hpm & (Ld & Fd) & Hc).
  apply in_prod_iff in Hin as [H1 H2].
  pose proof (CriteriaFacts.enumerate_bounds _ _ _ H1) as Bj.
  pose proof (CriteriaFacts.enumerate_bounds _ _ _ H2) as Bk.
  unfold enumerate in H1, H2.
  apply in_combine_r in H1. apply in_combine_r in H2.
  destruct (Files var1 var2 H1 H2) as (lat & Hl & Hn & R).
  unfold step, set_cell. cbn [fst snd]. rewrite Hpm.
  unfold cell_lattice in Hl. rewrite Hl. cbn [bind].
  pose proof (LatticeMore.load_files_inversion _ _ _ _ _ Hl)
    as (lines & sl & _ & _ & _ & P & Hsub & Lp & Lv & Lsp & Nth).
  assert (A : LatticeShape.aligned lat).
  { repeat split; try assumption.
    - rewrite Hsub. apply repeat_length.
    - apply LatticeMore.Forall_nth_error. intros i row Hi.
      assert (Hlt : (i < Z.to_nat (Lattice.n_atoms lat))%nat).
      { rewrite <- Lv. apply nth_error_Some. congruence. }
      destruct (Nth i Hlt) as (_ & Hv & _). rewrite Hv in Hi.
      injection Hi as <-.
      destruct (nth_error (Lattice.atom_lines lines) i)
        as [[pos [[a b] c]] |]; reflexivity. }
  assert (exists lat1 crit,
             (if (Criteria.len (criteria s) =? 0)%Z
              then lattice <- Lattice.set_sublattice lat ;;
                   Ok (lattice,
                       Criteria.set_values (criteria s)
                         (Lattice.n_atoms lattice) (Lattice.vecinos lattice)
                         (Lattice.sublattice lattice)
                         (Lattice.position lattice))
              else Ok (lat, criteria s)) = Ok (lat1, crit) /\
             Lattice.spins lat1 = Lattice.spins lat /\
             bound_for N crit) as (lat1 & crit & Hb & Hsp & Bc).
  { destruct (Criteria.len (criteria s) =? 0)%Z eqn:E.
    - destruct (LatticeMore.labelling_returns lat A R) as [lat' Hlab].
      rewrite Hlab. cbn [bind]. eexists _, _. split; [reflexivity |].
      split.
      + now apply DataManagerFacts.set_sublattice_keeps in Hlab.
      + rewrite <- Hn. now apply (labelled_context lat lat').
    - eexists _, _. split; [reflexivity |]. split; [reflexivity |].
      apply Z.eqb_neq in E. destruct Hc; [contradiction | assumption]. }
  rewrite Hb. cbn [bind].
  destruct (Total crit (Lattice.spins lat1)) as [c Hcol].
  { apply Bc. rewrite Hsp, Lsp. congruence. }
  rewrite Hcol. cbn [bind].
  destruct (CriteriaFacts.np_get_in_range (data s) j) as [row Hrow].
  { rewrite Ld. unfold Criteria.in_range. lia. }
  rewrite Hrow. cbn [bind].
  assert (Lrow : length row = length second).
  { eapply (LatticeMore.Forall_np_get
              (fun r : list color => length r = length second));
      eassumption. }
  destruct (LatticeMore.np_set_in_range_ok row k c) as [row' Hset].
  { rewrite Lrow. unfold Criteria.in_range. lia. }
  rewrite Hset. cbn [bind].
  destruct (LatticeMore.np_set_in_range_ok (data s) j row') as [d' Hd].
  { rewrite Ld. unfold Criteria.in_range. lia. }
  rewrite Hd. cbn [bind]. eexists. split; [reflexivity |].
  repeat split; cbn [path_manager data criteria].
  - rewrite (np_set_length _ _ _ _ Hd). exact Ld.
  - eapply LatticeMore.Forall_np_set; [exact Fd | | exact Hd].
    rewrite (np_set_length _ _ _ _ Hset). exact Lrow.
  - now right.
Qed.

Lemma sweep_complete :
  exists self', set_data fs function (init pm first second) = Ok self'.
Proof.
  rewrite DataManagerFacts.set_data_cells.
  destruct (CriteriaMore.for_each_keeps (sweep_invariant pm first second N) (step fs function)
              (cells (init pm first second)) (init pm first second))
    as (s' & Hs & _).
  - intros cell s0 Hin I0. now apply step_complete.
  - repeat split.
    + simpl. apply repeat_length.
    + simpl. apply Forall_forall. intros row Hr.
      apply repeat_spec in Hr. subst row. apply repeat_length.
    + now left.
  - eauto.
Qed.

End Complete.

Lemma rule_tables_return (sqrt : Q -> Q) (ctx : Criteria.t)
  (spins : list vec3) :
  Criteria.well_formed ctx spins ->
  (exists c,
      Criteria.data_ferro_and_align_with_domain_walls sqrt ctx spins = Ok c) /\
  (exists c, Criteria.data_ferro_spiral_skyrmions sqrt ctx spins = Ok c).
Proof.
  intros WF.
  destruct (CriteriaFacts.is_local_ferro_antiferro_total ctx spins WF)
    as [[fl al] Hl].
  destruct (CriteriaFacts.is_xyz_aligned_total ctx spins WF) as [[za xya] Hx].
  destruct (CriteriaFacts.is_ferro_z_aligned_total ctx spins WF) as [fz Hfz].
  destruct (CriteriaFacts.is_antiferro_z_aligned_total ctx spins WF)
    as [afz Hafz].
  destruct (CriteriaFacts.is_ferro_xy_aligned_total sqrt ctx spins WF)
    as [fxy Hfxy].
  destruct (CriteriaFacts.is_antiferro_xy_aligned_total sqrt ctx spins WF)
    as [afxy Hafxy].
  destruct (CriteriaFacts.is_random_total ctx spins WF) as [rnd Hrnd].
  destruct (CriteriaFacts.is_conical_total sqrt ctx spins WF)
    as [[lc gc] Hc].
  assert (Hd := CriteriaFacts.domain_wall_is_reference ctx spins
                  (proj1 (proj2 WF)) (proj1 (proj2 (proj2 WF)))).
  split.
  - unfold Criteria.data_ferro_and_align_with_domain_walls.
    rewrite Hl, Hx, Hd, Hfz, Hfxy, Hafz, Hafxy, Hrnd. cbn [bind].
    repeat match goal with
           | |- context [if ?b then _ else _] => destruct b
           end; eexists; reflexivity.
  - unfold Criteria.data_ferro_spiral_skyrmions.
    rewrite Hfz, Hfxy, Hafz, Hafxy, Hc. cbn [bind].
    repeat match goal with
           | |- context [if ?b then _ else _] => destruct b
           end; eexists; reflexivity.
Qed.

(** X18: when the structure file and the spin file of every cell of the grid
    exist, announce the same positive number of atoms and name only existing
    atoms as neighbours, a sweep of a fresh manager with either rule table
    runs to its end: no cell raises. *)
Theorem sweep_of_complete_files_returns (fs : Lattice.file_system)
  (sqrt : Q -> Q) (pm : PathManager.t) (first second : list float) (N : Z) :
  SweepShape.files_complete fs pm first second N ->
  (exists self',
      set_data fs (Criteria.data_ferro_and_align_with_domain_walls sqrt)
        (init pm first second) = Ok self') /\
  (exists self',
      set_data fs (Criteria.data_ferro_spiral_skyrmions sqrt)
        (init pm first second) = Ok self').
Proof.
  intros F. split.
  - apply (sweep_complete fs _ pm first second N F).
    intros ctx spins WF. apply (rule_tables_return sqrt ctx spins WF).
  - apply (sweep_complete fs _ pm first second N F).
    intros ctx spins WF. apply (rule_tables_return sqrt ctx spins WF).
Qed.

Import Examples.

Lemma set_data_empty_grid_witness :
  set_data fs_complete (Criteria.data_ferro_spiral_skyrmions sqrt_floor)
    (init example_manager [0%float] [])
  = Ok (init example_manager [0%float] []).
Proof.
  apply (set_data_empty_grid fs_complete
           (Criteria.data_ferro_spiral_skyrmions sqrt_floor)
           (init example_manager [0%float] [])).
  right. reflexivity.
Defined.

Lemma set_data_keeps_bound_context_witness :
  criteria sweep_1x2_result = criteria sweep_1x2_result /\
  Forall (classified fs_complete
            (Criteria.data_ferro_spiral_skyrmions sqrt_floor)
            (criteria sweep_1x2_result) (path_manager sweep_1x2_result)
            sweep_1x2_result)
         (cells sweep_1x2_result).
Proof.
  apply (set_data_keeps_bound_context fs_complete
           (Criteria.data_ferro_spiral_skyrmions sqrt_floor)
           sweep_1x2_result sweep_1x2_result).
  - vm_compute. discriminate.
  - vm_compute. reflexivity.
Defined.

Lemma set_data_keeps_shape_witness :
  path_manager sweep_1x2_result = path_manager sweep_1x2 /\
  var1_list sweep_1x2_result = var1_list sweep_1x2 /\
  var2_list sweep_1x2_result = var2_list sweep_1x2 /\
  map (@length color) (data sweep_1x2_result)
  = map (@length color) (data sweep_1x2).
Proof.
  apply (set_data_keeps_shape fs_complete
           (Criteria.data_ferro_spiral_skyrmions sqrt_floor)
           sweep_1x2 sweep_1x2_result).
  vm_compute. reflexivity.
Defined.

Lemma sweep_of_complete_files_returns_witness :
  (exists self',
      set_data fs_complete
        (Criteria.data_ferro_and_align_with_domain_walls sqrt_floor)
        (init example_manager [0%float] [0%float; 1%float]) = Ok self') /\
  (exists self',
      set_data fs_complete (Criteria.data_ferro_spiral_skyrmions sqrt_floor)
        (init example_manager [0%float] [0%float; 1%float]) = Ok self').
Proof.
  apply (sweep_of_complete_files_returns fs_complete sqrt_floor
           example_manager [0%float] [0%float; 1%float] 2).
  intros var1 var2 [<- | []] [<- | [<- | []]];
    eexists; (split; [vm_compute; reflexivity |]);
    (split; [reflexivity |]);
    unfold LatticeShape.neighbours_in_range; simpl;
    repeat constructor; unfold Criteria.in_range; simpl; lia.
Defined.

End DataManagerMore.

(** ** The phase diagram *)

Module PlotterFacts.

Import Plotter SweepShape.

Lemma np_get_short {A : Type} (l : list A) :
  (length l < 2)%nat -> np_get l 1 = Raise IndexError.
Proof.
  destruct l as [| x [| y l]]; simpl; intros H; try reflexivity. lia.
Qed.

Lemma np_get_ends {A : Type} (l : list A) :
  (2 <= length l)%nat ->
  exists a0 a1 hi,
    np_get l 1 = Ok a1 /\ np_get l 0 = Ok a0 /\ np_get l (-1) = Ok hi.
Proof.
  intros H.
  destruct (CriteriaFacts.np_get_in_range l 1) as [a1 H1];
    [unfold Criteria.in_range; lia |].
  destruct (CriteriaFacts.np_get_in_range l 0) as [a0 H0];
    [unfold Criteria.in_range; lia |].
  destruct (CriteriaFacts.np_get_in_range l (-1)) as [hi Hh];
    [unfold Criteria.in_range; lia |].
  eauto 7.
Qed.

(** X19: the half steps [dx] and [dy] are taken from the first two values of
    each variable: with fewer than two values of either variable, whatever
    the colours, [plot_phase_diagram] raises IndexError and saves nothing. *)
Theorem plot_needs_two_values (self : t) :
  (length (var1_list self) < 2)%nat \/ (length (var2_list self) < 2)%nat ->
  plot_phase_diagram self = Raise IndexError.
Proof.
  intros H. unfold plot_phase_diagram.
  destruct (Nat.lt_ge_cases (length (var2_list self)) 2) as [S2 | L2].
  - now rewrite (np_get_short _ S2).
  - destruct (np_get_ends _ L2) as (b0 & b1 & hi & -> & -> & _).
    cbn [bind]. destruct H as [S1 | S2]; [| lia].
    now rewrite (np_get_short _ S1).
Qed.

Lemma pixel_in_grid (self : t) (j k : Z) :
  grid_shape (var1_list self) (var2_list self) (data self) ->
  (0 <= j < Z.of_nat (length (var1_list self)))%Z ->
  (0 <= k < Z.of_nat (length (var2_list self)))%Z ->
  exists c, pixel self j k = Ok c.
Proof.
  intros [Ld Fd] Hj Hk. unfold pixel.
  destruct (CriteriaFacts.np_get_in_range (data self) j) as [row Hrow].
  { rewrite Ld. unfold Criteria.in_range. lia. }
  rewrite Hrow. cbn [bind].
  apply CriteriaFacts.np_get_in_range.
  rewrite (LatticeMore.Forall_np_get
             (fun r : list color => length r = length (var2_list self))
             _ _ _ Fd Hrow).
  unfold Criteria.in_range. lia.
Qed.

Lemma for_each_bounded {A S : Type} (I : S -> Prop) (m : S -> nat)
  (w : A -> nat) (f : A -> S -> res S) (xs : list A) (s : S) :
  (forall x s0, In x xs -> I s0 ->
                exists s', f x s0 = Ok s' /\ I s' /\ (m s' <= m s0 + w x)%nat) ->
  I s ->
  exists s', for_each f xs s = Ok s' /\ I s' /\
             (m s' <= m s + list_sum (map w xs))%nat.
Proof.
  revert s. induction xs as [| x xs IH]; intros s H Hs.
  - exists s. simpl. repeat split; [assumption | lia].
  - destruct (H x s (or_introl eq_refl) Hs) as (s1 & E1 & I1 & M1).
    destruct (IH s1) as (s2 & E2 & I2 & M2); [| assumption |].
    + intros y s0 Hy. apply H. now right.
    + exists s2. simpl. rewrite E1. cbn [bind].
      repeat split; [assumption | assumption | lia].
Qed.

Lemma list_sum_const {A : Type} (w : A -> nat) (c : nat) (l : list A) :
  (forall x, In x l -> w x = c) -> list_sum (map w l) = (c * length l)%nat.
Proof.
  induction l as [| x l IH]; intros H; simpl; [lia |].
  rewrite (H x (or_introl eq_refl)), IH; [lia |].
  intros y Hy. apply H. now right.
Qed.

Lemma sum_inner (n c : nat) :
  list_sum (map (inner n c) (map Z.of_nat (seq 0 n)))
  = (c * n + (n - 1))%nat.
Proof.
  destruct n as [| m]; [simpl; lia |].
  rewrite seq_S, !map_app, list_sum_app. cbn [map Nat.add].
  rewrite (list_sum_const (inner (S m) c) (c + 1)).
  - rewrite !length_map, length_seq. unfold inner.
    replace (Z.of_nat m =? Z.of_nat (S m) - 1)%Z with true
      by (symmetry; apply Z.eqb_eq; lia).
    unfold list_sum. cbn [fold_right]. lia.
  - intros i Hi. apply in_map_iff in Hi as (a & <- & Ha).
    apply in_seq in Ha. unfold inner.
    replace (Z.of_nat a =? Z.of_nat (S m) - 1)%Z with false
      by (symmetry; apply Z.eqb_neq; lia).
    reflexivity.
Qed.

Lemma sum_line {A : Type} (l : list A) (c : nat) :
  list_sum (map (fun kv : Z * A => inner (length l) c (fst kv)) (enumerate l))
  = (c * length l + (length l - 1))%nat.
Proof.
  rewrite <- (map_map fst (inner (length l) c)),
    DataManagerFacts.enumerate_fst.
  apply sum_inner.
Qed.

Lemma mark_cell_bounded (self : t) (dx dy : float) (j : Z) (var1 : float)
  (kv : Z * float) (ls : lines) :
  grid_shape (var1_list self) (var2_list self) (data self) ->
  (0 <= j < Z.of_nat (length (var1_list self)))%Z ->
  In kv (enumerate (var2_list self)) ->
  balanced ls ->
  exists ls',
    mark_cell self dx dy j var1 kv ls = Ok ls' /\ balanced ls' /\
    (length (x_lines ls')
     <= length (x_lines ls)
        + inner (length (var2_list self))
            (if (j =? Z.of_nat (length (var1_list self)) - 1)%Z
             then 0 else 1) (fst kv))%nat.
Proof.
  intros G Hj Hin B. destruct kv as [k var2].
  pose proof (CriteriaFacts.enumerate_bounds _ _ _ Hin) as Hk.
  unfold mark_cell, inner. cbn [fst].
  destruct (pixel_in_grid self j k G Hj Hk) as [a Ha].
  assert (exists ls1,
             (if negb (j =? Z.of_nat (length (var1_list self)) - 1)%Z
              then a <- pixel self j k ;;
                   b <- pixel self (j + 1) k ;;
                   if negb (same_color a b)
                   then Ok (mk_lines
                              (x_lines ls
                               ++ [((var2 - dx)%float, (var2 + dx)%float)])
                              (y_lines ls
                               ++ [((var1 + dy)%float, (var1 + dy)%float)]))
                   else Ok ls
              else Ok ls) = Ok ls1 /\ balanced ls1 /\
             (length (x_lines ls1)
              <= length (x_lines ls)
                 + (if (j =? Z.of_nat (length (var1_list self)) - 1)%Z
                    then 0 else 1))%nat) as (ls1 & -> & B1 & M1).
  { destruct (j =? Z.of_nat (length (var1_list self)) - 1)%Z eqn:E;
      cbn [negb].
    - exists ls. repeat split; [assumption | lia].
    - apply Z.eqb_neq in E.
      destruct (pixel_in_grid self (j + 1) k G) as [b Hb]; [lia | lia |].
      rewrite Ha, Hb. cbn [bind].
      destruct (same_color a b); cbn [negb].
      + exists ls. repeat split; [assumption | lia].
      + eexists. split; [reflexivity |]. unfold balanced in *.
        cbn [x_lines y_lines]. rewrite !length_app. simpl. lia. }
  cbn [bind].
  destruct (k =? Z.of_nat (length (var2_list self)) - 1)%Z eqn:E;
    cbn [negb].
  - exists ls1. repeat split; [assumption | lia].
  - apply Z.eqb_neq in E.
    destruct (pixel_in_grid self j (k + 1) G) as [b Hb]; [lia | lia |].
    rewrite Ha, Hb. cbn [bind].
    destruct (same_color a b); cbn [negb].
    + exists ls1. repeat split; [assumption | lia].
    + destruct (CriteriaFacts.np_get_in_range (var2_list self) k)
        as [v2 ->]; [unfold Criteria.in_range; lia |].
      destruct (CriteriaFacts.np_get_in_range (var1_list self) j)
        as [v1 ->]; [unfold Criteria.in_range; lia |].
      cbn [bind]. eexists. split; [reflexivity |]. unfold balanced in *.
      cbn [x_lines y_lines]. rewrite !length_app. simpl. lia.
Qed.

Lemma mark_lines_bounded (self : t) (dx dy : float) :
  grid_shape (var1_list self) (var2_list self) (data self) ->
  exists ls,
    mark_lines self dx dy = Ok ls /\ balanced ls /\
    (length (x_lines ls)
     <= adjacent_pairs (length (var1_list self)) (length (var2_list self)))%nat.
Proof.
  intros G. unfold mark_lines.
  destruct (for_each_bounded balanced (fun ls => length (x_lines ls))
              (fun jv : Z * float =>
                 inner (length (var1_list self)) 0 (fst jv)
                 * length (var2_list self)
                 + (length (var2_list self) - 1))%nat
              (fun (jv : Z * float) (ls : lines) =>
                 for_each (mark_cell self dx dy (fst jv) (snd jv))
                          (enumerate (var2_list self)) ls)
              (enumerate (var1_list self)) (mk_lines [] []))
    as (ls & E & B & M).
  - intros [j var1] ls0 Hin B0. cbn [fst snd].
    pose proof (CriteriaFacts.enumerate_bounds _ _ _ Hin) as Hj.
    destruct (for_each_bounded balanced (fun ls => length (x_lines ls))
                (fun kv : Z * float =>
                   inner (length (var2_list self))
                         (if (j =? Z.of_nat (length (var1_list self)) - 1)%Z
                          then 0 else 1) (fst kv))
                (mark_cell self dx dy j var1)
                (enumerate (var2_list self)) ls0) as (ls1 & E1 & B1 & M1).
    + intros kv s0 Hk Bs. now apply mark_cell_bounded.
    + assumption.
    + rewrite sum_line in M1. exists ls1. repeat split; assumption.
  - reflexivity.
  - exists ls. repeat split; try assumption.
    etransitivity; [exact M |]. cbn [x_lines length Nat.add].
    unfold adjacent_pairs.
    set (n1 := length (var1_list self)). set (n2 := length (var2_list self)).
    assert (S2 : forall l : list (Z * float),
               list_sum (map (fun jv : Z * float =>
                                (inner n1 0 (fst jv) * n2 + (n2 - 1))%nat) l)
               = (list_sum (map (fun jv : Z * float => inner n1 0 (fst jv)) l)
                  * n2 + length l * (n2 - 1))%nat).
    { induction l as [| x l IH]; simpl; [reflexivity |]. rewrite IH. lia. }
    rewrite S2. subst n1. rewrite sum_line.
    unfold enumerate. rewrite length_combine, length_map, length_seq.
    rewrite Nat.min_id. lia.
Qed.

Lemma plot_grid (self : t) :
  grid_shape (var1_list self) (var2_list self) (data self) ->
  (2 <= length (var1_list self))%nat -> (2 <= length (var2_list self))%nat ->
  exists fig,
    plot_phase_diagram self = Ok fig /\
    image fig = rev (data self) /\
    (length (segments fig)
     <= adjacent_pairs (length (var1_list self)) (length (var2_list self)))%nat.
Proof.
  intros G L1 L2. unfold plot_phase_diagram.
  destruct (np_get_ends _ L2) as (b0 & b1 & bh & -> & -> & ->).
  destruct (np_get_ends _ L1) as (a0 & a1 & ah & -> & -> & ->).
  cbn [bind].
  destruct (mark_lines_bounded self ((b1 - b0) / 2)%float
              ((a1 - a0) / 2)%float G) as (ls & -> & B & M).
  cbn [bind]. eexists. split; [reflexivity |].
  cbn [image segments]. split; [reflexivity |].
  rewrite length_combine. lia.
Qed.

(** X20: when the colour grid has one row per value of the first variable
    and one colour per value of the second, and each variable takes at least
    two values, [plot_phase_diagram] returns: no index leaves the grid.  The
    image is the grid with its rows reversed, and there are at most as many
    black segments as pairs of adjacent cells. *)
Theorem plot_phase_diagram_returns (self : t) :
  grid_shape (var1_list self) (var2_list self) (data self) ->
  (2 <= length (var1_list self))%nat -> (2 <= length (var2_list self))%nat ->
  exists fig,
    plot_phase_diagram self = Ok fig /\
    image fig = rev (data self) /\
    (length (segments fig)
     <= adjacent_pairs (length (var1_list self)) (length (var2_list self)))%nat.
Proof. exact (plot_grid self). Qed.

Lemma same_color_through (a b c : color) :
  same_color a c = true -> same_color b c = true -> same_color a b = true.
Proof.
  unfold same_color. intros Ha Hb.
  destruct (Qeq_bool (vx a) (vx c) && Qeq_bool (vy a) (vy c)
            && Qeq_bool (vz a) (vz c)) eqn:Ea; [| discriminate].
  destruct (Qeq_bool (vx b) (vx c) && Qeq_bool (vy b) (vy c)
            && Qeq_bool (vz b) (vz c)) eqn:Eb; [| discriminate].
  apply andb_prop in Ea as [Ea Ea3]. apply andb_prop in Ea as [Ea1 Ea2].
  apply andb_prop in Eb as [Eb Eb3]. apply andb_prop in Eb as [Eb1 Eb2].
  apply Qeq_bool_iff in Ea1, Ea2, Ea3, Eb1, Eb2, Eb3.
  replace (Qeq_bool (vx a) (vx b)) with true
    by (symmetry; apply Qeq_bool_iff; now rewrite Ea1, Eb1).
  replace (Qeq_bool (vy a) (vy b)) with true
    by (symmetry; apply Qeq_bool_iff; now rewrite Ea2, Eb2).
  replace (Qeq_bool (vz a) (vz b)) with true
    by (symmetry; apply Qeq_bool_iff; now rewrite Ea3, Eb3).
  reflexivity.
Qed.

Lemma pixel_in_table (P : color -> Prop) (self : t) (j k : Z) (a : color) :
  Forall (Forall P) (data self) -> pixel self j k = Ok a -> P a.
Proof.
  intros F H. unfold pixel in H. apply bind_Ok in H as (row & Hr & Ha).
  eapply LatticeMore.Forall_np_get; [| exact Ha].
  eapply (LatticeMore.Forall_np_get (Forall P)); eassumption.
Qed.

Lemma mark_cell_one_colour (self : t) (c : color) (dx dy : float) (j : Z)
  (var1 : float) (kv : Z * float) :
  grid_shape (var1_list self) (var2_list self) (data self) ->
  Forall (Forall (fun p => same_color p c = true)) (data self) ->
  (0 <= j < Z.of_nat (length (var1_list self)))%Z ->
  In kv (enumerate (var2_list self)) ->
  mark_cell self dx dy j var1 kv (mk_lines [] []) = Ok (mk_lines [] []).
Proof.
  intros G U Hj Hin. destruct kv as [k var2].
  pose proof (CriteriaFacts.enumerate_bounds _ _ _ Hin) as Hk.
  unfold mark_cell.
  destruct (pixel_in_grid self j k G Hj Hk) as [a Ha].
  pose proof (pixel_in_table _ self j k a U Ha) as Ca. cbv beta in Ca.
  assert (E1 : (if negb (j =? Z.of_nat (length (var1_list self)) - 1)%Z
                then a <- pixel self j k ;;
                     b <- pixel self (j + 1) k ;;
                     if negb (same_color a b)
                     then Ok (mk_lines
                                (x_lines (mk_lines [] [])
                                 ++ [((var2 - dx)%float, (var2 + dx)%float)])
                                (y_lines (mk_lines [] [])
                                 ++ [((var1 + dy)%float, (var1 + dy)%float)]))
                     else Ok (mk_lines [] [])
                else Ok (mk_lines [] [])) = Ok (mk_lines [] [])).
  { destruct (j =? Z.of_nat (length (var1_list self)) - 1)%Z eqn:E;
      cbn [negb]; [reflexivity |].
    apply Z.eqb_neq in E.
    destruct (pixel_in_grid self (j + 1) k G) as [b Hb]; [lia | lia |].
    pose proof (pixel_in_table _ self (j + 1) k b U Hb) as Cb. cbv beta in Cb.
    rewrite Ha, Hb. cbn [bind].
    now rewrite (same_color_through a b c Ca Cb). }
  rewrite E1. cbn [bind].
  destruct (k =? Z.of_nat (length (var2_list self)) - 1)%Z eqn:E;
    cbn [negb]; [reflexivity |].
  apply Z.eqb_neq in E.
  destruct (pixel_in_grid self j (k + 1) G) as [b Hb]; [lia | lia |].
  pose proof (pixel_in_table _ self j (k + 1) b U Hb) as Cb. cbv beta in Cb.
  rewrite Ha, Hb. cbn [bind].
  now rewrite (same_color_through a b c Ca Cb).
Qed.

(** X21: a grid of one colour has no boundary: when every cell of a grid of
    the right shape has the colour [c], the figure holds no black segment.
    This is the diagram of a plotter whose [data] was never assigned. *)
Theorem one_colour_no_segment (self : t) (c : color) :
  grid_shape (var1_list self) (var2_list self) (data self) ->
  Forall (Forall (fun p => same_color p c = true)) (data self) ->
  (2 <= length (var1_list self))%nat -> (2 <= length (var2_list self))%nat ->
  exists fig, plot_phase_diagram self = Ok fig /\ segments fig = [].
Proof.
  intros G U L1 L2. unfold plot_phase_diagram.
  destruct (np_get_ends _ L2) as (b0 & b1 & bh & -> & -> & ->).
  destruct (np_get_ends _ L1) as (a0 & a1 & ah & -> & -> & ->).
  cbn [bind]. unfold mark_lines.
  destruct (CriteriaMore.for_each_keeps (fun ls => ls = mk_lines [] [])
              (fun (jv : Z * float) (ls : lines) =>
                 for_each (mark_cell self ((b1 - b0) / 2)%float
                             ((a1 - a0) / 2)%float (fst jv) (snd jv))
                          (enumerate (var2_list self)) ls)
              (enumerate (var1_list self)) (mk_lines [] []))
    as (ls & -> & ->).
  - intros [j var1] s0 Hin ->. cbn [fst snd].
    pose proof (CriteriaFacts.enumerate_bounds _ _ _ Hin) as Hj.
    apply CriteriaMore.for_each_keeps; [| reflexivity].
    intros kv s1 Hk ->. eexists. split; [| reflexivity].
    now apply (mark_cell_one_colour self c).
  - reflexivity.
  - cbn [bind]. eexists. split; reflexivity.
Qed.

Lemma grid_shape_of_lengths (first second : list float)
  (d : list (list color)) :
  map (@length color) d
  = map (@length color)
        (repeat (repeat (0, 0, 0) (length second)) (length first)) ->
  grid_shape first second d.
Proof.
  intros H. split.
  - apply (f_equal (@length nat)) in H.
    now rewrite !length_map, repeat_length in H.
  - apply Forall_forall. intros row Hr.
    apply (in_map (@length color)) in Hr. rewrite H in Hr.
    apply in_map_iff in Hr as (r & <- & Hr).
    apply repeat_spec in Hr. subst r. apply repeat_length.
Qed.

(** X22: the sweep and the plot compose: the colour grid that a sweep of a
    fresh manager leaves, assigned to a plotter built on the same two lists
    of at least two values, is plotted without an error, and the image is
    that grid with its rows reversed. *)
Theorem sweep_then_plot (fs : Lattice.file_system)
  (function : Criteria.t -> list vec3 -> res color) (pm : PathManager.t)
  (first second : list float) (ticks_first ticks_second : Z)
  (manager : DataManager.t) :
  DataManager.set_data fs function (DataManager.init pm first second)
  = Ok manager ->
  (2 <= length first)%nat -> (2 <= length second)%nat ->
  exists fig,
    plot_phase_diagram
      (set_data_attribute (init pm first second ticks_first ticks_second)
                          (DataManager.data manager)) = Ok fig /\
    image fig = rev (DataManager.data manager) /\
    (length (segments fig)
     <= adjacent_pairs (length first) (length second))%nat.
Proof.
  intros H L1 L2.
  apply (plot_grid
           (set_data_attribute (init pm first second ticks_first ticks_second)
                               (DataManager.data manager)));
    try assumption.
  cbn [set_data_attribute init var1_list var2_list data].
  apply grid_shape_of_lengths.
  rewrite DataManagerFacts.set_data_cells in H.
  apply (DataManagerMore.for_each_preserves
           (fun s => map (@length color) (DataManager.data s)
                     = map (@length color)
                           (repeat (repeat (0, 0, 0) (length second))
                                   (length first)))
           (DataManager.step fs function)
           (DataManager.cells (DataManager.init pm first second))
           (DataManager.init pm first second) manager).
  - intros cell s1 s2 I1 E. unfold DataManager.step in E.
    apply DataManagerMore.set_cell_shape in E as (_ & _ & _ & E).
    congruence.
  - reflexivity.
  - exact H.
Qed.

Import Examples MoreExamples.

Lemma plot_needs_two_values_witness :
  plot_phase_diagram (init example_manager [0%float] [0%float; 1%float] 5 5)
  = Raise IndexError.
Proof.
  apply (plot_needs_two_values
           (init example_manager [0%float] [0%float; 1%float] 5 5)).
  left. simpl. lia.
Defined.

Lemma plot_phase_diagram_returns_witness :
  exists fig,
    plot_phase_diagram (set_data_attribute plotter_2x2 two_phases) = Ok fig /\
    image fig = rev (data (set_data_attribute plotter_2x2 two_phases)) /\
    (length (segments fig)
     <= adjacent_pairs
          (length (var1_list (set_data_attribute plotter_2x2 two_phases)))
          (length (var2_list (set_data_attribute plotter_2x2 two_phases))))%nat.
Proof.
  apply (plot_phase_diagram_returns
           (set_data_attribute plotter_2x2 two_phases)).
  - split; [reflexivity |]. simpl. repeat constructor.
  - simpl. lia.
  - simpl. lia.
Defined.

Lemma one_colour_no_segment_witness :
  exists fig, plot_phase_diagram plotter_2x2 = Ok fig /\ segments fig = [].
Proof.
  apply (one_colour_no_segment plotter_2x2 (0, 0, 0)).
  - split; [reflexivity |]. simpl. repeat constructor.
  - simpl. repeat constructor.
  - simpl. lia.
  - simpl. lia.
Defined.

Lemma sweep_then_plot_witness :
  exists fig,
    plot_phase_diagram
      (set_data_attribute
         (init example_manager [0%float; 1%float] [0%float; 1%float] 5 5)
         (DataManager.data sweep_2x2_result)) = Ok fig /\
    image fig = rev (DataManager.data sweep_2x2_result) /\
    (length (segments fig) <= adjacent_pairs 2 2)%nat.
Proof.
  apply (sweep_then_plot triangle_fs
           (Criteria.data_ferro_spiral_skyrmions sqrt_floor)
           example_manager [0%float; 1%float] [0%float; 1%float] 5 5
           sweep_2x2_result).
  - vm_compute. reflexivity.
  - simpl. lia.
  - simpl. lia.
Defined.

(** The figure of the grid of two colours: the cell of the other colour is
    cut off by one horizontal and one vertical segment. *)
Lemma two_phases_figure :
  exists fig,
    plot_phase_diagram (set_data_attribute plotter_2x2 two_phases) = Ok fig /\
    extent fig = ((-0.5)%float, 1.5%float, (-0.5)%float, 1.5%float) /\
    segments fig = [((0.5%float, 1.5%float), (0.5%float, 0.5%float));
                    ((0.5%float, 0.5%float), (0.5%float, 1.5%float))] /\
    xlabel fig = "K [meV]"%string /\ ylabel fig = "DM [meV]"%string /\
    xticks fig = [0%float; 5%float].
Proof. eexists. split; [vm_compute; reflexivity |]. repeat split. Qed.

End PlotterFacts.

(** ** The drawing of a lattice *)

Module GraphMakerFacts.

Import GraphMaker Drawing.

Lemma get_vpython_vector_same (v : vec3) : get_vpython_vector v = v.
Proof. now destruct v as [[x y] z]. Qed.

Lemma draw_loop (lat : Lattice.t) (s : Z) (m a : nat)
  (acc : list sphere * list arrow) :
  length (Lattice.position lat) = (a + m)%nat ->
  length (Lattice.spins lat) = (a + m)%nat ->
  length (Lattice.sublattice lat) = (a + m)%nat ->
  for_each (draw_atom lat s) (map Z.of_nat (seq a m)) acc
  = Ok (fst acc ++ map ball_of (filter (shown s) (skipn a (atoms lat))),
        snd acc ++ map arrow_of (filter (shown s) (skipn a (atoms lat)))).
Proof.
  revert a acc. induction m as [| m IH]; intros a acc Lp Ls Ll.
  - simpl. rewrite skipn_all2.
    + simpl. rewrite !app_nil_r. now destruct acc.
    + unfold atoms. rewrite !length_combine. lia.
  - destruct (nth_error_in_range (Lattice.position lat) a) as [p Hp];
      [lia |].
    destruct (nth_error_in_range (Lattice.spins lat) a) as [sp Hsp]; [lia |].
    destruct (nth_error_in_range (Lattice.sublattice lat) a) as [l Hl];
      [lia |].
    assert (Ha : nth_error (atoms lat) a = Some (p, sp, l)).
    { unfold atoms. rewrite !nth_error_combine. now rewrite Hp, Hsp, Hl. }
    rewrite (skipn_nth_error _ _ _ Ha).
    cbn [seq map for_each]. unfold draw_atom at 1.
    rewrite (np_get_of_nat _ _ _ Hl). cbn [bind].
    cbn [filter].
    change ((s =? 0)%Z || (s =? l)%Z) with (shown s (p, sp, l)).
    destruct (shown s (p, sp, l)); cbn [negb].
    + rewrite (np_get_of_nat _ _ _ Hp), (np_get_of_nat _ _ _ Hsp).
      cbn [bind]. cbv zeta. rewrite !get_vpython_vector_same.
      rewrite IH by lia. cbn [fst snd map].
      rewrite <- !app_assoc. reflexivity.
    + cbn [bind]. rewrite IH by lia. reflexivity.
Qed.

Lemma draw_all (lat : Lattice.t) (s : Z) :
  length (Lattice.position lat) = Z.to_nat (Lattice.n_atoms lat) ->
  length (Lattice.spins lat) = Z.to_nat (Lattice.n_atoms lat) ->
  length (Lattice.sublattice lat) = Z.to_nat (Lattice.n_atoms lat) ->
  for_each (draw_atom lat s) (range (Lattice.n_atoms lat)) ([], [])
  = Ok (map ball_of (filter (shown s) (atoms lat)),
        map arrow_of (filter (shown s) (atoms lat))).
Proof.
  intros Lp Ls Ll. unfold range.
  now rewrite (draw_loop lat s (Z.to_nat (Lattice.n_atoms lat)) 0 ([], [])).
Qed.

Lemma load_files_missing_keeps (fs : Lattice.file_system)
  (self lat : Lattice.t) (structure_path spin_path path : string) :
  Lattice.load_files fs self structure_path spin_path
  = Ok (lat, Lattice.FileNotFound path) ->
  lat = self.
Proof.
  unfold Lattice.load_files. intros H.
  destruct (Lattice.open_structure fs structure_path) as [lines |].
  - destruct (Lattice.open_spins fs spin_path) as [sl |].
    + exfalso.
      destruct (Lattice.header_n_atoms lines <? 0)%Z; [discriminate |].
      apply bind_Ok in H as ([p1 v1] & _ & H).
      apply bind_Ok in H as (s1 & _ & H).
      apply bind_Ok in H as (hi & _ & H).
      apply bind_Ok in H as (lo & _ & H). discriminate.
    + now injection H as <- _.
  - now injection H as <- _.
Qed.

Lemma init_inversion (fs : Lattice.file_system)
  (structure_file spin_file : string) (g : t) (rep : Lattice.report) :
  init fs structure_file spin_file = Ok (g, rep) ->
  g = mk (lattice g) None /\
  Lattice.load_files fs Lattice.init structure_file spin_file
  = Ok (lattice g, rep).
Proof.
  unfold init. intros H. apply bind_Ok in H as ([lat r] & E & H).
  injection H as <- <-. split; [reflexivity | exact E].
Qed.

(** What [__init__] leaves: arrays of [n_atoms] entries and no label. *)
Lemma init_lengths (fs : Lattice.file_system)
  (structure_file spin_file : string) (g : t) (rep : Lattice.report) :
  init fs structure_file spin_file = Ok (g, rep) ->
  length (Lattice.position (lattice g))
  = Z.to_nat (Lattice.n_atoms (lattice g)) /\
  length (Lattice.spins (lattice g))
  = Z.to_nat (Lattice.n_atoms (lattice g)) /\
  Lattice.sublattice (lattice g)
  = repeat 0%Z (Z.to_nat (Lattice.n_atoms (lattice g))).
Proof.
  intros H. apply init_inversion in H as [_ H]. destruct rep as [| path].
  - apply LatticeMore.load_files_inversion in H
      as (lines & sl & _ & _ & _ & _ & Hsub & Lp & _ & Lsp & _).
    auto.
  - apply load_files_missing_keeps in H. rewrite H. repeat split.
Qed.

Lemma filter_all {A : Type} (f : A -> bool) (l : list A) :
  (forall x, In x l -> f x = true) -> filter f l = l.
Proof.
  induction l as [| x l IH]; intros H; simpl; [reflexivity |].
  rewrite (H x (or_introl eq_refl)), IH; [reflexivity |].
  intros y Hy. apply H. now right.
Qed.

Lemma filter_none {A : Type} (f : A -> bool) (l : list A) :
  (forall x, In x l -> f x = false) -> filter f l = [].
Proof.
  induction l as [| x l IH]; intros H; simpl; [reflexivity |].
  rewrite (H x (or_introl eq_refl)). apply IH.
  intros y Hy. apply H. now right.
Qed.

(** X23: [plot_spins(0)] after [__init__], whatever [load_files] found, never
    raises, labels nothing and draws one sphere and one arrow for every atom,
    in the order of the files. *)
Theorem plot_spins_draws_every_atom (fs : Lattice.file_system)
  (structure_file spin_file : string) (g : t) (rep : Lattice.report) :
  init fs structure_file spin_file = Ok (g, rep) ->
  plot_spins g 0
  = Ok (g, map ball_of (atoms (lattice g)), map arrow_of (atoms (lattice g)))
  /\ length (atoms (lattice g)) = Z.to_nat (Lattice.n_atoms (lattice g)).
Proof.
  intros H. pose proof (init_lengths _ _ _ _ _ H) as (Lp & Ls & Hsub).
  assert (Ll : length (Lattice.sublattice (lattice g))
               = Z.to_nat (Lattice.n_atoms (lattice g))).
  { rewrite Hsub. apply repeat_length. }
  split.
  - unfold plot_spins. cbn [Z.eqb negb bind].
    rewrite (draw_all (lattice g) 0 Lp Ls Ll). cbn [bind].
    rewrite (filter_all (shown 0)) by reflexivity.
    now destruct g.
  - unfold atoms. rewrite !length_combine. lia.
Qed.

Lemma labelled_lengths (lat lat' : Lattice.t) :
  length (Lattice.position lat) = Z.to_nat (Lattice.n_atoms lat) ->
  length (Lattice.spins lat) = Z.to_nat (Lattice.n_atoms lat) ->
  Lattice.sublattice lat = repeat 0%Z (Z.to_nat (Lattice.n_atoms lat)) ->
  Lattice.set_sublattice lat = Ok lat' ->
  length (Lattice.position lat') = Z.to_nat (Lattice.n_atoms lat') /\
  length (Lattice.spins lat') = Z.to_nat (Lattice.n_atoms lat') /\
  length (Lattice.sublattice lat') = Z.to_nat (Lattice.n_atoms lat') /\
  Forall LatticeShape.three_valued (Lattice.sublattice lat').
Proof.
  intros Lp Ls Hsub H.
  pose proof (DataManagerFacts.set_sublattice_keeps _ _ H)
    as (Es & En & _ & Ep & _).
  apply LatticeMore.set_sublattice_relabel in H as (seeded & Hs & Rl).
  pose proof (LatticeMore.relabel_length _ _ Rl) as Ll.
  rewrite (np_set_length _ _ _ _ Hs), Hsub, repeat_length in Ll.
  rewrite Es, En, Ep. repeat split; try assumption.
  apply (LatticeMore.relabel_three_valued seeded); [exact Rl |].
  apply (LatticeMore.Forall_np_set LatticeShape.three_valued
           (Lattice.sublattice lat) seeded 0 1%Z).
  - rewrite Hsub. apply Forall_forall. intros l Hl.
    apply repeat_spec in Hl. subst l. right. now left.
  - right. now right.
  - exact Hs.
Qed.

Lemma plot_one_sublattice (fs : Lattice.file_system)
  (structure_file spin_file : string) (g : t) (s : Z) :
  init fs structure_file spin_file = Ok (g, Lattice.Silent) ->
  LatticeShape.neighbours_in_range (lattice g) ->
  s <> 0%Z ->
  exists lat',
    Lattice.set_sublattice (lattice g) = Ok lat' /\
    Forall LatticeShape.three_valued (Lattice.sublattice lat') /\
    plot_spins g s
    = Ok (mk lat' (scene g),
          map ball_of (filter (fun a => (s =? snd a)%Z) (atoms lat')),
          map arrow_of (filter (fun a => (s =? snd a)%Z) (atoms lat'))).
Proof.
  intros H R Hs. pose proof (init_lengths _ _ _ _ _ H) as (Lp & Ls & Hsub).
  pose proof (init_inversion _ _ _ _ _ H) as [_ Hload].
  apply LatticeMore.load_files_inversion in Hload
    as (lines & sl & _ & _ & _ & P & _ & _ & Lv & _ & Nth).
  assert (A : LatticeShape.aligned (lattice g)).
  { repeat split; try assumption.
    - rewrite Hsub. apply repeat_length.
    - apply LatticeMore.Forall_nth_error. intros i row Hi.
      assert (Hlt : (i < Z.to_nat (Lattice.n_atoms (lattice g)))%nat).
      { rewrite <- Lv. apply nth_error_Some. congruence. }
      destruct (Nth i Hlt) as (_ & Hv & _). rewrite Hv in Hi.
      injection Hi as <-.
      destruct (nth_error (Lattice.atom_lines lines) i)
        as [[pos [[a b] c]] |]; reflexivity. }
  destruct (LatticeMore.labelling_returns (lattice g) A R)
    as [lat' Hlab].
  destruct (labelled_lengths _ _ Lp Ls Hsub Hlab) as (Lp' & Ls' & Ll' & T).
  exists lat'. split; [exact Hlab |]. split; [exact T |].
  unfold plot_spins. apply Z.eqb_neq in Hs. rewrite Hs. cbn [negb].
  rewrite Hlab. cbn [bind].
  rewrite (draw_all lat' s Lp' Ls' Ll'). cbn [bind].
  rewrite (filter_ext (shown s) (fun a => (s =? snd a)%Z)).
  - reflexivity.
  - intros a. unfold shown. now rewrite Hs.
Qed.

(** X24: [plot_spins(s)] with [s] other than 0, on a lattice loaded from
    files whose neighbour entries name existing atoms, labels the lattice
    and draws, in the order of the files, exactly the atoms whose label is
    [s]: an atom that the labelling left at 0 is in no such drawing. *)
Theorem plot_spins_draws_one_sublattice (fs : Lattice.file_system)
  (structure_file spin_file : string) (g : t) (s : Z) :
  init fs structure_file spin_file = Ok (g, Lattice.Silent) ->
  LatticeShape.neighbours_in_range (lattice g) ->
  s <> 0%Z ->
  exists lat',
    Lattice.set_sublattice (lattice g) = Ok lat' /\
    plot_spins g s
    = Ok (mk lat' (scene g),
          map ball_of (filter (fun a => (s =? snd a)%Z) (atoms lat')),
          map arrow_of (filter (fun a => (s =? snd a)%Z) (atoms lat'))).
Proof.
  intros H R Hs.
  destruct (plot_one_sublattice fs structure_file spin_file g s H R Hs)
    as (lat' & Hlab & _ & Hplot).
  eauto.
Qed.

(** X25: the labels are -1, 0 and 1: for any other [s], [plot_spins(s)] on
    such a lattice labels it and draws nothing. *)
Theorem plot_spins_unknown_sublattice (fs : Lattice.file_system)
  (structure_file spin_file : string) (g : t) (s : Z) :
  init fs structure_file spin_file = Ok (g, Lattice.Silent) ->
  LatticeShape.neighbours_in_range (lattice g) ->
  (s < -1 \/ 1 < s)%Z ->
  exists lat',
    Lattice.set_sublattice (lattice g) = Ok lat' /\
    plot_spins g s = Ok (mk lat' (scene g), [], []).
Proof.
  intros H R Hs.
  destruct (plot_one_sublattice fs structure_file spin_file g s H R)
    as (lat' & Hlab & T & Hplot); [lia |].
  exists lat'. split; [exact Hlab |].
  rewrite Hplot, filter_none; [reflexivity |].
  intros [[p sp] l] Hin. cbn [snd]. unfold atoms in Hin.
  apply in_combine_r in Hin.
  rewrite Forall_forall in T. specialize (T l Hin).
  apply Z.eqb_neq. unfold LatticeShape.three_valued in T. lia.
Qed.

(** X26: an object built on a missing file draws nothing for sublattice 0,
    and for any other sublattice [plot_spins] raises IndexError, at the
    first write of the labelling. *)
Theorem plot_spins_without_files (fs : Lattice.file_system)
  (structure_file spin_file path : string) (g : t) :
  init fs structure_file spin_file = Ok (g, Lattice.FileNotFound path) ->
  plot_spins g 0 = Ok (g, [], []) /\
  forall s, s <> 0%Z -> plot_spins g s = Raise IndexError.
Proof.
  intros H. apply init_inversion in H as [Hg H].
  apply load_files_missing_keeps in H. rewrite Hg, H. split.
  - reflexivity.
  - intros s Hs. unfold plot_spins. apply Z.eqb_neq in Hs. rewrite Hs.
    reflexivity.
Qed.

Import Examples MoreExamples.

Lemma triangle_in_range : LatticeShape.neighbours_in_range triangle.
Proof.
  unfold LatticeShape.neighbours_in_range. simpl.
  repeat constructor; unfold Criteria.in_range; simpl; lia.
Qed.

Lemma plot_spins_draws_every_atom_witness :
  plot_spins triangle_graph 0
  = Ok (triangle_graph, map ball_of (atoms (lattice triangle_graph)),
        map arrow_of (atoms (lattice triangle_graph)))
  /\ length (atoms (lattice triangle_graph))
     = Z.to_nat (Lattice.n_atoms (lattice triangle_graph)).
Proof.
  apply (plot_spins_draws_every_atom triangle_fs "structure" "spins"
           triangle_graph Lattice.Silent).
  vm_compute. reflexivity.
Defined.

Lemma plot_spins_draws_one_sublattice_witness :
  exists lat',
    Lattice.set_sublattice (lattice triangle_graph) = Ok lat' /\
    plot_spins triangle_graph 1
    = Ok (mk lat' (scene triangle_graph),
          map ball_of (filter (fun a => (1 =? snd a)%Z) (atoms lat')),
          map arrow_of (filter (fun a => (1 =? snd a)%Z) (atoms lat'))).
Proof.
  apply (plot_spins_draws_one_sublattice triangle_fs "structure" "spins"
           triangle_graph 1).
  - vm_compute. reflexivity.
  - exact triangle_in_range.
  - lia.
Defined.

Lemma plot_spins_unknown_sublattice_witness :
  exists lat',
    Lattice.set_sublattice (lattice triangle_graph) = Ok lat' /\
    plot_spins triangle_graph 2 = Ok (mk lat' (scene triangle_graph), [], []).
Proof.
  apply (plot_spins_unknown_sublattice triangle_fs "structure" "spins"
           triangle_graph 2).
  - vm_compute. reflexivity.
  - exact triangle_in_range.
  - lia.
Defined.

Lemma plot_spins_without_files_witness :
  plot_spins empty_graph 0 = Ok (empty_graph, [], []) /\
  forall s, s <> 0%Z -> plot_spins empty_graph s = Raise IndexError.
Proof.
  apply (plot_spins_without_files fs_no_spins "structure" "spins" "spins"
           empty_graph).
  vm_compute. reflexivity.
Defined.

(** The drawings of the triangle: the labelling leaves the labels 1, -1, 1,
    so that the first and the last atom are in the drawing of the sublattice
    1 and the second in the drawing of the sublattice -1. *)
Lemma triangle_drawings :
  (exists balls arrows,
      plot_spins triangle_graph 1
      = Ok (mk (Lattice.set_labels triangle [1; -1; 1]%Z) None,
            balls, arrows) /\
      map sphere_pos balls = [(0, 0, 0); (0, 1, 0)] /\
      map axis arrows = [(0, 0, 7); (0, 0, 7)]) /\
  (exists balls arrows,
      plot_spins triangle_graph (-1)
      = Ok (mk (Lattice.set_labels triangle [1; -1; 1]%Z) None,
            balls, arrows) /\
      map sphere_pos balls = [(1, 0, 0)]).
Proof.
  split.
  - do 2 eexists. split; [vm_compute; reflexivity |]. repeat split.
  - do 2 eexists. split; [vm_compute; reflexivity |]. repeat split.
Qed.

End GraphMakerFacts.
